(** * Biometric attendance: identity dedup, marking, closing and mail failover

    A shallow embedding of the server code of the biometric attendance
    system: the fingerprint helper ([normalizeBase64],
    [fingerprintHashFromBase64]), the student and attendance controllers with
    the Prisma services they call, and the mail service with its fallback
    transporter.  JavaScript strings are sequences of UTF-16 code units,
    database tables are finite maps from primary key to row or lists of
    link rows, and every controller is a function
    from the store (and the mailer state) to a response and a new store. *)

From Stdlib Require Import NArith ZArith String Ascii Lia ZifyNat ZifyN.
From Stdlib.Strings Require Import Byte.
From stdpp Require Import base decidable option list gmap.

Local Open Scope N_scope.

(** ** JavaScript strings *)

Module JS.

(** A string is its sequence of 16-bit code units. *)
Abbreviation jsstring := (list N).

(** An ASCII literal as a JavaScript string. *)
Definition lit (s : string) : jsstring :=
  map N_of_ascii (list_ascii_of_string s).

Definition COMMA : N := 44.
Definition MINUS : N := 45.
Definition UNDERSCORE : N := 95.
Definition PLUS : N := 43.
Definition SLASH : N := 47.
Definition EQUALS : N := 61.

(** The code units matched by [\s] and removed by [String.prototype.trim]:
    ECMAScript WhiteSpace and LineTerminator. *)
Definition isWhiteSpace (c : N) : bool :=
  ((9 <=? c) && (c <=? 13))
  || (c =? 32) || (c =? 160) || (c =? 5760)
  || ((8192 <=? c) && (c <=? 8202))
  || (c =? 8232) || (c =? 8233) || (c =? 8239) || (c =? 8287)
  || (c =? 12288) || (c =? 65279).

Fixpoint trimStart (s : jsstring) : jsstring :=
  match s with
  | [] => []
  | c :: r => if isWhiteSpace c then trimStart r else s
  end.

Definition trimEnd (s : jsstring) : jsstring := rev (trimStart (rev s)).

(** [s.trim()] *)
Definition trim (s : jsstring) : jsstring := trimEnd (trimStart s).

(** [s.includes(c)] for a one-character needle. *)
Definition includes (c : N) (s : jsstring) : bool := existsb (N.eqb c) s.

(** [s.split(c)] for a one-character separator: never empty, one more
    segment than there are separators. *)
Fixpoint split (sep : N) (s : jsstring) : list jsstring :=
  match s with
  | [] => [[]]
  | c :: r =>
      if c =? sep then [] :: split sep r
      else match split sep r with
           | seg :: segs => (c :: seg) :: segs
           | [] => [[c]]
           end
  end.

(** [s.replace(/c/g, d)] for single characters [c] and [d]. *)
Definition replaceAll (c d : N) (s : jsstring) : jsstring :=
  map (fun x => if x =? c then d else x) s.

(** [s.replace(/\s+/g, '')] *)
Definition stripWhiteSpace (s : jsstring) : jsstring :=
  List.filter (fun c => negb (isWhiteSpace c)) s.

(** Truthiness of a string: [''] is falsy. *)
Definition nonempty (s : jsstring) : bool :=
  match s with
  | [] => false
  | _ :: _ => true
  end.

(** Truthiness of an optional string: [undefined] and [''] are falsy. *)
Definition truthy (o : option jsstring) : bool :=
  match o with
  | Some s => nonempty s
  | None => false
  end.

End JS.
Import JS.

(** ** helpers/fingerprint.helper.ts *)

(** [while (str.length % 4 !== 0) str += '='], with the number of iterations
    bounded by [fuel]. *)
Fixpoint pad_loop (fuel : nat) (str : jsstring) : jsstring :=
  match fuel with
  | O => str
  | S fuel' =>
      if (N.of_nat (length str) mod 4 =? 0) then str
      else pad_loop fuel' (str ++ [EQUALS])
  end.

(** The second element of [str.split(',')]; [undefined] cannot arise where
    the code takes it, since it has tested [str.includes(',')]. *)
Definition split_1 (str : jsstring) : jsstring :=
  nth 1 (split COMMA str) [].

Definition normalizeBase64 (input : option jsstring) : jsstring :=
  if negb (truthy input) then []
  else
    let str := trim (default [] input) in
    let str := if includes COMMA str then split_1 str else str in
    let str := replaceAll UNDERSCORE SLASH (replaceAll MINUS PLUS str) in
    let str := stripWhiteSpace str in
    pad_loop 3 str.

(** The translation of the alphabet followed by the removal of white space,
    as [normalizeBase64] applies them. *)
Definition canonical_body (s : jsstring) : jsstring :=
  stripWhiteSpace (replaceAll UNDERSCORE SLASH (replaceAll MINUS PLUS s)).

(** A character of a canonical string: not white space, not a comma, not
    one of the two URL-safe characters. *)
Definition canonical_char (x : N) : Prop :=
  isWhiteSpace x = false ∧ x ≠ COMMA ∧ x ≠ MINUS ∧ x ≠ UNDERSCORE.

(** A character of a base64 encoding, the padding apart. *)
Definition base64_char (url : bool) (x : N) : Prop :=
  isWhiteSpace x = false ∧ x ≠ COMMA ∧ x ≠ EQUALS
  ∧ (url = false → x ≠ MINUS ∧ x ≠ UNDERSCORE).

(** The two replacements of the URL-safe characters. *)
Definition translate (s : jsstring) : jsstring :=
  replaceAll UNDERSCORE SLASH (replaceAll MINUS PLUS s).

(** The part of a string after its first [c], empty when there is none, and
    the part before it, the whole string when there is none. *)
Fixpoint after_first (c : N) (s : jsstring) : jsstring :=
  match s with
  | [] => []
  | x :: r => if (x =? c)%N then r else after_first c r
  end.

Fixpoint before_first (c : N) (s : jsstring) : jsstring :=
  match s with
  | [] => []
  | x :: r => if (x =? c)%N then [] else x :: before_first c r
  end.

(** [Buffer.from(b).toString('base64')]: RFC 4648 with the standard alphabet
    and padding; and the URL-safe variant, with or without padding. *)
Module Base64.

Definition alphabet (url : bool) (v : N) : N :=
  if v <? 26 then 65 + v
  else if v <? 52 then 97 + (v - 26)
  else if v <? 62 then 48 + (v - 52)
  else if v =? 62 then (if url then MINUS else PLUS)
  else (if url then UNDERSCORE else SLASH).

Definition sextet1 (a : N) : N := N.shiftr a 2.
Definition sextet2 (a b : N) : N :=
  N.lor (N.shiftl (N.land a 3) 4) (N.shiftr b 4).
Definition sextet3 (b c : N) : N :=
  N.lor (N.shiftl (N.land b 15) 2) (N.shiftr c 6).
Definition sextet4 (c : N) : N := N.land c 63.

Fixpoint encode_with (url pad : bool) (bs : list byte) : jsstring :=
  match bs with
  | [] => []
  | [a] =>
      let a := Byte.to_N a in
      [alphabet url (sextet1 a); alphabet url (sextet2 a 0)]
        ++ (if pad then [EQUALS; EQUALS] else [])
  | [a; b] =>
      let a := Byte.to_N a in
      let b := Byte.to_N b in
      [alphabet url (sextet1 a); alphabet url (sextet2 a b);
       alphabet url (sextet3 b 0)]
        ++ (if pad then [EQUALS] else [])
  | a :: b :: c :: r =>
      let a := Byte.to_N a in
      let b := Byte.to_N b in
      let c := Byte.to_N c in
      alphabet url (sextet1 a) :: alphabet url (sextet2 a b)
        :: alphabet url (sextet3 b c) :: alphabet url (sextet4 c)
        :: encode_with url pad r
  end.

(** [buf.toString('base64')] *)
Definition encode : list byte -> jsstring := encode_with false true.
(** [buf.toString('base64url')]: URL-safe alphabet, no padding. *)
Definition encode_url : list byte -> jsstring := encode_with true false.
(** The URL-safe alphabet with the padding kept. *)
Definition encode_url_padded : list byte -> jsstring := encode_with true true.

(** The value of a character in either alphabet. *)
Definition unbase64 (c : N) : option N :=
  if (65 <=? c) && (c <=? 90) then Some (c - 65)
  else if (97 <=? c) && (c <=? 122) then Some (c - 97 + 26)
  else if (48 <=? c) && (c <=? 57) then Some (c - 48 + 52)
  else if (c =? PLUS) || (c =? MINUS) then Some 62
  else if (c =? SLASH) || (c =? UNDERSCORE) then Some 63
  else None.

(** The sextets of the input up to the first ['=']; characters of neither
    alphabet are skipped. *)
Fixpoint sextets (s : jsstring) : list N :=
  match s with
  | [] => []
  | c :: r =>
      if c =? EQUALS then []
      else match unbase64 c with
           | Some v => v :: sextets r
           | None => sextets r
           end
  end.

Definition byte_of (n : N) : byte :=
  default Byte.x00 (Byte.of_N (n mod 256)).

Fixpoint pack (vs : list N) : list byte :=
  match vs with
  | a :: b :: c :: d :: r =>
      byte_of (N.lor (N.shiftl a 2) (N.shiftr b 4))
        :: byte_of (N.lor (N.shiftl (N.land b 15) 4) (N.shiftr c 2))
        :: byte_of (N.lor (N.shiftl (N.land c 3) 6) d)
        :: pack r
  | [a; b; c] =>
      [byte_of (N.lor (N.shiftl a 2) (N.shiftr b 4));
       byte_of (N.lor (N.shiftl (N.land b 15) 4) (N.shiftr c 2))]
  | [a; b] => [byte_of (N.lor (N.shiftl a 2) (N.shiftr b 4))]
  | _ => []
  end.

(** A lenient decoder in the manner of [Buffer.from(s, 'base64')]. *)
Definition decode (s : jsstring) : list byte := pack (sextets s).

End Base64.

(** SHA-256 (FIPS 180-4) on byte strings, with the digest in lower-case
    hexadecimal: [crypto.createHash('sha256').update(b).digest('hex')]. *)
Module SHA256.

Definition mask32 : N := 0xFFFFFFFF.
Definition add32 (x y : N) : N := N.land (x + y) mask32.
Definition rotr (n x : N) : N :=
  N.lor (N.shiftr x n) (N.land (N.shiftl x (32 - n)) mask32).
Definition not32 (x : N) : N := N.lxor x mask32.

Definition Ch (x y z : N) : N :=
  N.lxor (N.land x y) (N.land (not32 x) z).
Definition Maj (x y z : N) : N :=
  N.lxor (N.lxor (N.land x y) (N.land x z)) (N.land y z).
Definition Sigma0 (x : N) : N :=
  N.lxor (N.lxor (rotr 2 x) (rotr 13 x)) (rotr 22 x).
Definition Sigma1 (x : N) : N :=
  N.lxor (N.lxor (rotr 6 x) (rotr 11 x)) (rotr 25 x).
Definition sigma0 (x : N) : N :=
  N.lxor (N.lxor (rotr 7 x) (rotr 18 x)) (N.shiftr x 3).
Definition sigma1 (x : N) : N :=
  N.lxor (N.lxor (rotr 17 x) (rotr 19 x)) (N.shiftr x 10).

(** The constants are fractional parts of roots of the first primes: the
    initial hash value from the square roots of the first eight, the round
    constants from the cube roots of the first sixty-four, thirty-two bits
    of each. *)
Definition is_prime (n : nat) : bool :=
  forallb (fun d => negb (n mod d =? 0)%nat) (seq 2 (n - 2)).

Definition primes : list N :=
  map N.of_nat (List.filter is_prime (seq 2 310)).

(** The integer cube root, one bit at a time from bit [bits] down. *)
Fixpoint cube_root (bits : nat) (r n : N) : N :=
  match bits with
  | O => r
  | S b =>
      let r' := r + N.shiftl 1 (N.of_nat b) in
      cube_root b (if r' * r' * r' <=? n then r' else r) n
  end.

Definition K : list N :=
  Eval vm_compute in
    map (fun p => N.land (cube_root 40 0 (N.shiftl p 96)) mask32) primes.

Definition H0 : list N :=
  Eval vm_compute in
    map (fun p => N.land (N.sqrt (N.shiftl p 64)) mask32) (firstn 8 primes).

(** Big-endian bytes of a number, [n] of them. *)
Fixpoint be_bytes (n : nat) (x : N) : list N :=
  match n with
  | O => []
  | S n' => be_bytes n' (N.shiftr x 8) ++ [N.land x 255]
  end.

(** The message, the byte [0x80], zeros up to 56 modulo 64, and the length
    in bits on eight bytes. *)
Definition padded (msg : list N) : list N :=
  let len := N.of_nat (length msg) in
  let zeros := N.to_nat ((119 - len mod 64) mod 64) in
  msg ++ [128] ++ repeat 0 zeros ++ be_bytes 8 (8 * len).

Fixpoint words (fuel : nat) (bs : list N) : list N :=
  match fuel, bs with
  | S fuel', a :: b :: c :: d :: r =>
      (N.shiftl a 24 + N.shiftl b 16 + N.shiftl c 8 + d) :: words fuel' r
  | _, _ => []
  end.

(** The message schedule, newest word first: [prev] holds W(t-1), W(t-2),
    ... and at least sixteen of them. *)
Fixpoint schedule (n : nat) (prev : list N) : list N :=
  match n with
  | O => prev
  | S n' =>
      let w := add32 (add32 (sigma1 (nth 1 prev 0)) (nth 6 prev 0))
                     (add32 (sigma0 (nth 14 prev 0)) (nth 15 prev 0)) in
      schedule n' (w :: prev)
  end.

Definition round (st : list N) (kw : N * N) : list N :=
  match st with
  | [a; b; c; d; e; f; g; h] =>
      let t1 := add32 (add32 (add32 h (Sigma1 e)) (Ch e f g))
                      (add32 kw.1 kw.2) in
      let t2 := add32 (Sigma0 a) (Maj a b c) in
      [add32 t1 t2; a; b; c; add32 d t1; e; f; g]
  | _ => st
  end.

Definition compress (h : list N) (block : list N) : list N :=
  let w := rev (schedule 48 (rev block)) in
  let st := fold_left round (combine K w) h in
  map (fun p : N * N => add32 p.1 p.2) (combine h st).

Fixpoint blocks (fuel : nat) (ws : list N) (h : list N) : list N :=
  match fuel with
  | O => h
  | S fuel' =>
      match ws with
      | [] => h
      | _ => blocks fuel' (skipn 16 ws) (compress h (firstn 16 ws))
      end
  end.

Definition hex_digit (v : N) : N := if v <? 10 then 48 + v else 87 + v.

Fixpoint hex (digits : nat) (x : N) : jsstring :=
  match digits with
  | O => []
  | S d => hex d (N.shiftr x 4) ++ [hex_digit (N.land x 15)]
  end.

Definition digest_words (msg : list byte) : list N :=
  let bs := padded (map Byte.to_N msg) in
  let ws := words (length bs) bs in
  blocks (length ws) ws H0.

Definition digest_hex (msg : list byte) : jsstring :=
  concat (map (hex 8) (digest_words msg)).

End SHA256.


(** ** The runtime services the code calls *)

(** [Buffer.from(s, 'base64')], the SHA-256 digest in hexadecimal of the
    [crypto] module, and [String.prototype.toLowerCase]. *)
Class Runtime := {
  base64_decode : jsstring -> list byte;
  sha256_hex : list byte -> jsstring;
  toLowerCase : jsstring -> jsstring
}.

(** Lower-casing of the ASCII letters; other code units are kept. *)
Definition ascii_toLowerCase (s : jsstring) : jsstring :=
  map (fun c => if (65 <=? c) && (c <=? 90) then c + 32 else c) s.

(** A reference runtime, used to evaluate the model on concrete inputs. *)
Definition node : Runtime := {|
  base64_decode := Base64.decode;
  sha256_hex := SHA256.digest_hex;
  toLowerCase := ascii_toLowerCase
|}.

Definition fingerprintHashFromBase64 `{Runtime} (base64 : jsstring) : jsstring :=
  let buffer := base64_decode base64 in
  sha256_hex buffer.

Definition bufferFromBase64 `{Runtime} (base64 : jsstring) : list byte :=
  base64_decode base64.

(** ** The database *)

(** The rows of the five tables the code uses.  [Student], [Course] and
    [Attendance] have a primary key [id]; their tables map the key to the
    rest of the row.  The link tables are lists of rows. *)
Record Student := {
  s_staff_id : jsstring;
  s_name : jsstring;
  s_email : jsstring;
  s_matric_no : jsstring;
  s_fingerprint : list byte;
  s_fingerprint_hash : option jsstring;
  s_created_at : N
}.

Record Course := {
  c_staff_id : jsstring;
  c_course_name : jsstring;
  c_course_code : jsstring
}.

Record Attendance := {
  a_staff_id : jsstring;
  a_course_id : jsstring;
  a_name : jsstring;
  a_date : jsstring;
  a_created_at : N
}.

Record StudentCourse := {
  sc_student_id : jsstring;
  sc_course_id : jsstring
}.

Record StudentAttendance := {
  sa_student_id : jsstring;
  sa_attendance_id : jsstring
}.

#[global] Instance StudentCourse_eq_dec : EqDecision StudentCourse.
Proof. solve_decision. Defined.

#[global] Instance StudentAttendance_eq_dec : EqDecision StudentAttendance.
Proof. solve_decision. Defined.

Record Store := {
  students : gmap jsstring Student;
  courses : gmap jsstring Course;
  attendances : gmap jsstring Attendance;
  studentCourses : list StudentCourse;
  studentAttendances : list StudentAttendance
}.

Definition with_students (t : gmap jsstring Student) (db : Store) : Store :=
  {| students := t; courses := courses db; attendances := attendances db;
     studentCourses := studentCourses db;
     studentAttendances := studentAttendances db |}.

Definition with_studentCourses (t : list StudentCourse) (db : Store) : Store :=
  {| students := students db; courses := courses db;
     attendances := attendances db; studentCourses := t;
     studentAttendances := studentAttendances db |}.

Definition with_studentAttendances (t : list StudentAttendance) (db : Store)
  : Store :=
  {| students := students db; courses := courses db;
     attendances := attendances db; studentCourses := studentCourses db;
     studentAttendances := t |}.

(** A storage call resolves or rejects. *)
Inductive DbError := RecordNotFound | UniqueConstraint | StorageFault.

Inductive Result (A : Type) :=
| Resolve (a : A)
| Reject (e : DbError).
Arguments Resolve {A} a.
Arguments Reject {A} e.

(** [prisma.t.findFirst({ where })]: some row that satisfies the filter. *)
Definition findFirst {R} (p : jsstring -> R -> bool) (t : gmap jsstring R)
  : option (jsstring * R) :=
  List.find (fun kr => p kr.1 kr.2) (map_to_list t).

(** [prisma.t.findMany({ where })] *)
Definition findMany {R} (p : jsstring -> R -> bool) (t : gmap jsstring R)
  : list (jsstring * R) :=
  List.filter (fun kr => p kr.1 kr.2) (map_to_list t).

Definition str_eqb (a b : jsstring) : bool := bool_decide (a = b).

(** ** services/student.service.ts *)

(** The unique index [Student_fingerprint_hash_key]: a hash that is not
    [NULL] is held by one row at most. *)
Definition hash_held_by_other (id : jsstring) (h : option jsstring)
    (t : gmap jsstring Student) : bool :=
  match h with
  | None => false
  | Some _ =>
      bool_decide (is_Some (findFirst (fun k r =>
        negb (str_eqb k id) && bool_decide (s_fingerprint_hash r = h)) t))
  end.

(** [prisma.student.create({ data })], the key being the one the database
    generates, [new_id]. *)
Definition saveStudentToDb (new_id : jsstring) (student : Student) (db : Store)
  : Result (jsstring * Student * Store) :=
  if bool_decide (is_Some (students db !! new_id)) then Reject UniqueConstraint
  else if hash_held_by_other new_id (s_fingerprint_hash student) (students db)
  then Reject UniqueConstraint
  else Resolve (new_id, student,
                with_students (<[new_id := student]> (students db)) db).

(** [createMany({ data, skipDuplicates: true })] *)
Definition saveStudentCoursesToDb (rows : list StudentCourse) (db : Store)
  : Store :=
  with_studentCourses
    (fold_left (fun acc r => if bool_decide (r ∈ acc) then acc else acc ++ [r])
               rows (studentCourses db)) db.

Definition removeAllStudentCoursesToDb (student_id : jsstring) (db : Store)
  : Store :=
  with_studentCourses
    (List.filter (fun r => negb (str_eqb (sc_student_id r) student_id))
                 (studentCourses db)) db.

(** [findMany({ where: { student_id }, include: { course: true } })] *)
Definition getStudentCourses (student_id : jsstring) (db : Store)
  : list (StudentCourse * option Course) :=
  map (fun r => (r, courses db !! sc_course_id r))
      (List.filter (fun r => str_eqb (sc_student_id r) student_id)
                   (studentCourses db)).

Definition checkIfStudentExists (matric_no staff_id : jsstring) (db : Store)
  : bool :=
  bool_decide (is_Some (findFirst (fun _ r =>
    str_eqb (s_matric_no r) matric_no && str_eqb (s_staff_id r) staff_id)
    (students db))).

(** The fields of [Partial<Student>] an update may carry; the [id], when the
    body repeats it, is the row's own. *)
Record StudentPatch := {
  u_staff_id : option jsstring;
  u_name : option jsstring;
  u_email : option jsstring;
  u_matric_no : option jsstring;
  u_fingerprint : option (list byte);
  u_fingerprint_hash : option (option jsstring);
  u_created_at : option N
}.

Definition apply_patch (u : StudentPatch) (r : Student) : Student := {|
  s_staff_id := default (s_staff_id r) (u_staff_id u);
  s_name := default (s_name r) (u_name u);
  s_email := default (s_email r) (u_email u);
  s_matric_no := default (s_matric_no r) (u_matric_no u);
  s_fingerprint := default (s_fingerprint r) (u_fingerprint u);
  s_fingerprint_hash := default (s_fingerprint_hash r) (u_fingerprint_hash u);
  s_created_at := default (s_created_at r) (u_created_at u)
|}.

(** [prisma.student.update({ where: { id }, data })] *)
Definition updateStudentInDb (id : jsstring) (newUpdate : StudentPatch)
    (db : Store) : Result (Student * Store) :=
  match students db !! id with
  | None => Reject RecordNotFound
  | Some r =>
      let r' := apply_patch newUpdate r in
      if hash_held_by_other id (s_fingerprint_hash r') (students db)
      then Reject UniqueConstraint
      else Resolve (r', with_students (<[id := r']> (students db)) db)
  end.

(** The statements of the deletion path, any of which the storage may fail. *)
Inductive DbStmt :=
| DeleteStudentCourses
| TxDeleteAttendances
| TxDeleteCourses
| TxDeleteStudent.

(** A statement with its effect on the store. *)
Definition Statement : Type := DbStmt * (Store -> Result Store).

(** [prisma.$transaction([...])]: the statements run in order on a working
    copy; the first that rejects discards the copy. *)
Fixpoint run_statements (fault : DbStmt -> bool) (stmts : list Statement)
    (work : Store) : Result Store :=
  match stmts with
  | [] => Resolve work
  | (name, effect) :: rest =>
      if fault name then Reject StorageFault
      else match effect work with
           | Resolve work' => run_statements fault rest work'
           | Reject e => Reject e
           end
  end.

Definition transaction (fault : DbStmt -> bool) (stmts : list Statement)
    (db : Store) : Result Store :=
  run_statements fault stmts db.

Definition deleteManyAttendancesOf (studentId : jsstring) (db : Store)
  : Result Store :=
  Resolve (with_studentAttendances
    (List.filter (fun r => negb (str_eqb (sa_student_id r) studentId))
                 (studentAttendances db)) db).

Definition deleteManyCoursesOf (studentId : jsstring) (db : Store)
  : Result Store :=
  Resolve (removeAllStudentCoursesToDb studentId db).

(** [prisma.student.delete({ where: { id } })] rejects when there is no such
    row. *)
Definition deleteStudentRow (studentId : jsstring) (db : Store)
  : Result Store :=
  match students db !! studentId with
  | None => Reject RecordNotFound
  | Some _ => Resolve (with_students (delete studentId (students db)) db)
  end.

Definition removeStudentFromDb (fault : DbStmt -> bool) (studentId : jsstring)
    (db : Store) : Result Store :=
  transaction fault
    [(TxDeleteAttendances, deleteManyAttendancesOf studentId);
     (TxDeleteCourses, deleteManyCoursesOf studentId);
     (TxDeleteStudent, deleteStudentRow studentId)] db.

(** [removeAllStudentCoursesToDb] as the deletion path calls it, a statement
    of its own that the storage may fail. *)
Definition removeAllStudentCoursesStmt (fault : DbStmt -> bool)
    (student_id : jsstring) (db : Store) : Result Store :=
  if fault DeleteStudentCourses then Reject StorageFault
  else Resolve (removeAllStudentCoursesToDb student_id db).

(** ** services/attendance.service.ts *)

(** Modelled from the spec: [checkIfStudentIsMarked], of the attendance
    service, whose source is not part of the repository snapshot.  A Mark
    is the fact that an identity was present in a session, keyed by the
    pair (session, identity); the check looks that pair up. *)
Definition checkIfStudentIsMarked (attendance_id student_id : jsstring)
    (db : Store) : bool :=
  bool_decide ({| sa_student_id := student_id;
                  sa_attendance_id := attendance_id |}
               ∈ studentAttendances db).

(** Modelled from the spec: [markStudentAttendance], of the same service.
    It persists the Mark; the storage enforces the unique constraint on
    (session, identity). *)
Definition markStudentAttendance (attendance_id student_id : jsstring)
    (db : Store) : Result Store :=
  let row := {| sa_student_id := student_id;
                sa_attendance_id := attendance_id |} in
  if bool_decide (row ∈ studentAttendances db) then Reject UniqueConstraint
  else Resolve (with_studentAttendances (studentAttendances db ++ [row]) db).

(** ** services/email.service.ts *)

Inductive Transport := Primary | Fallback.

#[global] Instance Transport_eq_dec : EqDecision Transport.
Proof. solve_decision. Defined.

(** The two module variables: [transporter], and [fallbackTransporter], which
    is [null] until a fallback has been created and verified. *)
Record Mailer := {
  transporter : Transport;
  fallbackTransporter : option Transport
}.

Definition initialMailer : Mailer :=
  {| transporter := Primary; fallbackTransporter := None |}.

(** The error a transport rejects with. *)
Record MailError := {
  code : option jsstring;
  command : option jsstring
}.

Inductive SendOutcome :=
| Delivered
| Rejected (error : MailError).

(** What the network does during one call of [sendEmail]: the outcome of
    [sendMail] on the active transporter, of [verify] on a newly created
    fallback, and of [sendMail] on the fallback. *)
Record Net := {
  first_send : SendOutcome;
  fallback_verify : bool;
  fallback_send : SendOutcome
}.

(** The text of a message, by template and arguments. *)
Inductive MailBody :=
| Welcome (studentName : jsstring)
| AttendanceRecorded (studentName courseName courseCode date : jsstring)
| MissedAttendance (studentName courseName courseCode date : jsstring).

Record EmailOptions := {
  to : jsstring;
  subject : jsstring;
  html : MailBody
}.

(** What a call of [sendEmail] does, in order: it is entered, it calls
    [sendMail] on [transporter], it has a new fallback verified, it calls
    [sendMail] on [fallbackTransporter]. *)
Inductive MailEvent :=
| Requested (opts : EmailOptions)
| SendActive (tx : Transport) (opts : EmailOptions) (ok : bool)
| VerifyFallback (ok : bool)
| SendFallback (tx : Transport) (opts : EmailOptions) (ok : bool).

Definition has_code (error : MailError) (c : string) : bool :=
  bool_decide (code error = Some (lit c)).

Definition has_command (error : MailError) (c : string) : bool :=
  bool_decide (command error = Some (lit c)).

(** [isConnTimeout] of [sendEmail]. *)
Definition isConnTimeout (error : MailError) : bool :=
  has_code error "ETIMEDOUT" || has_command error "CONN"
  || has_code error "ECONNECTION" || has_code error "ESOCKET".

(** [isConnTimeout] of the verification at start-up. *)
Definition isConnTimeout_startup (err : MailError) : bool :=
  has_code err "ETIMEDOUT" || has_command err "CONN"
  || has_code err "ECONNECTION".

Definition tryCreateFallback (verified : bool) (m : Mailer)
  : bool * Mailer * list MailEvent :=
  if verified
  then (true, {| transporter := transporter m;
                 fallbackTransporter := Some Fallback |},
        [VerifyFallback true])
  else (false, {| transporter := transporter m;
                  fallbackTransporter := None |},
        [VerifyFallback false]).

(** The verification of the primary transporter when the module loads. *)
Definition startup (DISABLE_EMAILS : bool) (primary_verify : SendOutcome)
    (verified : bool) : Mailer :=
  if DISABLE_EMAILS then initialMailer
  else match primary_verify with
       | Delivered => initialMailer
       | Rejected err =>
           if isConnTimeout_startup err then
             let m := (tryCreateFallback verified initialMailer).1.2 in
             match fallbackTransporter m with
             | Some fb => {| transporter := fb;
                             fallbackTransporter := Some fb |}
             | None => m
             end
           else initialMailer
       end.

Definition sendEmail (DISABLE_EMAILS : bool) (net : Net) (opts : EmailOptions)
    (m : Mailer) : bool * Mailer * list MailEvent :=
  if DISABLE_EMAILS then (false, m, [Requested opts])
  else
    match first_send net with
    | Delivered =>
        (true, m, [Requested opts; SendActive (transporter m) opts true])
    | Rejected error =>
        let tried := [Requested opts; SendActive (transporter m) opts false] in
        if isConnTimeout error then
          let '(ok, m1, created) :=
            match fallbackTransporter m with
            | None => tryCreateFallback (fallback_verify net) m
            | Some _ => (true, m, [])
            end in
          if negb ok then (false, m1, tried ++ created)
          else
            match fallbackTransporter m1 with
            | Some fb =>
                match fallback_send net with
                | Delivered =>
                    (true,
                     {| transporter := fb;
                        fallbackTransporter := fallbackTransporter m1 |},
                     tried ++ created ++ [SendFallback fb opts true])
                | Rejected _ =>
                    (false, m1, tried ++ created ++ [SendFallback fb opts false])
                end
            | None => (false, m1, tried ++ created)
            end
        else (false, m, tried)
    end.

Definition sendWelcomeEmail (DISABLE_EMAILS : bool) (net : Net)
    (studentEmail studentName : jsstring) (m : Mailer) :=
  sendEmail DISABLE_EMAILS net
    {| to := studentEmail;
       subject := lit "Welcome to Bio Attendance System";
       html := Welcome studentName |} m.

Definition sendAttendanceConfirmationEmail (DISABLE_EMAILS : bool) (net : Net)
    (studentEmail studentName courseName courseCode date : jsstring)
    (m : Mailer) :=
  sendEmail DISABLE_EMAILS net
    {| to := studentEmail;
       subject := lit "Attendance Recorded for " ++ courseCode;
       html := AttendanceRecorded studentName courseName courseCode date |} m.

Definition sendMissedAttendanceEmail (DISABLE_EMAILS : bool) (net : Net)
    (studentEmail studentName courseName courseCode date : jsstring)
    (m : Mailer) :=
  sendEmail DISABLE_EMAILS net
    {| to := studentEmail;
       subject := lit "Missed Attendance for " ++ courseCode;
       html := MissedAttendance studentName courseName courseCode date |} m.

(** ** The controllers *)

(** What a request handler runs against: the database, the mailer of the
    process, and the record of what the mail service did. *)
Record World := {
  db : Store;
  mailer : Mailer;
  mail_log : list MailEvent
}.

Definition with_db (d : Store) (w : World) : World :=
  {| db := d; mailer := mailer w; mail_log := mail_log w |}.

(** The outcome of a send, folded into the world. *)
Definition after_mail (r : bool * Mailer * list MailEvent) (w : World)
  : World :=
  {| db := db w; mailer := r.1.2; mail_log := mail_log w ++ r.2 |}.

(** What a handler answers: [createSuccess], an HTTP error made with
    [createError], or a rejected storage call handed to [next]. *)
Inductive Reply (A : Type) :=
| Success (status : N) (message : jsstring) (data : A)
| HttpError (status : N) (message : jsstring) (errorType : option jsstring)
| Failure (e : DbError).
Arguments Success {A} status message data.
Arguments HttpError {A} status message errorType.
Arguments Failure {A} e.

Definition BadRequest {A} (message : string) : Reply A :=
  HttpError 400 (lit message) None.

Definition TypedError {A} (status : N) (message errorType : string) : Reply A :=
  HttpError status (lit message) (Some (lit errorType)).

(** The failures of the specification, as the handlers answer them. *)
Definition DuplicateEnrollmentNumber {A} : Reply A :=
  TypedError 400 "Student with the same matric number already exists."
             "STUDENT_ALREADY_EXISTS".

Definition DuplicateBiometric {A} : Reply A :=
  TypedError 400 "A student with the same fingerprint already exists."
             "STUDENT_FINGERPRINT_ALREADY_EXISTS".

Definition AlreadyMarked {A} : Reply A :=
  TypedError 400 "Student has already been marked." "STUDENT_ALREADY_MARKED".

Definition SessionNotFound {A} : Reply A :=
  HttpError 404 (lit "Attendance session not found") None.

Definition IdentityNotFound {A} : Reply A :=
  HttpError 404 (lit "Student not found") None.

Definition NotEnrolled {A} : Reply A :=
  TypedError 400 "Student is not enrolled in this course"
             "STUDENT_NOT_ENROLLED".

(** *** controllers/student.controller.ts *)

Record StudentCreateInput := {
  in_name : jsstring;
  in_staff_id : jsstring;
  in_matric_no : jsstring;
  in_email : option jsstring;
  in_fingerprint : option jsstring;
  in_courses : list jsstring
}.

(** The student as the response carries it, the fingerprint in base64. *)
Record StudentView := {
  v_id : jsstring;
  v_student : Student;
  v_fingerprint : jsstring;
  v_courses : list (option Course)
}.

(** What the handler takes from its surroundings: the key the database
    gives the new row, the clock, and the network during the welcome mail. *)
Record CreateEnv := {
  new_id : jsstring;
  now : N;
  welcome_net : Net
}.

Section Controllers.

Context `{rt : Runtime}.
Variable DISABLE_EMAILS : bool.

Definition createStudent (env : CreateEnv) (body : StudentCreateInput)
    (w : World) : Reply StudentView * World :=
  let name := in_name body in
  let staff_id := in_staff_id body in
  let matric_no := in_matric_no body in
  let email := in_email body in
  let fingerprint := in_fingerprint body in
  let courses := in_courses body in
  if negb (nonempty staff_id) then (BadRequest "No staff ID provided", w)
  else if negb (nonempty matric_no)
  then (BadRequest "The matric_no field is required.", w)
  else
    let courseExists := checkIfStudentExists matric_no staff_id (db w) in
    if courseExists then (DuplicateEnrollmentNumber, w)
    else
      let normalizedFingerprint := normalizeBase64 fingerprint in
      let fingerprintData := bufferFromBase64 normalizedFingerprint in
      let fingerprintHash := fingerprintHashFromBase64 normalizedFingerprint in
      let existingByHash :=
        findFirst (fun _ r =>
          bool_decide (s_fingerprint_hash r = Some fingerprintHash))
          (students (db w)) in
      if bool_decide (is_Some existingByHash) then (DuplicateBiometric, w)
      else
        let studentEmail :=
          if truthy email then default [] email
          else toLowerCase matric_no ++ lit "@student.edu" in
        let newStudent := {|
          s_staff_id := staff_id;
          s_name := name;
          s_email := studentEmail;
          s_matric_no := matric_no;
          s_fingerprint := fingerprintData;
          s_fingerprint_hash := Some fingerprintHash;
          s_created_at := now env
        |} in
        match saveStudentToDb (new_id env) newStudent (db w) with
        | Reject e => (Failure e, w)
        | Resolve (id, savedStudent, db1) =>
            let db2 :=
              saveStudentCoursesToDb
                (map (fun course_id => {| sc_student_id := id;
                                          sc_course_id := course_id |})
                     courses) db1 in
            let studentCourses := getStudentCourses id db2 in
            let w2 :=
              after_mail (sendWelcomeEmail DISABLE_EMAILS (welcome_net env)
                            studentEmail name (mailer w))
                         (with_db db2 w) in
            (Success 200 (lit "Student created successfully")
               {| v_id := id;
                  v_student := savedStudent;
                  v_fingerprint :=
                    Base64.encode (s_fingerprint savedStudent);
                  v_courses := map snd studentCourses |},
             w2)
        end.

Record StudentUpdateInput := {
  up_courses : option (list jsstring);
  up_fingerprint : option jsstring;
  up_newUpdate : StudentPatch
}.

(** [{ ...newUpdate, ...fingerprintUpdate }]: [newUpdate] is the body
    without its [fingerprint], which [fingerprintUpdate] alone supplies. *)
Definition merge_fingerprint (newUpdate : StudentPatch)
    (fingerprintUpdate : option (list byte)) : StudentPatch := {|
  u_staff_id := u_staff_id newUpdate;
  u_name := u_name newUpdate;
  u_email := u_email newUpdate;
  u_matric_no := u_matric_no newUpdate;
  u_fingerprint := fingerprintUpdate;
  u_fingerprint_hash := u_fingerprint_hash newUpdate;
  u_created_at := u_created_at newUpdate
|}.

Definition updateStudent (id : jsstring) (body : StudentUpdateInput)
    (w : World) : Reply StudentView * World :=
  if negb (nonempty id) then (BadRequest "No student ID provided", w)
  else
    let fingerprintUpdate :=
      if truthy (up_fingerprint body)
      then Some (base64_decode (default [] (up_fingerprint body)))
      else None in
    let db1 :=
      match up_courses body with
      | Some (c :: cs) =>
          saveStudentCoursesToDb
            (map (fun course_id => {| sc_student_id := id;
                                      sc_course_id := course_id |})
                 (c :: cs))
            (removeAllStudentCoursesToDb id (db w))
      | _ => db w
      end in
    match updateStudentInDb id
            (merge_fingerprint (up_newUpdate body) fingerprintUpdate) db1 with
    | Reject e => (Failure e, with_db db1 w)
    | Resolve (updatedStudent, db2) =>
        let studentCourses := getStudentCourses id db2 in
        (Success 200 (lit "Student updated successfully")
           {| v_id := id;
              v_student := updatedStudent;
              v_fingerprint := Base64.encode (s_fingerprint updatedStudent);
              v_courses := map snd studentCourses |},
         with_db db2 w)
    end.

Definition deleteStudent (fault : DbStmt -> bool) (id : jsstring) (w : World)
  : Reply bool * World :=
  if negb (nonempty id) then (BadRequest "No student ID provided", w)
  else
    match removeAllStudentCoursesStmt fault id (db w) with
    | Reject e => (Failure e, w)
    | Resolve db1 =>
        match removeStudentFromDb fault id db1 with
        | Reject e => (Failure e, with_db db1 w)
        | Resolve db2 =>
            (Success 200 (lit "Student deleted successfully") true,
             with_db db2 w)
        end
    end.

(** *** controllers/attendance.controller.ts *)

Record MarkInput := {
  attendance_id : jsstring;
  student_id : jsstring
}.

Record MarkView := {
  marked : bool;
  verification_bypassed : bool
}.

(** [student.courses.some(enrollment => enrollment.course_id === course_id)]
    on the student fetched with its enrolments. *)
Definition isEnrolledIn (student_id course_id : jsstring) (d : Store) : bool :=
  existsb (fun enrollment => str_eqb (sc_course_id enrollment) course_id)
          (List.filter (fun r => str_eqb (sc_student_id r) student_id)
                       (studentCourses d)).

(** The confirmation mail after a mark: the session and the student are
    read again; the mail goes out when both are found.  Reading a field of
    a missing course throws inside the [try], which swallows it. *)
Definition confirm_by_mail (net : Net) (body : MarkInput) (w : World)
  : World :=
  match attendances (db w) !! attendance_id body,
        students (db w) !! student_id body with
  | Some attendanceDetails, Some studentDetails =>
      match courses (db w) !! a_course_id attendanceDetails with
      | Some course =>
          after_mail
            (sendAttendanceConfirmationEmail DISABLE_EMAILS net
               (s_email studentDetails) (s_name studentDetails)
               (c_course_name course) (c_course_code course)
               (a_date attendanceDetails) (mailer w)) w
      | None => w
      end
  | _, _ => w
  end.

Definition addStudentToAttendance (net : Net) (body : MarkInput) (w : World)
  : Reply MarkView * World :=
  if negb (nonempty (attendance_id body)) || negb (nonempty (student_id body))
  then (BadRequest "No attendance ID or student ID provided", w)
  else
    let isMarked :=
      checkIfStudentIsMarked (attendance_id body) (student_id body) (db w) in
    if isMarked then (AlreadyMarked, w)
    else
      match attendances (db w) !! attendance_id body with
      | None => (SessionNotFound, w)
      | Some attendance =>
          match students (db w) !! student_id body with
          | None => (IdentityNotFound, w)
          | Some student =>
              let isEnrolled :=
                isEnrolledIn (student_id body) (a_course_id attendance)
                             (db w) in
              if negb isEnrolled then (NotEnrolled, w)
              else
                (* the stored fingerprint is re-encoded and normalized here,
                   and not used: every sample is accepted *)
                match markStudentAttendance (attendance_id body)
                        (student_id body) (db w) with
                | Reject e => (Failure e, w)
                | Resolve db1 =>
                    (Success 200 (lit "Attendance marked successfully")
                       {| marked := true; verification_bypassed := true |},
                     confirm_by_mail net body (with_db db1 w))
                end
          end
      end.

Record AbsenceResult := {
  studentId : jsstring;
  emailed : bool
}.

Record EndView := {
  absentCount : N;
  results : list AbsenceResult
}.

(** The students with an enrolment in the course:
    [where: { courses: { some: { course_id } } }]. *)
Definition enrolledStudents (course_id : jsstring) (d : Store)
  : list (jsstring * Student) :=
  findMany (fun id _ =>
    existsb (fun r => str_eqb (sc_student_id r) id
                      && str_eqb (sc_course_id r) course_id)
            (studentCourses d))
    (students d).

(** [new Set(marked.map(m => m.student_id))] over the marks of the session. *)
Definition markedIds (id : jsstring) (d : Store) : gset jsstring :=
  list_to_set
    (map sa_student_id
       (List.filter (fun m => str_eqb (sa_attendance_id m) id)
                    (studentAttendances d))).

Definition absentStudents (id : jsstring) (attendance : Attendance)
    (d : Store) : list (jsstring * Student) :=
  List.filter (fun s => negb (bool_decide (s.1 ∈ markedIds id d)))
              (enrolledStudents (a_course_id attendance) d).

(** The loop over the absent students.  [nets k] is the network during the
    [k]-th mail.  With the course missing, reading its name throws inside
    the [try] and the [catch] records the student as not mailed. *)
Fixpoint mail_absentees (nets : nat -> Net) (k : nat)
    (attendance : Attendance) (course : option Course)
    (absent : list (jsstring * Student)) (w : World)
  : list AbsenceResult * World :=
  match absent with
  | [] => ([], w)
  | student :: rest =>
      let '(emailed, w1) :=
        match course with
        | Some c =>
            let r := sendMissedAttendanceEmail DISABLE_EMAILS (nets k)
                       (s_email student.2) (s_name student.2)
                       (c_course_name c) (c_course_code c)
                       (a_date attendance) (mailer w) in
            (r.1.1, after_mail r w)
        | None => (false, w)
        end in
      let '(results, w2) :=
        mail_absentees nets (S k) attendance course rest w1 in
      ({| studentId := student.1; emailed := emailed |} :: results, w2)
  end.

Definition endAttendance (nets : nat -> Net) (id : jsstring) (w : World)
  : Reply EndView * World :=
  if negb (nonempty id) then (BadRequest "Attendance ID is required", w)
  else
    match attendances (db w) !! id with
    | None => (SessionNotFound, w)
    | Some attendance =>
        let absent := absentStudents id attendance (db w) in
        let '(results, w1) :=
          mail_absentees nets 0 attendance
            (courses (db w) !! a_course_id attendance) absent w in
        (Success 200 (lit "End attendance processed")
           {| absentCount := N.of_nat (length absent); results := results |},
         w1)
    end.

End Controllers.

(** ** The conditions the specification names *)

(** An identity with this owner and enrolment number exists. *)
Definition enrolment_number_taken (staff_id matric_no : jsstring) (d : Store)
  : Prop :=
  ∃ id r, students d !! id = Some r
          ∧ s_staff_id r = staff_id ∧ s_matric_no r = matric_no.

(** An identity with this template digest exists, whoever owns it. *)
Definition digest_taken (digest : jsstring) (d : Store) : Prop :=
  ∃ id r, students d !! id = Some r ∧ s_fingerprint_hash r = Some digest.

(** The digest [createStudent] computes for a request. *)
Definition request_digest `{Runtime} (body : StudentCreateInput) : jsstring :=
  fingerprintHashFromBase64 (normalizeBase64 (in_fingerprint body)).

(** A Mark for the pair (session, identity) exists. *)
Definition is_marked (attendance_id student_id : jsstring) (d : Store) : Prop :=
  {| sa_student_id := student_id; sa_attendance_id := attendance_id |}
  ∈ studentAttendances d.

(** The number of Marks for the pair. *)
Definition marks_for (attendance_id student_id : jsstring) (d : Store) : nat :=
  count_occ StudentAttendance_eq_dec (studentAttendances d)
    {| sa_student_id := student_id; sa_attendance_id := attendance_id |}.

(** An Enrollment of the identity in the course exists. *)
Definition enrolled (student_id course_id : jsstring) (d : Store) : Prop :=
  {| sc_student_id := student_id; sc_course_id := course_id |}
  ∈ studentCourses d.

#[global] Instance is_marked_dec a s d : Decision (is_marked a s d).
Proof. unfold is_marked. apply _. Defined.

#[global] Instance enrolled_dec s c d : Decision (enrolled s c d).
Proof. unfold enrolled. apply _. Defined.

(** Referential integrity of the Marks: each one names a session and an
    identity that exist. *)
Definition marks_reference_rows (d : Store) : Prop :=
  ∀ m, m ∈ studentAttendances d →
       is_Some (attendances d !! sa_attendance_id m)
       ∧ is_Some (students d !! sa_student_id m).

(** The preconditions of [mark] in the order the specification lists them:
    session, identity, no Mark yet, enrolment. *)
Definition mark_first_failure (body : MarkInput) (d : Store)
  : option (Reply MarkView) :=
  match attendances d !! attendance_id body with
  | None => Some SessionNotFound
  | Some attendance =>
      match students d !! student_id body with
      | None => Some IdentityNotFound
      | Some _ =>
          if checkIfStudentIsMarked (attendance_id body) (student_id body) d
          then Some AlreadyMarked
          else if isEnrolledIn (student_id body) (a_course_id attendance) d
               then None
               else Some NotEnrolled
      end
  end.

(** The identities enrolled in a course, the identities with a Mark for a
    session, and the absentees of the specification: their difference. *)
Definition enrolled_ids (course_id : jsstring) (d : Store) : gset jsstring :=
  dom (filter (λ kr : jsstring * Student, enrolled kr.1 course_id d)
              (students d)).

Definition marked_ids (attendance_id : jsstring) (d : Store) : gset jsstring :=
  list_to_set
    (map sa_student_id
       (filter (λ m, sa_attendance_id m = attendance_id)
               (studentAttendances d))).

Definition absentees (attendance_id : jsstring) (attendance : Attendance)
    (d : Store) : gset jsstring :=
  enrolled_ids (a_course_id attendance) d ∖ marked_ids attendance_id d.

(** What is left of an identity in the store. *)
Definition identity_row (id : jsstring) (d : Store) : Prop :=
  is_Some (students d !! id).

Definition has_marks (id : jsstring) (d : Store) : Prop :=
  ∃ m, m ∈ studentAttendances d ∧ sa_student_id m = id.

Definition has_enrollments (id : jsstring) (d : Store) : Prop :=
  ∃ r, r ∈ studentCourses d ∧ sc_student_id r = id.

(** The fallback variable never holds the primary transport. *)
Definition fallback_is_fallback (m : Mailer) : Prop :=
  fallbackTransporter m ≠ Some Primary.

(** A run of the dispatcher: the calls of [sendEmail] in order, each with
    what the network does during it; for each call, what it returned and
    what it did. *)
Fixpoint sendEmails (DISABLE_EMAILS : bool) (calls : list (Net * EmailOptions))
    (m : Mailer) : list (bool * list MailEvent) * Mailer :=
  match calls with
  | [] => ([], m)
  | (net, opts) :: rest =>
      let r := sendEmail DISABLE_EMAILS net opts m in
      let rs := sendEmails DISABLE_EMAILS rest r.1.2 in
      ((r.1.1, r.2) :: rs.1, rs.2)
  end.

(** A call handed the message to the transport, and the transport took it. *)
Definition attempted_on (tx : Transport) (events : list MailEvent) : Prop :=
  ∃ opts ok, SendActive tx opts ok ∈ events ∨ SendFallback tx opts ok ∈ events.

Definition delivered_on (tx : Transport) (events : list MailEvent) : Prop :=
  ∃ opts, SendActive tx opts true ∈ events ∨ SendFallback tx opts true ∈ events.

(** The fallback attempt of a call failed: the new fallback did not verify,
    or the fallback rejected the message. *)
Definition fallback_attempt_failed (events : list MailEvent) : Prop :=
  VerifyFallback false ∈ events
  ∨ ∃ tx opts, SendFallback tx opts false ∈ events.

(** ** A small school, for evaluating the model *)

Module Scenario.

Definition online : Net :=
  {| first_send := Delivered; fallback_verify := true;
     fallback_send := Delivered |}.

Definition algorithms : Course :=
  {| c_staff_id := lit "staff-1"; c_course_name := lit "Algorithms";
     c_course_code := lit "CSC201" |}.

Definition monday : Attendance :=
  {| a_staff_id := lit "staff-1"; a_course_id := lit "course-1";
     a_name := lit "Week 1"; a_date := lit "2024-01-08"; a_created_at := 1 |}.

(** One course, one session of it, nobody registered. *)
Definition store0 : Store :=
  {| students := ∅;
     courses := {[ lit "course-1" := algorithms ]};
     attendances := {[ lit "session-1" := monday ]};
     studentCourses := [];
     studentAttendances := [] |}.

Definition world0 : World :=
  {| db := store0; mailer := initialMailer; mail_log := [] |}.

(** Ann registers without an address, her template (the bytes of "hello")
    in a data URI; Bob with the bytes of "world". *)
Definition ann : StudentCreateInput :=
  {| in_name := lit "Ann"; in_staff_id := lit "staff-1";
     in_matric_no := lit "CSC/2024/001"; in_email := None;
     in_fingerprint := Some (lit "data:image/png;base64,aGVsbG8=");
     in_courses := [lit "course-1"] |}.

Definition bob : StudentCreateInput :=
  {| in_name := lit "Bob"; in_staff_id := lit "staff-1";
     in_matric_no := lit "CSC/2024/002"; in_email := Some (lit "bob@uni.edu");
     in_fingerprint := Some (lit "d29ybGQ=");
     in_courses := [lit "course-1"] |}.

(** Someone else presenting Ann's template in base64url. *)
Definition eve : StudentCreateInput :=
  {| in_name := lit "Eve"; in_staff_id := lit "staff-2";
     in_matric_no := lit "EEE/2024/007"; in_email := None;
     in_fingerprint := Some (lit "aGVsbG8");
     in_courses := [] |}.

Definition key (id : string) (t : N) : CreateEnv :=
  {| new_id := lit id; now := t; welcome_net := online |}.

Definition world1 : World :=
  (createStudent (rt := node) false (key "student-1" 10) ann world0).2.

Definition world2 : World :=
  (createStudent (rt := node) false (key "student-2" 20) bob world1).2.

(** Ann's profile is updated with Bob's template. *)
Definition no_patch : StudentPatch :=
  {| u_staff_id := None; u_name := None; u_email := None;
     u_matric_no := None; u_fingerprint := None; u_fingerprint_hash := None;
     u_created_at := None |}.

Definition new_template : StudentUpdateInput :=
  {| up_courses := None; up_fingerprint := Some (lit "d29ybGQ=");
     up_newUpdate := no_patch |}.

(** Cat registers too; Ann is then marked present on Monday. *)
Definition cat : StudentCreateInput :=
  {| in_name := lit "Cat"; in_staff_id := lit "staff-1";
     in_matric_no := lit "CSC/2024/003"; in_email := Some (lit "cat@uni.edu");
     in_fingerprint := Some (lit "Y2F0");
     in_courses := [lit "course-1"] |}.

Definition world3 : World :=
  (createStudent (rt := node) false (key "student-3" 30) cat world2).2.

Definition ann_on_monday : MarkInput :=
  {| attendance_id := lit "session-1"; student_id := lit "student-1" |}.

Definition world4 : World :=
  (addStudentToAttendance false online ann_on_monday world3).2.

(** A Mark left behind for a session and an identity that do not exist. *)
Definition ghost_mark : MarkInput :=
  {| attendance_id := lit "session-9"; student_id := lit "student-9" |}.

Definition haunted : World :=
  {| db := with_studentAttendances
             [{| sa_student_id := lit "student-9";
                 sa_attendance_id := lit "session-9" |}] store0;
     mailer := initialMailer; mail_log := [] |}.

(** The network: a connection that times out, a server that refuses the
    recipient. *)
Definition timed_out : MailError :=
  {| code := Some (lit "ETIMEDOUT"); command := Some (lit "CONN") |}.

Definition refused : MailError :=
  {| code := Some (lit "EENVELOPE"); command := Some (lit "RCPT TO") |}.

Definition primary_down : Net :=
  {| first_send := Rejected timed_out; fallback_verify := true;
     fallback_send := Delivered |}.

Definition all_down : Net :=
  {| first_send := Rejected timed_out; fallback_verify := false;
     fallback_send := Rejected timed_out |}.

Definition recipient_refused : Net :=
  {| first_send := Rejected refused; fallback_verify := true;
     fallback_send := Delivered |}.

Definition hello : EmailOptions :=
  {| to := lit "ann@uni.edu"; subject := lit "Hello";
     html := Welcome (lit "Ann") |}.

(** At the close of Monday the first mail is refused, the others pass. *)
Definition closing_nets (k : nat) : Net :=
  match k with
  | O => recipient_refused
  | S _ => online
  end.

(** The storage fails the deletion of the identity row. *)
Definition identity_row_fails (stmt : DbStmt) : bool :=
  match stmt with
  | TxDeleteStudent => true
  | _ => false
  end.

Definition no_fault (stmt : DbStmt) : bool := false.

End Scenario.

(** * More of the code *)

(** What the two replacements make of one character. *)
Definition translate_char (x : N) : N :=
  if (x =? MINUS)%N then PLUS
  else if (x =? UNDERSCORE)%N then SLASH else x.

(** ** client/src/components/MarkAttendance.tsx *)

(** [s.startsWith(p)] and [s.includes(needle)] for any needle. *)
Fixpoint startsWith (p s : jsstring) : bool :=
  match p, s with
  | [], _ => true
  | _ :: _, [] => false
  | a :: p', b :: s' => (a =? b) && startsWith p' s'
  end.

Fixpoint includesString (needle s : jsstring) : bool :=
  startsWith needle s
  || match s with
     | [] => false
     | _ :: r => includesString needle r
     end.

(** The three prefixes [/^data:image\/(png|jpeg|jpg);base64,/] matches. *)
Definition data_image_prefixes : list jsstring :=
  [lit "data:image/png;base64,"; lit "data:image/jpeg;base64,";
   lit "data:image/jpg;base64,"].

(** [s.replace(/^data:image\/(png|jpeg|jpg);base64,/, '')]: the first of the
    prefixes the string starts with is removed. *)
Fixpoint remove_first_prefix (prefixes : list jsstring) (s : jsstring)
  : jsstring :=
  match prefixes with
  | [] => s
  | p :: rest =>
      if startsWith p s then skipn (length p) s
      else remove_first_prefix rest s
  end.

(** [cleanBase64] of [verifyFingerprint]; nothing in its [try] throws. *)
Definition cleanBase64 (base64String : jsstring) : jsstring :=
  if negb (includesString (lit "data:image") base64String)
  then trim base64String
  else
    let cleaned := remove_first_prefix data_image_prefixes base64String in
    trim cleaned.

(** ** services/student.service.ts and controllers/student.controller.ts,
       the rest *)

(** What [findStudentByFingerprintHash] selects of a row. *)
Record StudentRef := {
  ref_id : jsstring;
  ref_name : jsstring;
  ref_matric_no : jsstring
}.

Definition findStudentByFingerprintHash (fingerprintHash : jsstring)
    (d : Store) : option StudentRef :=
  match findFirst (λ _ r,
          bool_decide (s_fingerprint_hash r = Some fingerprintHash))
          (students d) with
  | Some (id, student) =>
      Some {| ref_id := id; ref_name := s_name student;
              ref_matric_no := s_matric_no student |}
  | None => None
  end.

(** What [getSingleStudent] selects of a course. *)
Record CourseRef := {
  cr_id : jsstring;
  cr_course_name : jsstring;
  cr_course_code : jsstring
}.

Record SingleStudentView := {
  sv_id : jsstring;
  sv_student : Student;
  sv_fingerprint : jsstring;
  sv_courses : list (option CourseRef)
}.

(** [getSingleStudent]: the [NotFound] it throws is caught and handed to
    [next]. *)
Definition getSingleStudent (id : jsstring) (w : World)
  : Reply SingleStudentView :=
  if negb (nonempty id) then BadRequest "Student ID is required"
  else
    match students (db w) !! id with
    | None => HttpError 404 (lit "Student not found") None
    | Some student =>
        Success 200 (lit "Student fetched successfully")
          {| sv_id := id;
             sv_student := student;
             sv_fingerprint := Base64.encode (s_fingerprint student);
             sv_courses :=
               map (λ item,
                      match courses (db w) !! sc_course_id item with
                      | Some c =>
                          Some {| cr_id := sc_course_id item;
                                  cr_course_name := c_course_name c;
                                  cr_course_code := c_course_code c |}
                      | None => None
                      end)
                   (List.filter (λ r, str_eqb (sc_student_id r) id)
                                (studentCourses (db w))) |}
    end.

(** The invariants of the identities: no two share a digest, no two share
    an owner and an enrolment number. *)
Definition digests_unique (d : Store) : Prop :=
  ∀ i j ri rj h,
    students d !! i = Some ri → students d !! j = Some rj →
    s_fingerprint_hash ri = Some h → s_fingerprint_hash rj = Some h → i = j.

Definition enrolment_numbers_unique (d : Store) : Prop :=
  ∀ i j ri rj,
    students d !! i = Some ri → students d !! j = Some rj →
    s_staff_id ri = s_staff_id rj → s_matric_no ri = s_matric_no rj → i = j.

(** The address [createStudent] gives a new identity, and the row it
    builds. *)
Definition created_email `{Runtime} (body : StudentCreateInput) : jsstring :=
  if truthy (in_email body) then default [] (in_email body)
  else toLowerCase (in_matric_no body) ++ lit "@student.edu".

Definition created_row `{Runtime} (env : CreateEnv) (body : StudentCreateInput)
  : Student :=
  {| s_staff_id := in_staff_id body;
     s_name := in_name body;
     s_email := created_email body;
     s_matric_no := in_matric_no body;
     s_fingerprint := base64_decode (normalizeBase64 (in_fingerprint body));
     s_fingerprint_hash := Some (request_digest body);
     s_created_at := now env |}.

(** The links [createStudent] asks for. *)
Definition requested_links (id : jsstring) (courses : list jsstring)
  : list StudentCourse :=
  map (λ course_id, {| sc_student_id := id; sc_course_id := course_id |})
      courses.

(** The store after [createStudent] has written the row and the links. *)
Definition created_db `{Runtime} (env : CreateEnv) (body : StudentCreateInput)
    (d : Store) : Store :=
  saveStudentCoursesToDb (requested_links (new_id env) (in_courses body))
    (with_students (<[new_id env := created_row env body]> (students d)) d).

(** ** controllers/attendance.controller.ts, what it keeps *)

(** Every Mark is for a session that exists and an identity enrolled in the
    course of that session. *)
Definition marks_enrolled (d : Store) : Prop :=
  ∀ m, m ∈ studentAttendances d →
       ∃ attendance,
         attendances d !! sa_attendance_id m = Some attendance
         ∧ enrolled (sa_student_id m) (a_course_id attendance) d.

(** The request of [createStudent] with another network at the welcome
    mail. *)
Definition with_welcome_net (net : Net) (env : CreateEnv) : CreateEnv :=
  {| new_id := new_id env; now := now env; welcome_net := net |}.

(** ** scripts/populate-fingerprint-hash.js *)

(** [data: { fingerprint_hash: hash }] *)
Definition hash_patch (hash : jsstring) : StudentPatch :=
  {| u_staff_id := None; u_name := None; u_email := None;
     u_matric_no := None; u_fingerprint := None;
     u_fingerprint_hash := Some (Some hash); u_created_at := None |}.

(** The loop of the script over the rows it read at the start.  A row whose
    digest is set is passed over; the others are updated one by one, outside
    any transaction, and the first update that rejects ends the script with
    what was written so far. *)
Fixpoint populate_rows `{Runtime} (students : list (jsstring * Student))
    (updated : N) (d : Store) : Result N * Store :=
  match students with
  | [] => (Resolve updated, d)
  | s :: rest =>
      if truthy (s_fingerprint_hash s.2) then populate_rows rest updated d
      else
        let hash := sha256_hex (s_fingerprint s.2) in
        match updateStudentInDb s.1 (hash_patch hash) d with
        | Resolve (_, d') => populate_rows rest (updated + 1) d'
        | Reject e => (Reject e, d)
        end
  end.

(** The rows are those with a template; a row of the model always has
    one. *)
Definition populateFingerprintHash `{Runtime} (d : Store) : Result N * Store :=
  populate_rows (findMany (λ _ _, true) (students d)) 0 d.

(** A row as the script leaves it. *)
Definition populated_row `{Runtime} (r : Student) : Student :=
  if truthy (s_fingerprint_hash r) then r
  else apply_patch (hash_patch (sha256_hex (s_fingerprint r))) r.

(** Two rows of which the first has no digest and the second holds, or
    would be given, the digest of the template of the first. *)
Definition digest_collision `{Runtime} (d : Store) : Prop :=
  ∃ id id' r r',
    id ≠ id' ∧ students d !! id = Some r ∧ students d !! id' = Some r'
    ∧ truthy (s_fingerprint_hash r) = false
    ∧ (s_fingerprint_hash r' = Some (sha256_hex (s_fingerprint r))
       ∨ s_fingerprint_hash (populated_row r')
         = Some (sha256_hex (s_fingerprint r))).

(** ** More on the mail service *)

(** The kinds of event of a call. *)
Definition is_send (e : MailEvent) : bool :=
  match e with
  | SendActive _ _ _ | SendFallback _ _ _ => true
  | _ => false
  end.

Definition is_verify (e : MailEvent) : bool :=
  match e with
  | VerifyFallback _ => true
  | _ => false
  end.

(** A call touched the fallback: it had one verified or handed it the
    message. *)
Definition touches_fallback (events : list MailEvent) : Prop :=
  (∃ ok, VerifyFallback ok ∈ events)
  ∨ (∃ tx opts ok, SendFallback tx opts ok ∈ events).

(** ** More of the school *)

Module Cases.

Import Scenario.

(** The fallback verifies and then rejects the message. *)
Definition fallback_rejects : Net :=
  {| first_send := Rejected timed_out; fallback_verify := true;
     fallback_send := Rejected timed_out |}.

(** Ann's courses are replaced by one course. *)
Definition new_courses : StudentUpdateInput :=
  {| up_courses := Some [lit "course-2"]; up_fingerprint := None;
     up_newUpdate := no_patch |}.

(** Two rows from before the digest column, with different templates; and
    the same two with one template. *)
Definition legacy_row (name : string) (template : string) : Student :=
  {| s_staff_id := lit "staff-1"; s_name := lit name;
     s_email := lit "old@uni.edu"; s_matric_no := lit name;
     s_fingerprint := list_byte_of_string template;
     s_fingerprint_hash := None; s_created_at := 1 |}.

Definition legacy : Store :=
  with_students {[ lit "student-7" := legacy_row "Dan" "left";
                   lit "student-8" := legacy_row "Eli" "right" ]} store0.

Definition twins : Store :=
  with_students {[ lit "student-7" := legacy_row "Dan" "same";
                   lit "student-8" := legacy_row "Eli" "same" ]} store0.

End Cases.

(** * Properties *)

(** ** The reference runtime on known values *)

Section ReferenceRuntime.

(** The digests of the empty message and of "abc" (FIPS 180-4, B.1). *)
Lemma sha256_known_answers :
  sha256_hex (Runtime := node) []
  = lit "e3b0c44298fc1c149afbf4c8996fb92427ae41e4649b934ca495991b7852b855"
  ∧ sha256_hex (Runtime := node) (list_byte_of_string "abc")
    = lit "ba7816bf8f01cfea414140de5dae2223b00361a396177a9cb410ff61f20015ad".
Proof. split; vm_compute; reflexivity. Qed.

Lemma sha256_first_constants :
  firstn 2 SHA256.K = [0x428a2f98; 0x71374491]
  ∧ firstn 2 SHA256.H0 = [0x6a09e667; 0xbb67ae85]
  ∧ length SHA256.K = 64%nat.
Proof. repeat split; vm_compute; reflexivity. Qed.

Lemma base64_known_answers :
  Base64.encode (list_byte_of_string "hello") = lit "aGVsbG8="
  ∧ Base64.encode_url [Byte.xfb; Byte.xff] = lit "-_8"
  ∧ base64_decode (Runtime := node) (lit "aGVsbG8=")
    = list_byte_of_string "hello"
  ∧ base64_decode (Runtime := node) (lit "-_8") = [Byte.xfb; Byte.xff].
Proof. repeat split; vm_compute; reflexivity. Qed.

Lemma normalizeBase64_known_answers :
  normalizeBase64 (Some (lit " data:image/png;base64,ab-_ c d ")) = lit "ab+/cd=="
  ∧ normalizeBase64 (Some (lit "aGVsbG8")) = lit "aGVsbG8="
  ∧ normalizeBase64 None = [].
Proof. repeat split; vm_compute; reflexivity. Qed.

End ReferenceRuntime.

(** ** Strings *)

Section StringFacts.

Local Open Scope nat_scope.
Local Ltac Zify.zify_post_hook ::= Z.to_euclidean_division_equations.

Lemma includes_cons c x r :
  includes c (x :: r) = (x =? c)%N || includes c r.
Proof. unfold includes. simpl. by rewrite (N.eqb_sym c x). Qed.

Lemma split_nonempty sep s : split sep s ≠ [].
Proof.
  destruct s as [|c r]; simpl; [done|].
  destruct (c =? sep)%N; [done|]. by destruct (split sep r).
Qed.

Lemma split_head_tail sep s :
  ∃ hd tl, split sep s = hd :: tl.
Proof.
  destruct (split sep s) as [|hd tl] eqn:E; [|by eauto].
  by destruct (split_nonempty sep s).
Qed.

(** The first two segments of a split, by what lies around the first
    separator. *)
Lemma split_before_after sep s :
  ∃ tl, split sep s = before_first sep s :: tl
        ∧ (includes sep s = true → split sep (after_first sep s) = tl)
        ∧ (includes sep s = false → tl = []).
Proof.
  induction s as [|c r IH]; simpl.
  - exists []. done.
  - destruct IH as (tl & E & Hin & Hnot).
    rewrite (N.eqb_sym sep c).
    destruct (c =? sep)%N eqn:Ec; simpl.
    + exists (split sep r). done.
    + rewrite E. exists tl. done.
Qed.

Lemma split_1_spec s :
  split_1 s = before_first COMMA (after_first COMMA s).
Proof.
  unfold split_1.
  destruct (split_before_after COMMA s) as (tl & E & Hin & Hnot).
  rewrite E. simpl.
  destruct (includes COMMA s) eqn:Ei.
  - rewrite <- (Hin eq_refl).
    destruct (split_before_after COMMA (after_first COMMA s)) as (tl' & E' & _).
    by rewrite E'.
  - rewrite (Hnot eq_refl). simpl.
    clear -Ei. induction s as [|c r IH]; [done|].
    rewrite includes_cons in Ei. simpl.
    destruct (c =? COMMA)%N; [done|]. by apply IH.
Qed.

Lemma includes_false_Forall c s :
  includes c s = false ↔ Forall (λ x, x ≠ c) s.
Proof.
  induction s as [|x r IH].
  - split; [constructor|done].
  - rewrite includes_cons, orb_false_iff, IH, Forall_cons, N.eqb_neq. tauto.
Qed.

Lemma before_first_free c s : Forall (λ x, x ≠ c) (before_first c s).
Proof.
  induction s as [|x r IH]; simpl; [constructor|].
  destruct (x =? c)%N eqn:E; [constructor|].
  constructor; [by apply N.eqb_neq|done].
Qed.

Lemma before_first_id c s : Forall (λ x, x ≠ c) s → before_first c s = s.
Proof.
  induction 1 as [|x r Hx _ IH]; simpl; [done|].
  apply N.eqb_neq in Hx. by rewrite Hx, IH.
Qed.

Lemma after_first_app_free c p s :
  Forall (λ x, x ≠ c) p → after_first c (p ++ s) = after_first c s.
Proof.
  induction 1 as [|x r Hx _ IH]; simpl; [done|].
  apply N.eqb_neq in Hx. by rewrite Hx.
Qed.

Lemma after_first_app c s q :
  includes c s = true → after_first c (s ++ q) = after_first c s ++ q.
Proof.
  unfold includes. induction s as [|x r IH]; simpl; [done|].
  rewrite (N.eqb_sym c x). destruct (x =? c)%N; simpl; [done|]. apply IH.
Qed.

Lemma before_first_app c s q :
  includes c s = true → before_first c (s ++ q) = before_first c s.
Proof.
  unfold includes. induction s as [|x r IH]; simpl; [done|].
  rewrite (N.eqb_sym c x). destruct (x =? c)%N; simpl; [done|].
  intros H. by rewrite IH.
Qed.

(** White space at the two ends. *)
Lemma trimStart_spec s :
  ∃ p, s = p ++ trimStart s ∧ Forall (λ x, isWhiteSpace x = true) p.
Proof.
  induction s as [|c r (p & E & Hp)]; simpl.
  - by exists [].
  - destruct (isWhiteSpace c) eqn:Ec.
    + exists (c :: p). split; [by rewrite E at 1|by constructor].
    + by exists [].
Qed.

Lemma trimEnd_spec s :
  ∃ q, s = trimEnd s ++ q ∧ Forall (λ x, isWhiteSpace x = true) q.
Proof.
  unfold trimEnd.
  destruct (trimStart_spec (rev s)) as (p & E & Hp).
  exists (rev p). split.
  - rewrite <- rev_app_distr, <- E. by rewrite rev_involutive.
  - by apply Forall_rev.
Qed.

Lemma trim_spec s :
  ∃ p q, s = p ++ trim s ++ q
         ∧ Forall (λ x, isWhiteSpace x = true) p
         ∧ Forall (λ x, isWhiteSpace x = true) q.
Proof.
  unfold trim.
  destruct (trimStart_spec s) as (p & E & Hp).
  destruct (trimEnd_spec (trimStart s)) as (q & E' & Hq).
  exists p, q. by rewrite <- E'.
Qed.

Lemma trimStart_id c r : isWhiteSpace c = false → trimStart (c :: r) = c :: r.
Proof. simpl. by intros ->. Qed.

Lemma trim_id s :
  Forall (λ x, isWhiteSpace x = false) s → trim s = s.
Proof.
  intros H. unfold trim, trimEnd.
  assert (Hs : ∀ t, Forall (λ x, isWhiteSpace x = false) t → trimStart t = t).
  { intros [|c r] Ht; [done|]. apply trimStart_id. by inversion Ht. }
  rewrite (Hs s H), Hs; [apply rev_involutive|by apply Forall_rev].
Qed.

Lemma stripWhiteSpace_app s t :
  stripWhiteSpace (s ++ t) = stripWhiteSpace s ++ stripWhiteSpace t.
Proof. apply List.filter_app. Qed.

Lemma stripWhiteSpace_white s :
  Forall (λ x, isWhiteSpace x = true) s → stripWhiteSpace s = [].
Proof.
  induction 1 as [|x r Hx _ IH]; simpl; [done|]. by rewrite Hx.
Qed.

Lemma stripWhiteSpace_id s :
  Forall (λ x, isWhiteSpace x = false) s → stripWhiteSpace s = s.
Proof.
  induction 1 as [|x r Hx _ IH]; [done|].
  unfold stripWhiteSpace in *. simpl. rewrite Hx. simpl. by f_equal.
Qed.

Lemma stripWhiteSpace_clean s :
  Forall (λ x, isWhiteSpace x = false) (stripWhiteSpace s).
Proof.
  induction s as [|x r IH]; simpl; [constructor|].
  destruct (isWhiteSpace x) eqn:E; simpl; [done|by constructor].
Qed.

Lemma stripWhiteSpace_trim s : stripWhiteSpace (trim s) = stripWhiteSpace s.
Proof.
  destruct (trim_spec s) as (p & q & E & Hp & Hq).
  rewrite E at 2. rewrite !stripWhiteSpace_app.
  rewrite (stripWhiteSpace_white p Hp), (stripWhiteSpace_white q Hq).
  by rewrite app_nil_r.
Qed.

Lemma white_not_comma p :
  Forall (λ x, isWhiteSpace x = true) p → Forall (λ x, x ≠ COMMA) p.
Proof. intros H. eapply Forall_impl; [exact H|]. by intros x Hx ->. Qed.

Lemma includes_app c s t : includes c (s ++ t) = includes c s || includes c t.
Proof. unfold includes. apply existsb_app. Qed.

Lemma includes_free c s : Forall (λ x, x ≠ c) s → includes c s = false.
Proof. apply includes_false_Forall. Qed.

Lemma includes_trim s : includes COMMA (trim s) = includes COMMA s.
Proof.
  destruct (trim_spec s) as (p & q & E & Hp & Hq).
  rewrite E at 2. rewrite !includes_app.
  rewrite (includes_free _ p (white_not_comma p Hp)).
  rewrite (includes_free _ q (white_not_comma q Hq)).
  by rewrite orb_false_r.
Qed.

(** Replacing a character that is not white space by another one commutes
    with the removal of white space. *)
Lemma stripWhiteSpace_replaceAll c d s :
  isWhiteSpace c = false → isWhiteSpace d = false →
  stripWhiteSpace (replaceAll c d s) = replaceAll c d (stripWhiteSpace s).
Proof.
  intros Hc Hd. induction s as [|x r IH]; [done|].
  unfold stripWhiteSpace, replaceAll in *. simpl.
  destruct (x =? c)%N eqn:E.
  - apply N.eqb_eq in E. subst x. rewrite Hc, Hd. simpl.
    rewrite N.eqb_refl. by f_equal.
  - destruct (isWhiteSpace x); simpl; [done|]. rewrite E. by f_equal.
Qed.

Lemma canonical_body_strip s :
  canonical_body s
  = replaceAll UNDERSCORE SLASH (replaceAll MINUS PLUS (stripWhiteSpace s)).
Proof.
  unfold canonical_body.
  by rewrite !stripWhiteSpace_replaceAll.
Qed.

Lemma canonical_body_same_strip s t :
  stripWhiteSpace s = stripWhiteSpace t → canonical_body s = canonical_body t.
Proof. intros H. by rewrite !canonical_body_strip, H. Qed.

Lemma canonical_body_trim s : canonical_body (trim s) = canonical_body s.
Proof. apply canonical_body_same_strip, stripWhiteSpace_trim. Qed.

Lemma normalizeBase64_unfold s :
  nonempty s = true →
  normalizeBase64 (Some s)
  = pad_loop 3 (canonical_body
      (if includes COMMA (trim s) then split_1 (trim s) else trim s)).
Proof. intros H. unfold normalizeBase64. simpl. by rewrite H. Qed.

Lemma normalizeBase64_empty : normalizeBase64 (Some []) = [].
Proof. done. Qed.

(** The padding loop stops within three rounds, on a length that is a
    multiple of four. *)
Lemma pad_loop_spec s :
  ∃ k, k < 4 ∧ pad_loop 3 s = s ++ repeat EQUALS k
       ∧ (length s + k) mod 4 = 0.
Proof.
  assert (Hmod : ∀ t : jsstring,
    (N.of_nat (length t) mod 4 =? 0)%N = bool_decide (length t mod 4 = 0)).
  { intros t. change 4%N with (N.of_nat 4). rewrite <- Nat2N.inj_mod.
    case_bool_decide as Ht.
    - rewrite Ht. done.
    - apply N.eqb_neq. lia. }
  unfold pad_loop. rewrite !Hmod, !length_app. simpl length.
  repeat case_bool_decide.
  - exists 0. rewrite app_nil_r. repeat split; [lia|lia].
  - exists 1. repeat split; [lia|lia].
  - exists 2. rewrite <- !app_assoc. repeat split; [lia|lia].
  - exists 3. rewrite <- !app_assoc. repeat split; [lia|lia].
Qed.

Lemma pad_loop_id s : length s mod 4 = 0 → pad_loop 3 s = s.
Proof.
  intros H. simpl.
  replace (N.of_nat (length s) mod 4 =? 0)%N with true; [done|].
  symmetry. apply N.eqb_eq. change 4%N with (N.of_nat 4).
  rewrite <- Nat2N.inj_mod, H. done.
Qed.

(** What [normalizeBase64] keeps of the trimmed input. *)
Lemma segment_free str :
  Forall (λ x, x ≠ COMMA)
         (if includes COMMA str then split_1 str else str).
Proof.
  destruct (includes COMMA str) eqn:E.
  - rewrite split_1_spec. apply before_first_free.
  - by apply includes_false_Forall.
Qed.

Lemma replaceAll_gone c d s : d ≠ c → Forall (λ x, x ≠ c) (replaceAll c d s).
Proof.
  intros Hd. unfold replaceAll. apply Forall_forall. intros y Hy.
  apply list_elem_of_In, in_map_iff in Hy. destruct Hy as (x & <- & _).
  destruct (x =? c)%N eqn:E; [done|]. by apply N.eqb_neq.
Qed.

Lemma replaceAll_keeps c d e s :
  d ≠ e → Forall (λ x, x ≠ e) s → Forall (λ x, x ≠ e) (replaceAll c d s).
Proof.
  intros Hd. unfold replaceAll. induction 1 as [|x r Hx _ IH]; simpl.
  - constructor.
  - constructor; [|done]. by destruct (x =? c)%N.
Qed.

Lemma replaceAll_id c d s : Forall (λ x, x ≠ c) s → replaceAll c d s = s.
Proof.
  unfold replaceAll. induction 1 as [|x r Hx _ IH]; simpl; [done|].
  apply N.eqb_neq in Hx. by rewrite Hx, IH.
Qed.

Lemma stripWhiteSpace_keeps (P : N → Prop) s :
  Forall P s → Forall P (stripWhiteSpace s).
Proof.
  unfold stripWhiteSpace. induction 1 as [|x r Hx _ IH]; simpl.
  - constructor.
  - destruct (isWhiteSpace x); simpl; [done|by constructor].
Qed.

Lemma canonical_body_chars s :
  Forall (λ x, x ≠ COMMA) s → Forall canonical_char (canonical_body s).
Proof.
  intros Hs. unfold canonical_body, canonical_char.
  apply Forall_and; split; [|apply Forall_and; split; [|apply Forall_and; split]].
  - apply stripWhiteSpace_clean.
  - apply stripWhiteSpace_keeps. by repeat apply replaceAll_keeps.
  - apply stripWhiteSpace_keeps. apply replaceAll_keeps; [done|].
    by apply replaceAll_gone.
  - apply stripWhiteSpace_keeps. by apply replaceAll_gone.
Qed.

Lemma normalizeBase64_chars x : Forall canonical_char (normalizeBase64 x).
Proof.
  destruct x as [s|]; [|constructor].
  destruct (nonempty s) eqn:Hs.
  - rewrite (normalizeBase64_unfold s Hs).
    destruct (pad_loop_spec (canonical_body
      (if includes COMMA (trim s) then split_1 (trim s) else trim s)))
      as (k & _ & -> & _).
    apply Forall_app. split.
    + apply canonical_body_chars, segment_free.
    + apply Forall_forall. intros y Hy.
      apply list_elem_of_In, repeat_spec in Hy. by subst y.
  - destruct s; [constructor|done].
Qed.

Lemma normalizeBase64_length x : length (normalizeBase64 x) mod 4 = 0.
Proof.
  destruct x as [s|]; [|done].
  destruct (nonempty s) eqn:Hs.
  - rewrite (normalizeBase64_unfold s Hs).
    destruct (pad_loop_spec (canonical_body
      (if includes COMMA (trim s) then split_1 (trim s) else trim s)))
      as (k & _ & -> & Hk).
    by rewrite length_app, repeat_length.
  - by destruct s.
Qed.

(** On a canonical string the function changes nothing. *)
Lemma normalizeBase64_fixed y :
  Forall canonical_char y → length y mod 4 = 0 →
  normalizeBase64 (Some y) = y.
Proof.
  intros Hy Hlen.
  destruct (nonempty y) eqn:Hne; [|by destruct y].
  rewrite (normalizeBase64_unfold y Hne).
  assert (Hws : Forall (λ x, isWhiteSpace x = false) y).
  { eapply Forall_impl; [exact Hy|]. by intros x (? & _). }
  assert (Hc : Forall (λ x, x ≠ COMMA) y).
  { eapply Forall_impl; [exact Hy|]. by intros x (_ & ? & _). }
  assert (Hm : Forall (λ x, x ≠ MINUS) y).
  { eapply Forall_impl; [exact Hy|]. by intros x (_ & _ & ? & _). }
  assert (Hu : Forall (λ x, x ≠ UNDERSCORE) y).
  { eapply Forall_impl; [exact Hy|]. by intros x (_ & _ & _ & ?). }
  rewrite (trim_id y Hws), (includes_free _ y Hc).
  unfold canonical_body.
  rewrite (replaceAll_id MINUS PLUS y Hm), (replaceAll_id UNDERSCORE SLASH y Hu).
  rewrite (stripWhiteSpace_id y Hws).
  by apply pad_loop_id.
Qed.

(** The segment after the first comma is the same, up to white space,
    whether the input is trimmed first or not. *)
Lemma segment_trim s :
  includes COMMA s = true →
  stripWhiteSpace (split_1 (trim s)) = stripWhiteSpace (split_1 s).
Proof.
  intros Hin. rewrite !split_1_spec.
  destruct (trim_spec s) as (p & q & E & Hp & Hq).
  assert (Ht : includes COMMA (trim s) = true) by by rewrite includes_trim.
  rewrite E at 2.
  rewrite (after_first_app_free _ p _ (white_not_comma p Hp)).
  rewrite (after_first_app _ _ q Ht).
  destruct (includes COMMA (after_first COMMA (trim s))) eqn:E2.
  - by rewrite (before_first_app _ _ q E2).
  - apply includes_false_Forall in E2.
    rewrite (before_first_id _ _ E2).
    rewrite before_first_id.
    + by rewrite stripWhiteSpace_app, (stripWhiteSpace_white q Hq), app_nil_r.
    + apply Forall_app. split; [done|by apply white_not_comma].
Qed.

Lemma normalizeBase64_of_free s :
  Forall (λ x, x ≠ COMMA) s →
  normalizeBase64 (Some s) = pad_loop 3 (canonical_body s).
Proof.
  intros Hs. destruct (nonempty s) eqn:Hne; [|by destruct s].
  rewrite (normalizeBase64_unfold s Hne), includes_trim.
  by rewrite (includes_free _ s Hs), canonical_body_trim.
Qed.

Lemma normalizeBase64_segment s :
  includes COMMA s = true →
  normalizeBase64 (Some s)
  = normalizeBase64 (Some (before_first COMMA (after_first COMMA s))).
Proof.
  intros Hin.
  assert (Hne : nonempty s = true) by by destruct s.
  rewrite (normalizeBase64_unfold s Hne), includes_trim, Hin.
  rewrite (normalizeBase64_of_free _ (before_first_free _ _)).
  f_equal. apply canonical_body_same_strip.
  rewrite <- split_1_spec. by apply segment_trim.
Qed.

End StringFacts.

(** ** Base64 encodings of the same bytes *)

Section EncodingFacts.

Local Open Scope nat_scope.
Local Ltac Zify.zify_post_hook ::= Z.to_euclidean_division_equations.

(** Induction on a byte string three bytes at a time, as the encoder
    consumes it. *)
Lemma bytes_ind3 (P : list byte → Prop) :
  P [] → (∀ a, P [a]) → (∀ a b, P [a; b]) →
  (∀ a b c r, P r → P (a :: b :: c :: r)) →
  ∀ bs, P bs.
Proof.
  intros H0 H1 H2 H3.
  assert (Hall : ∀ n bs, length bs ≤ n → P bs).
  { induction n as [|n IH]; intros bs Hlen.
    - destruct bs; [done|simpl in Hlen; lia].
    - destruct bs as [|a [|b [|c r]]]; [done..|].
      apply H3, IH. simpl in Hlen. lia. }
  intros bs. by apply (Hall (length bs)).
Qed.

Lemma isWhiteSpace_printable x :
  (33 ≤ x < 160)%N → isWhiteSpace x = false.
Proof.
  intros Hx. unfold isWhiteSpace.
  rewrite !orb_false_iff, !andb_false_iff, !N.eqb_neq, !N.leb_gt. lia.
Qed.

Lemma alphabet_range url v :
  let x := Base64.alphabet url v in
  (48 ≤ x ≤ 57 ∨ 65 ≤ x ≤ 90 ∨ 97 ≤ x ≤ 122)%N
  ∨ (if url then x = MINUS ∨ x = UNDERSCORE else x = PLUS ∨ x = SLASH).
Proof.
  unfold Base64.alphabet. simpl.
  destruct (N.ltb_spec v 26); [left; lia|].
  destruct (N.ltb_spec v 52); [left; lia|].
  destruct (N.ltb_spec v 62); [left; lia|].
  right. destruct (v =? 62)%N, url; auto.
Qed.

Lemma alphabet_char url v : base64_char url (Base64.alphabet url v).
Proof.
  pose proof (alphabet_range url v) as H. simpl in H.
  unfold base64_char, COMMA, EQUALS, MINUS, UNDERSCORE, PLUS, SLASH in *.
  split; [apply isWhiteSpace_printable|]; destruct url; lia.
Qed.

Lemma alphabet_translate v :
  replaceAll UNDERSCORE SLASH (replaceAll MINUS PLUS [Base64.alphabet true v])
  = [Base64.alphabet false v].
Proof.
  unfold replaceAll, Base64.alphabet. cbn [map].
  assert (Hne : ∀ x y : N, x ≠ y → (x =? y)%N = false)
    by (intros; by apply N.eqb_neq).
  destruct (N.ltb_spec v 26); [|destruct (N.ltb_spec v 52);
    [|destruct (N.ltb_spec v 62); [|by destruct (v =? 62)%N]]];
  unfold MINUS, UNDERSCORE;
  repeat match goal with
         | |- context [(?a + ?b =? ?c)%N] =>
             rewrite (Hne (a + b)%N c) by lia; cbv iota
         end; done.
Qed.

Lemma translate_cons_alphabet v s :
  translate (Base64.alphabet true v :: s)
  = Base64.alphabet false v :: translate s.
Proof.
  pose proof (alphabet_translate v) as H.
  unfold translate, replaceAll in *. simpl in *. by inversion H.
Qed.

Lemma translate_equals s : translate (EQUALS :: s) = EQUALS :: translate s.
Proof. done. Qed.

Lemma translate_encode pad bs :
  translate (Base64.encode_with true pad bs) = Base64.encode_with false pad bs.
Proof.
  induction bs as [|a|a b|a b c r IH] using bytes_ind3.
  - done.
  - cbn [Base64.encode_with app]. rewrite !translate_cons_alphabet.
    by destruct pad.
  - cbn [Base64.encode_with app]. rewrite !translate_cons_alphabet.
    by destruct pad.
  - cbn [Base64.encode_with]. rewrite !translate_cons_alphabet. by rewrite IH.
Qed.

Lemma encode_chars url pad bs :
  Forall (λ x, base64_char url x ∨ x = EQUALS) (Base64.encode_with url pad bs).
Proof.
  induction bs as [|a|a b|a b c r IH] using bytes_ind3;
    cbn [Base64.encode_with app].
  - constructor.
  - repeat (constructor; [left; apply alphabet_char|]).
    destruct pad; repeat constructor; by right.
  - repeat (constructor; [left; apply alphabet_char|]).
    destruct pad; repeat constructor; by right.
  - repeat (constructor; [left; apply alphabet_char|]). done.
Qed.

Lemma encode_canonical_chars pad bs :
  Forall canonical_char (Base64.encode_with false pad bs).
Proof.
  eapply Forall_impl; [apply (encode_chars false pad bs)|].
  intros x [(Hw & Hc & _ & Hu)| ->]; [|done].
  destruct (Hu eq_refl). done.
Qed.

Lemma encode_free url pad bs :
  Forall (λ x, x ≠ COMMA) (Base64.encode_with url pad bs).
Proof.
  eapply Forall_impl; [apply (encode_chars url pad bs)|].
  by intros x [(_ & Hc & _)| ->].
Qed.

Lemma encode_clean url pad bs :
  Forall (λ x, isWhiteSpace x = false) (Base64.encode_with url pad bs).
Proof.
  eapply Forall_impl; [apply (encode_chars url pad bs)|].
  by intros x [(Hw & _)| ->].
Qed.

(** The padded encoding is the unpadded one followed by the ['='] that bring
    its length to a multiple of four. *)
Lemma encode_padding url bs :
  ∃ j, j < 4
       ∧ Base64.encode_with url true bs
         = Base64.encode_with url false bs ++ repeat EQUALS j
       ∧ (length (Base64.encode_with url false bs) + j) mod 4 = 0.
Proof.
  induction bs as [|a|a b|a b c r (j & Hj & E & Hlen)] using bytes_ind3.
  - exists 0. split; [lia|]. split; reflexivity.
  - exists 2. split; [lia|]. split; reflexivity.
  - exists 1. split; [lia|]. split; reflexivity.
  - exists j. split; [done|]. cbn [Base64.encode_with]. rewrite E.
    split; [done|]. simpl length. lia.
Qed.

Lemma pad_loop_encode bs :
  pad_loop 3 (Base64.encode_with false false bs)
  = Base64.encode_with false true bs.
Proof.
  destruct (encode_padding false bs) as (j & Hj & -> & Hlen).
  destruct (pad_loop_spec (Base64.encode_with false false bs))
    as (k & Hk & -> & Hlen').
  f_equal. f_equal. lia.
Qed.

Lemma canonical_body_encode pad bs :
  canonical_body (Base64.encode_with true pad bs)
  = Base64.encode_with false pad bs.
Proof.
  unfold canonical_body. fold (translate (Base64.encode_with true pad bs)).
  rewrite translate_encode. apply stripWhiteSpace_id, encode_clean.
Qed.

(** The three presentations of the same bytes have one normal form, the
    padded encoding in the standard alphabet. *)
Lemma normalizeBase64_encode bs :
  normalizeBase64 (Some (Base64.encode bs)) = Base64.encode bs.
Proof.
  apply normalizeBase64_fixed; [apply encode_canonical_chars|].
  destruct (encode_padding false bs) as (j & _ & E & Hlen).
  unfold Base64.encode. by rewrite E, length_app, repeat_length.
Qed.

Lemma normalizeBase64_encode_url bs :
  normalizeBase64 (Some (Base64.encode_url bs)) = Base64.encode bs.
Proof.
  unfold Base64.encode_url, Base64.encode.
  rewrite (normalizeBase64_of_free _ (encode_free true false bs)).
  rewrite canonical_body_encode.
  apply pad_loop_encode.
Qed.

Lemma normalizeBase64_encode_url_padded bs :
  normalizeBase64 (Some (Base64.encode_url_padded bs)) = Base64.encode bs.
Proof.
  unfold Base64.encode_url_padded, Base64.encode.
  rewrite (normalizeBase64_of_free _ (encode_free true true bs)).
  rewrite canonical_body_encode.
  apply pad_loop_id.
  destruct (encode_padding false bs) as (j & _ & E & Hlen).
  by rewrite E, length_app, repeat_length.
Qed.

Lemma normalizeBase64_data_uri prefix payload :
  Forall (λ x, x ≠ COMMA) prefix → Forall (λ x, x ≠ COMMA) payload →
  normalizeBase64 (Some (prefix ++ COMMA :: payload))
  = normalizeBase64 (Some payload).
Proof.
  intros Hp Hs.
  rewrite normalizeBase64_segment.
  - rewrite (after_first_app_free _ prefix _ Hp). simpl.
    by rewrite (before_first_id _ _ Hs).
  - rewrite includes_app, includes_cons, N.eqb_refl. simpl. apply orb_true_r.
Qed.

End EncodingFacts.

(** ** The canonicalizer and the hasher *)

Section Canonicalizer.

Local Open Scope nat_scope.

Lemma normalizeBase64_closed_form s :
  ∃ k, k < 4
       ∧ normalizeBase64 (Some s)
         = canonical_body
             (if includes COMMA s
              then before_first COMMA (after_first COMMA s) else s)
           ++ repeat EQUALS k.
Proof.
  destruct (nonempty s) eqn:Hne.
  - rewrite (normalizeBase64_unfold s Hne), includes_trim.
    destruct (pad_loop_spec (canonical_body
      (if includes COMMA s then split_1 (trim s) else trim s)))
      as (k & Hk & -> & _).
    exists k. split; [done|]. f_equal.
    destruct (includes COMMA s) eqn:Hin.
    + apply canonical_body_same_strip.
      rewrite <- split_1_spec. by apply segment_trim.
    + apply canonical_body_trim.
  - destruct s; [|done]. exists 0. split; [lia|reflexivity].
Qed.

(** C8, as amended.  [normalizeBase64] returns the empty string for a
    missing or empty input.  When the input contains a comma, the result is
    the normalization of the text between the first comma and the next one
    (or the end of the input); it is the normalization of the whole
    remainder after the first comma when that remainder has no further
    comma.  Every result has a length that is a multiple of four, and is the
    translated, white-space-free text followed by at most three ['=']. *)
Theorem normalizeBase64_contract (s : jsstring) :
  normalizeBase64 None = [] ∧ normalizeBase64 (Some []) = []
  ∧ (includes COMMA s = true →
     normalizeBase64 (Some s)
     = normalizeBase64 (Some (before_first COMMA (after_first COMMA s))))
  ∧ (includes COMMA s = true →
     includes COMMA (after_first COMMA s) = false →
     normalizeBase64 (Some s) = normalizeBase64 (Some (after_first COMMA s)))
  ∧ length (normalizeBase64 (Some s)) mod 4 = 0
  ∧ ∃ k, k < 4
         ∧ normalizeBase64 (Some s)
           = canonical_body
               (if includes COMMA s
                then before_first COMMA (after_first COMMA s) else s)
             ++ repeat EQUALS k.
Proof.
  split; [done|]. split; [done|].
  split; [apply normalizeBase64_segment|].
  split.
  - intros Hin Hrest. rewrite (normalizeBase64_segment s Hin).
    apply includes_false_Forall in Hrest.
    by rewrite (before_first_id _ _ Hrest).
  - split; [apply normalizeBase64_length|apply normalizeBase64_closed_form].
Qed.

Lemma normalizeBase64_contract_witness :
  includes COMMA (lit "data:image/png;base64,ab-_ c") = true
  ∧ includes COMMA (after_first COMMA (lit "data:image/png;base64,ab-_ c"))
    = false
  ∧ normalizeBase64 (Some (lit "data:image/png;base64,ab-_ c"))
    = normalizeBase64
        (Some (after_first COMMA (lit "data:image/png;base64,ab-_ c"))).
Proof.
  split; [reflexivity|]. split; [reflexivity|].
  exact (proj1 (proj2 (proj2 (proj2
           (normalizeBase64_contract (lit "data:image/png;base64,ab-_ c")))))
         eq_refl eq_refl).
Defined.

(** C8, as stated, fails on an input with two commas: what follows the
    second comma is dropped, so the result is neither the normalization of
    the remainder after the first comma nor that remainder translated and
    padded. *)
Lemma normalizeBase64_second_comma :
  includes COMMA (lit "a,b,c") = true
  ∧ after_first COMMA (lit "a,b,c") = lit "b,c"
  ∧ normalizeBase64 (Some (lit "a,b,c")) = lit "b==="
  ∧ normalizeBase64 (Some (lit "b,c")) = lit "c==="
  ∧ pad_loop 3 (canonical_body (lit "b,c")) = lit "b,c="
  ∧ normalizeBase64 (Some (lit "a,b,c"))
    ≠ normalizeBase64 (Some (after_first COMMA (lit "a,b,c"))).
Proof. repeat split; try reflexivity. vm_compute. discriminate. Qed.

(** C9.  [normalizeBase64] is idempotent: applied to its own result it
    returns that result. *)
Theorem normalizeBase64_idempotent (x : option jsstring) :
  normalizeBase64 (Some (normalizeBase64 x)) = normalizeBase64 x.
Proof.
  apply normalizeBase64_fixed.
  - apply normalizeBase64_chars.
  - apply normalizeBase64_length.
Qed.

(** C7.  The digest of the normalized input is the same whether the bytes
    are presented in plain base64, in base64url (with or without padding),
    or in base64 behind a data-URI prefix, the prefix being what precedes
    the first comma. *)
Theorem digest_of_every_encoding `{Runtime} (bs : list byte)
    (prefix : jsstring) :
  Forall (λ x, x ≠ COMMA) prefix →
  let digest s := fingerprintHashFromBase64 (normalizeBase64 (Some s)) in
  digest (Base64.encode_url bs) = digest (Base64.encode bs)
  ∧ digest (Base64.encode_url_padded bs) = digest (Base64.encode bs)
  ∧ digest (prefix ++ COMMA :: Base64.encode bs) = digest (Base64.encode bs)
  ∧ digest (Base64.encode bs)
    = sha256_hex (base64_decode (Base64.encode bs)).
Proof.
  intros Hp digest. unfold digest.
  rewrite (normalizeBase64_data_uri prefix (Base64.encode bs) Hp
             (encode_free false true bs)).
  rewrite normalizeBase64_encode_url, normalizeBase64_encode_url_padded.
  by rewrite normalizeBase64_encode.
Qed.

Lemma digest_of_every_encoding_witness :
  Forall (λ x, x ≠ COMMA) (lit "data:image/png;base64")
  ∧ (let digest s :=
       fingerprintHashFromBase64 (H := node) (normalizeBase64 (Some s)) in
     digest (lit "-_8") = digest (lit "+/8=")
     ∧ digest (lit "data:image/png;base64,+/8=") = digest (lit "+/8=")).
Proof.
  assert (Hp : Forall (λ x, x ≠ COMMA) (lit "data:image/png;base64"))
    by (repeat constructor; discriminate).
  split; [exact Hp|].
  pose proof (digest_of_every_encoding (H := node)
                [Byte.xfb; Byte.xff] (lit "data:image/png;base64") Hp) as W.
  split; apply W.
Defined.

End Canonicalizer.

(** ** The tables *)

Section TableFacts.

Context {R : Type}.

Lemma findFirst_is_Some (p : jsstring → R → bool) (t : gmap jsstring R) :
  is_Some (findFirst p t) ↔ ∃ k r, t !! k = Some r ∧ p k r = true.
Proof.
  unfold findFirst. split.
  - intros [[k r] E]. apply find_some in E. destruct E as [Hin Hp].
    exists k, r. split; [|done].
    by apply elem_of_map_to_list, list_elem_of_In.
  - intros (k & r & Hk & Hp).
    destruct (List.find _ _) as [kr|] eqn:E; [by eexists|].
    exfalso.
    assert (Hf : p k r = false); [|congruence].
    apply (find_none _ _ E (k, r)).
    by apply list_elem_of_In, elem_of_map_to_list.
Qed.

Lemma findMany_elem (p : jsstring → R → bool) (t : gmap jsstring R) k r :
  (k, r) ∈ findMany p t ↔ t !! k = Some r ∧ p k r = true.
Proof.
  unfold findMany.
  rewrite list_elem_of_In, filter_In, <- list_elem_of_In.
  by rewrite elem_of_map_to_list.
Qed.

Lemma findMany_NoDup (p : jsstring → R → bool) (t : gmap jsstring R) :
  NoDup (map fst (findMany p t)).
Proof.
  unfold findMany.
  pose proof (NoDup_fst_map_to_list t) as Hnd.
  induction (map_to_list t) as [|[k r] l IH]; simpl in *; [constructor|].
  apply NoDup_cons in Hnd. destruct Hnd as [Hk Hl].
  destruct (p k r); simpl; [|by apply IH].
  apply NoDup_cons. split; [|by apply IH].
  intros Hin. apply Hk.
  apply list_elem_of_In, in_map_iff in Hin.
  destruct Hin as ([k' r'] & <- & Hin). simpl.
  apply filter_In in Hin. destruct Hin as [Hin _].
  apply list_elem_of_In, in_map_iff. by exists (k', r').
Qed.

End TableFacts.

Lemma str_eqb_eq a b : str_eqb a b = true ↔ a = b.
Proof. unfold str_eqb. apply bool_decide_eq_true. Qed.

Lemma str_eqb_refl a : str_eqb a a = true.
Proof. by apply str_eqb_eq. Qed.

(** ** The dedupe guard at enrolment *)

Section DedupeGuard.

Context `{rt : Runtime}.
Variable DISABLE_EMAILS : bool.

Lemma checkIfStudentExists_spec matric_no staff_id d :
  checkIfStudentExists matric_no staff_id d = true
  ↔ enrolment_number_taken staff_id matric_no d.
Proof.
  unfold checkIfStudentExists, enrolment_number_taken.
  rewrite bool_decide_eq_true, findFirst_is_Some.
  split; intros (id & r & Hr & H); exists id, r; (split; [done|]).
  - apply andb_true_iff in H. rewrite !str_eqb_eq in H. by destruct H.
  - apply andb_true_iff. rewrite !str_eqb_eq. by destruct H.
Qed.

Lemma existingByHash_spec digest d :
  is_Some (findFirst (λ _ r,
    bool_decide (s_fingerprint_hash r = Some digest)) (students d))
  ↔ digest_taken digest d.
Proof.
  unfold digest_taken. rewrite findFirst_is_Some.
  split; intros (id & r & Hr & H); exists id, r; (split; [done|]).
  - by apply bool_decide_eq_true in H.
  - by apply bool_decide_eq_true.
Qed.

Lemma hash_held_by_other_free id digest d :
  ¬ digest_taken digest d →
  hash_held_by_other id (Some digest) (students d) = false.
Proof.
  intros Hfree. unfold hash_held_by_other.
  apply bool_decide_eq_false. rewrite findFirst_is_Some.
  intros (k & r & Hr & H). apply Hfree. exists k, r. split; [done|].
  apply andb_true_iff in H. destruct H as [_ H].
  by apply bool_decide_eq_true in H.
Qed.

Lemma saveStudentToDb_fresh id r digest d :
  students d !! id = None →
  s_fingerprint_hash r = Some digest → ¬ digest_taken digest d →
  saveStudentToDb id r d
  = Resolve (id, r, with_students (<[id := r]> (students d)) d).
Proof.
  intros Hfresh Hr Hfree. unfold saveStudentToDb.
  rewrite Hfresh, Hr, (hash_held_by_other_free _ _ _ Hfree).
  by rewrite bool_decide_eq_false_2 by by intros [? ?].
Qed.

(** Whatever the network does, the log grows by the request first. *)
Lemma sendEmail_log net opts m :
  ∃ rest, (sendEmail DISABLE_EMAILS net opts m).2 = Requested opts :: rest.
Proof.
  unfold sendEmail, tryCreateFallback.
  destruct DISABLE_EMAILS; [eexists; reflexivity|].
  destruct (first_send net); [eexists; reflexivity|].
  destruct (isConnTimeout error); [|eexists; reflexivity].
  destruct m as [tx [fb|]], (fallback_verify net), (fallback_send net);
    eexists; reflexivity.
Qed.

Lemma sendEmail_requested net opts m (w : World) :
  ∃ rest,
    mail_log (after_mail (sendEmail DISABLE_EMAILS net opts m) w)
    = mail_log w ++ Requested opts :: rest.
Proof.
  destruct (sendEmail_log net opts m) as (rest & E).
  exists rest. unfold after_mail. cbn [mail_log]. by rewrite E.
Qed.

(** C1, as amended.  For a request with an owner and an enrolment number,
    creation is rejected with DuplicateEnrollmentNumber whenever an identity
    with the same (owner, enrolment number) exists; it is rejected with
    DuplicateBiometric whenever some identity, of any owner, has the same
    template digest and no identity has the same (owner, enrolment number),
    the enrolment number being checked first; and in either conflict case
    the reply is one of the two conflicts and the store is left as it was. *)
Theorem createStudent_conflicts (env : CreateEnv) (body : StudentCreateInput)
    (w : World) :
  nonempty (in_staff_id body) = true →
  nonempty (in_matric_no body) = true →
  let dupNo :=
    enrolment_number_taken (in_staff_id body) (in_matric_no body) (db w) in
  let dupBio := digest_taken (request_digest body) (db w) in
  (dupNo →
   createStudent DISABLE_EMAILS env body w = (DuplicateEnrollmentNumber, w))
  ∧ (dupBio → ¬ dupNo →
     createStudent DISABLE_EMAILS env body w = (DuplicateBiometric, w))
  ∧ (dupNo ∨ dupBio →
     (createStudent DISABLE_EMAILS env body w).2 = w
     ∧ ((createStudent DISABLE_EMAILS env body w).1
          = DuplicateEnrollmentNumber
        ∨ (createStudent DISABLE_EMAILS env body w).1 = DuplicateBiometric)).
Proof.
  intros Hstaff Hmatric dupNo dupBio.
  assert (HNo : dupNo →
    createStudent DISABLE_EMAILS env body w = (DuplicateEnrollmentNumber, w)).
  { intros Hd. apply checkIfStudentExists_spec in Hd.
    unfold createStudent. by rewrite Hstaff, Hmatric, Hd. }
  assert (HBio : dupBio → ¬ dupNo →
    createStudent DISABLE_EMAILS env body w = (DuplicateBiometric, w)).
  { intros Hd Hn. unfold createStudent. rewrite Hstaff, Hmatric. simpl.
    destruct (checkIfStudentExists _ _ _) eqn:E.
    - by apply checkIfStudentExists_spec in E.
    - apply existingByHash_spec in Hd. by rewrite (bool_decide_eq_true_2 _ Hd). }
  split; [done|]. split; [done|].
  intros Hany.
  destruct (checkIfStudentExists (in_matric_no body) (in_staff_id body) (db w))
    eqn:E.
  - apply checkIfStudentExists_spec in E. rewrite (HNo E). auto.
  - assert (Hn : ¬ dupNo).
    { intros Hd. apply checkIfStudentExists_spec in Hd. congruence. }
    destruct Hany as [Hd|Hd]; [done|]. rewrite (HBio Hd Hn). auto.
Qed.


(** [updateStudent] stores the new template and leaves the digest to the
    request: unless the body itself carries a [fingerprint_hash], the stored
    digest after a successful update is the one stored before. *)
Lemma updateStudent_digest_kept id body w view w' status message old :
  u_fingerprint_hash (up_newUpdate body) = None →
  updateStudent id body w = (Success status message view, w') →
  students (db w) !! id = Some old →
  students (db w') !! id = Some (v_student view)
  ∧ s_fingerprint_hash (v_student view) = s_fingerprint_hash old.
Proof.
  intros Hnone Hrun Hold. revert Hrun. unfold updateStudent.
  destruct (nonempty id); [|done]. cbn [negb].
  set (db1 := match up_courses body with
              | Some (c :: cs) => _
              | _ => db w
              end).
  assert (Hdb1 : students db1 = students (db w)).
  { unfold db1. by destruct (up_courses body) as [[|c cs]|]. }
  unfold updateStudentInDb. rewrite Hdb1, Hold.
  destruct (hash_held_by_other _ _ _); [done|].
  intros [= _ _ <- <-]. cbn [db with_db students with_students v_student].
  split; [apply lookup_insert_eq|].
  unfold apply_patch, merge_fingerprint. cbn [s_fingerprint_hash
    u_fingerprint_hash]. by rewrite Hnone.
Qed.

End DedupeGuard.

(** ** The dedupe guard on the school *)

Section DedupeGuardEvaluated.

Import Scenario.

Lemma world1_ann :
  students (db world1) !! lit "student-1"
  = Some {| s_staff_id := lit "staff-1"; s_name := lit "Ann";
            s_email := lit "csc/2024/001@student.edu";
            s_matric_no := lit "CSC/2024/001";
            s_fingerprint := list_byte_of_string "hello";
            s_fingerprint_hash := Some (lit
              "2cf24dba5fb0a30e26e83b2ac5b9e29e1b161e5c1fa7425e73043362938b9824");
            s_created_at := 10 |}.
Proof. vm_compute. reflexivity. Qed.

Lemma createStudent_conflicts_witness :
  nonempty (in_staff_id eve) = true ∧ nonempty (in_matric_no eve) = true
  ∧ digest_taken (request_digest (H := node) eve) (db world1)
  ∧ ¬ enrolment_number_taken (in_staff_id eve) (in_matric_no eve) (db world1)
  ∧ createStudent (rt := node) false (key "student-3" 30) eve world1
    = (DuplicateBiometric, world1).
Proof.
  assert (Hbio : digest_taken (request_digest (H := node) eve) (db world1)).
  { eexists _, _. split; [apply world1_ann|]. vm_compute. reflexivity. }
  assert (Hno : ¬ enrolment_number_taken (in_staff_id eve) (in_matric_no eve)
                    (db world1)).
  { intros Hd. apply checkIfStudentExists_spec in Hd.
    vm_compute in Hd. discriminate. }
  split; [reflexivity|]. split; [reflexivity|].
  split; [exact Hbio|]. split; [exact Hno|].
  exact (proj1 (proj2 (createStudent_conflicts false (key "student-3" 30)
                         eve world1 eq_refl eq_refl)) Hbio Hno).
Defined.

(** C1, as stated, fails when both conflicts hold: the request repeats
    Ann's owner, enrolment number and template; an identity with the same
    digest exists, and the reply is DuplicateEnrollmentNumber, not
    DuplicateBiometric. *)
Lemma createStudent_both_conflicts :
  digest_taken (request_digest (H := node) ann) (db world1)
  ∧ createStudent (rt := node) false (key "student-3" 30) ann world1
    = (DuplicateEnrollmentNumber, world1)
  ∧ (createStudent (rt := node) false (key "student-3" 30) ann world1).1
    ≠ DuplicateBiometric.
Proof.
  split.
  { eexists _, _. split; [apply world1_ann|]. vm_compute. reflexivity. }
  split; [vm_compute; reflexivity|]. vm_compute. discriminate.
Qed.


(** C2 at its failing input.  Ann's template is replaced by Bob's: the
    update succeeds, the two identities now hold the same template, and
    Ann's stored digest is still that of her old template, not the digest
    of the template now stored. *)
Lemma updateStudent_stale_digest :
  let r := updateStudent (rt := node) (lit "student-1") new_template world2 in
  ∃ view ann' bob',
    r.1 = Success 200 (lit "Student updated successfully") view
    ∧ students (db r.2) !! lit "student-1" = Some ann'
    ∧ students (db r.2) !! lit "student-2" = Some bob'
    ∧ s_fingerprint ann' = list_byte_of_string "world"
    ∧ s_fingerprint bob' = list_byte_of_string "world"
    ∧ s_fingerprint_hash bob'
      = Some (sha256_hex (Runtime := node) (s_fingerprint bob'))
    ∧ s_fingerprint_hash ann'
      = Some (sha256_hex (Runtime := node) (list_byte_of_string "hello"))
    ∧ s_fingerprint_hash ann'
      ≠ Some (sha256_hex (Runtime := node) (s_fingerprint ann')).
Proof.
  eexists _, _, _.
  split; [vm_compute; reflexivity|].
  split; [vm_compute; reflexivity|].
  split; [vm_compute; reflexivity|].
  repeat split; try (vm_compute; reflexivity).
  vm_compute. discriminate.
Qed.

End DedupeGuardEvaluated.

(** ** The attendance marker *)

Section AttendanceMarker.

Variable DISABLE_EMAILS : bool.

Lemma checkIfStudentIsMarked_spec a s d :
  checkIfStudentIsMarked a s d = true ↔ is_marked a s d.
Proof. unfold checkIfStudentIsMarked. apply bool_decide_eq_true. Qed.

Lemma checkIfStudentIsMarked_false a s d :
  checkIfStudentIsMarked a s d = false ↔ ¬ is_marked a s d.
Proof. unfold checkIfStudentIsMarked. apply bool_decide_eq_false. Qed.

Lemma isEnrolledIn_spec s c d : isEnrolledIn s c d = true ↔ enrolled s c d.
Proof.
  unfold isEnrolledIn, enrolled. rewrite existsb_exists. split.
  - intros ([s' c'] & Hin & Hc). apply filter_In in Hin.
    destruct Hin as [Hin Hs]. simpl in *.
    apply str_eqb_eq in Hs, Hc. subst. by apply list_elem_of_In.
  - intros Hin. eexists. split.
    + apply filter_In. split; [by apply list_elem_of_In|]. apply str_eqb_refl.
    + apply str_eqb_refl.
Qed.

Lemma isEnrolledIn_false s c d : isEnrolledIn s c d = false ↔ ¬ enrolled s c d.
Proof.
  rewrite <- isEnrolledIn_spec. by destruct (isEnrolledIn s c d).
Qed.

Lemma confirm_by_mail_db net body w :
  db (confirm_by_mail DISABLE_EMAILS net body w) = db w.
Proof.
  unfold confirm_by_mail.
  destruct (attendances (db w) !! _); [|done].
  destruct (students (db w) !! _); [|done].
  by destruct (courses (db w) !! _).
Qed.

Lemma marks_for_absent a s d : ¬ is_marked a s d → marks_for a s d = 0%nat.
Proof.
  intros H. apply count_occ_not_In. by rewrite <- list_elem_of_In.
Qed.

(** A mark that is already there answers AlreadyMarked, whatever else the
    store holds. *)
Lemma addStudentToAttendance_marked net body w :
  nonempty (attendance_id body) = true → nonempty (student_id body) = true →
  is_marked (attendance_id body) (student_id body) (db w) →
  addStudentToAttendance DISABLE_EMAILS net body w = (AlreadyMarked, w).
Proof.
  intros Ha Hs Hm. apply checkIfStudentIsMarked_spec in Hm.
  unfold addStudentToAttendance. by rewrite Ha, Hs, Hm.
Qed.

(** A successful mark adds the one row of the pair. *)
Lemma addStudentToAttendance_success net body w attendance student :
  nonempty (attendance_id body) = true → nonempty (student_id body) = true →
  ¬ is_marked (attendance_id body) (student_id body) (db w) →
  attendances (db w) !! attendance_id body = Some attendance →
  students (db w) !! student_id body = Some student →
  enrolled (student_id body) (a_course_id attendance) (db w) →
  ∃ w',
    addStudentToAttendance DISABLE_EMAILS net body w
    = (Success 200 (lit "Attendance marked successfully")
         {| marked := true; verification_bypassed := true |}, w')
    ∧ studentAttendances (db w')
      = studentAttendances (db w)
        ++ [{| sa_student_id := student_id body;
               sa_attendance_id := attendance_id body |}].
Proof.
  intros Ha Hs Hm Hatt Hst Hen.
  apply checkIfStudentIsMarked_false in Hm.
  apply isEnrolledIn_spec in Hen.
  unfold addStudentToAttendance, markStudentAttendance.
  rewrite Ha, Hs, Hm, Hatt, Hst, Hen. cbn [negb orb].
  unfold checkIfStudentIsMarked in Hm. rewrite Hm.
  eexists. split; [reflexivity|]. by rewrite confirm_by_mail_db.
Qed.


End AttendanceMarker.

(** ** The session closer *)

Section SessionCloser.

Variable DISABLE_EMAILS : bool.

Lemma elem_of_enrolled_ids sid c d :
  sid ∈ enrolled_ids c d ↔ is_Some (students d !! sid) ∧ enrolled sid c d.
Proof.
  unfold enrolled_ids. rewrite elem_of_dom. split.
  - intros [st Hst]. apply map_lookup_filter_Some in Hst.
    destruct Hst as [Hst Hen]. by split; [eexists|].
  - intros [[st Hst] Hen]. exists st. by apply map_lookup_filter_Some.
Qed.

Lemma elem_of_marked_ids sid a d : sid ∈ marked_ids a d ↔ is_marked a sid d.
Proof.
  unfold marked_ids, is_marked.
  rewrite elem_of_list_to_set, list_elem_of_In, in_map_iff. split.
  - intros ([s' a'] & Hs & Hin). apply list_elem_of_In in Hin.
    apply list_elem_of_filter in Hin. destruct Hin as [Ha Hin].
    simpl in *. by subst.
  - intros Hin. eexists. split; [|apply list_elem_of_In, list_elem_of_filter;
      split; [|exact Hin]]; done.
Qed.

Lemma elem_of_markedIds sid a d : sid ∈ markedIds a d ↔ is_marked a sid d.
Proof.
  unfold markedIds, is_marked.
  rewrite elem_of_list_to_set, list_elem_of_In, in_map_iff. split.
  - intros ([s' a'] & Hs & Hin). apply filter_In in Hin.
    destruct Hin as [Hin Ha]. apply str_eqb_eq in Ha. simpl in *. subst.
    by apply list_elem_of_In.
  - intros Hin. eexists. split; [|apply filter_In; split;
      [apply list_elem_of_In, Hin|apply str_eqb_refl]]. done.
Qed.

Lemma elem_of_enrolledStudents sid st c d :
  (sid, st) ∈ enrolledStudents c d ↔ students d !! sid = Some st ∧ enrolled sid c d.
Proof.
  unfold enrolledStudents. rewrite findMany_elem.
  apply and_iff_compat_l. rewrite existsb_exists. split.
  - intros ([s' c'] & Hin & H). apply andb_true_iff in H. destruct H as [Hs Hc].
    apply str_eqb_eq in Hs, Hc. simpl in *. subst. by apply list_elem_of_In.
  - intros Hin. eexists. split; [apply list_elem_of_In, Hin|].
    simpl. by rewrite !str_eqb_refl.
Qed.

Lemma elem_of_absentStudents sid st a attendance d :
  (sid, st) ∈ absentStudents a attendance d
  ↔ students d !! sid = Some st
    ∧ enrolled sid (a_course_id attendance) d ∧ ¬ is_marked a sid d.
Proof.
  unfold absentStudents.
  rewrite list_elem_of_In, filter_In, <- list_elem_of_In.
  rewrite elem_of_enrolledStudents, negb_true_iff, bool_decide_eq_false.
  rewrite elem_of_markedIds. simpl. tauto.
Qed.

Lemma absentStudents_NoDup a attendance d :
  NoDup (map fst (absentStudents a attendance d)).
Proof.
  unfold absentStudents, enrolledStudents.
  pose proof (findMany_NoDup (λ id (_ : Student),
    existsb (λ r, str_eqb (sc_student_id r) id
                  && str_eqb (sc_course_id r) (a_course_id attendance))
            (studentCourses d)) (students d)) as Hnd.
  induction (findMany _ _) as [|[k r] l IH]; simpl in *; [constructor|].
  apply NoDup_cons in Hnd. destruct Hnd as [Hk Hl].
  destruct (negb _); simpl; [|by apply IH].
  apply NoDup_cons. split; [|by apply IH].
  intros Hin. apply Hk.
  apply list_elem_of_In, in_map_iff in Hin.
  destruct Hin as ([k' r'] & <- & Hin). simpl.
  apply filter_In in Hin. destruct Hin as [Hin _].
  apply list_elem_of_In, in_map_iff. by exists (k', r').
Qed.

(** The identities of the absent students are the absentees of the
    specification. *)
Lemma absentStudents_absentees a attendance d :
  list_to_set (map fst (absentStudents a attendance d))
  = absentees a attendance d.
Proof.
  apply set_eq. intros sid. unfold absentees.
  rewrite elem_of_list_to_set, elem_of_difference.
  rewrite elem_of_enrolled_ids, elem_of_marked_ids.
  rewrite list_elem_of_In, in_map_iff. split.
  - intros ([k st] & <- & Hin). apply list_elem_of_In in Hin.
    apply elem_of_absentStudents in Hin. simpl.
    destruct Hin as (Hst & Hen & Hm). by repeat split; [eexists|..].
  - intros [[[st Hst] Hen] Hm]. exists (sid, st). split; [done|].
    by apply list_elem_of_In, elem_of_absentStudents.
Qed.

(** The loop answers for every absent student, in order, whatever the
    network does, and leaves the database alone. *)
Lemma mail_absentees_results nets k attendance course absent w :
  map studentId (mail_absentees DISABLE_EMAILS nets k attendance course
                   absent w).1
  = map fst absent
  ∧ db (mail_absentees DISABLE_EMAILS nets k attendance course absent w).2
    = db w.
Proof.
  revert k w. induction absent as [|student rest IH]; intros k w; [done|].
  cbn [mail_absentees].
  destruct course as [c|].
  - specialize (IH (S k) (after_mail
      (sendMissedAttendanceEmail DISABLE_EMAILS (nets k)
         (s_email student.2) (s_name student.2) (c_course_name c)
         (c_course_code c) (a_date attendance) (mailer w)) w)).
    destruct (mail_absentees _ _ _ _ _ _ _) as [results w2].
    simpl in *. destruct IH as [-> ->]. done.
  - specialize (IH (S k) w).
    destruct (mail_absentees _ _ _ _ _ _ _) as [results w2].
    simpl in *. destruct IH as [-> ->]. done.
Qed.

(** With the course of the session on record, a mail is requested for every
    absent student, whatever became of the mails before it. *)
Lemma mail_absentees_requests nets k attendance c absent w :
  let w' := (mail_absentees DISABLE_EMAILS nets k attendance (Some c)
               absent w).2 in
  (∀ e, e ∈ mail_log w → e ∈ mail_log w')
  ∧ ∀ student, student ∈ absent →
      ∃ opts, Requested opts ∈ mail_log w' ∧ to opts = s_email student.2.
Proof.
  revert k w. induction absent as [|student rest IH]; intros k w.
  - split; [done|]. intros student Hin. by apply elem_of_nil in Hin.
  - cbn [mail_absentees].
    set (r := sendMissedAttendanceEmail DISABLE_EMAILS (nets k)
         (s_email student.2) (s_name student.2) (c_course_name c)
         (c_course_code c) (a_date attendance) (mailer w)).
    specialize (IH (S k) (after_mail r w)).
    destruct (mail_absentees _ _ _ _ _ _ _) as [results w2].
    cbn [fst snd] in *. destruct IH as [Hmono Hreq].
    assert (Hlog : ∃ tail,
      mail_log (after_mail r w)
      = mail_log w ++ Requested
          {| to := s_email student.2;
             subject := lit "Missed Attendance for " ++ c_course_code c;
             html := MissedAttendance (s_name student.2) (c_course_name c)
                       (c_course_code c) (a_date attendance) |} :: tail).
    { apply sendEmail_requested. }
    destruct Hlog as (tail & Hlog).
    split.
    + intros e He. apply Hmono. rewrite Hlog. apply elem_of_app. by left.
    + intros student' Hin. apply elem_of_cons in Hin.
      destruct Hin as [->|Hin]; [|by apply Hreq].
      eexists. split.
      * apply Hmono. rewrite Hlog. apply elem_of_app. right.
        apply elem_of_cons. by left.
      * done.
Qed.

End SessionCloser.

(** ** The notification dispatcher *)

Section Dispatcher.

Variable DISABLE_EMAILS : bool.

(** Membership in the explicit list of events of a call. *)
Ltac event_cases H :=
  cbn [app fst snd] in H;
  repeat (apply elem_of_cons in H; destruct H as [H|H];
          [try discriminate H|]);
  try (by apply elem_of_nil in H).

(** Every path through [sendEmail], by the flag, the mailer and the
    network. *)
Ltac sendEmail_paths m net :=
  unfold sendEmail, tryCreateFallback;
  destruct m as [tx [[|]|]];
  (destruct DISABLE_EMAILS;
   [|destruct (first_send net) as [|error];
     [|destruct (isConnTimeout error);
       [destruct (fallback_verify net);
        destruct (fallback_send net)|]]]);
  cbn [negb fst snd transporter fallbackTransporter].

Lemma startup_fallback primary_verify verified :
  fallback_is_fallback (startup DISABLE_EMAILS primary_verify verified).
Proof.
  unfold startup, fallback_is_fallback, tryCreateFallback.
  destruct DISABLE_EMAILS; [done|].
  destruct primary_verify as [|err]; [done|].
  destruct (isConnTimeout_startup err); [|done].
  by destruct verified.
Qed.

Lemma sendEmail_fallback net opts m :
  fallback_is_fallback m →
  fallback_is_fallback (sendEmail DISABLE_EMAILS net opts m).1.2.
Proof.
  unfold fallback_is_fallback. intros Hm. revert Hm.
  sendEmail_paths m net; done.
Qed.

Lemma sendEmails_fallback calls m :
  fallback_is_fallback m →
  fallback_is_fallback (sendEmails DISABLE_EMAILS calls m).2.
Proof.
  revert m. induction calls as [|[net opts] rest IH]; intros m Hm; [done|].
  cbn [sendEmails snd]. by apply IH, sendEmail_fallback.
Qed.

(** With the fallback active, a call keeps it active, hands the message to
    it and never to the primary. *)
Lemma sendEmail_sticky net opts m :
  fallback_is_fallback m → transporter m = Fallback →
  transporter (sendEmail DISABLE_EMAILS net opts m).1.2 = Fallback
  ∧ ¬ attempted_on Primary (sendEmail DISABLE_EMAILS net opts m).2
  ∧ (DISABLE_EMAILS = false →
     attempted_on Fallback (sendEmail DISABLE_EMAILS net opts m).2).
Proof.
  unfold fallback_is_fallback, attempted_on. intros Hm Htx. revert Hm Htx.
  sendEmail_paths m net; intros Hm Htx; try done; subst;
    (split; [done|]);
    (split; [intros (o & ok & [H|H]); by event_cases H|]);
    intros Hon; try done;
    eexists _, _; left; apply elem_of_cons; right;
    apply elem_of_cons; by left.
Qed.

Lemma sendEmails_sticky calls m :
  fallback_is_fallback m → transporter m = Fallback →
  transporter (sendEmails DISABLE_EMAILS calls m).2 = Fallback
  ∧ Forall (λ out, ¬ attempted_on Primary out.2
                   ∧ (DISABLE_EMAILS = false → attempted_on Fallback out.2))
           (sendEmails DISABLE_EMAILS calls m).1.
Proof.
  revert m. induction calls as [|[net opts] rest IH]; intros m Hm Htx.
  - by split; [|constructor].
  - cbn [sendEmails fst snd].
    destruct (sendEmail_sticky net opts m Hm Htx) as (Htx' & Hno & Hyes).
    destruct (IH _ (sendEmail_fallback net opts m Hm) Htx') as [Hend Hall].
    split; [done|]. by constructor.
Qed.

(** Nothing is delivered when mails are disabled. *)
Lemma delivered_on_enabled tx net opts m :
  delivered_on tx (sendEmail DISABLE_EMAILS net opts m).2 →
  DISABLE_EMAILS = false.
Proof.
  unfold delivered_on, sendEmail. destruct DISABLE_EMAILS; [|done].
  intros (o & [H|H]); by event_cases H.
Qed.

(** A delivery on the fallback makes the fallback the active transport. *)
Lemma sendEmail_delivered_on_fallback net opts m :
  fallback_is_fallback m →
  delivered_on Fallback (sendEmail DISABLE_EMAILS net opts m).2 →
  (sendEmail DISABLE_EMAILS net opts m).1.1 = true
  ∧ transporter (sendEmail DISABLE_EMAILS net opts m).1.2 = Fallback.
Proof.
  unfold fallback_is_fallback, delivered_on. intros Hm. revert Hm.
  sendEmail_paths m net; intros Hm (o & [H|H]); event_cases H;
    try done; by inversion H.
Qed.

(** A failed fallback attempt: the call reports non-delivery and leaves
    the active transport as it was. *)
Lemma sendEmail_fallback_failed net opts m :
  fallback_attempt_failed (sendEmail DISABLE_EMAILS net opts m).2 →
  (sendEmail DISABLE_EMAILS net opts m).1.1 = false
  ∧ transporter (sendEmail DISABLE_EMAILS net opts m).1.2 = transporter m.
Proof.
  unfold fallback_attempt_failed.
  sendEmail_paths m net; intros [H|(tx' & o & H)]; event_cases H; done.
Qed.

End Dispatcher.

Section DispatcherRuns.

Variable DISABLE_EMAILS : bool.

(** C5, as amended.  In every run of the dispatcher from its start-up: once
    a send has been delivered on the fallback transport, the fallback is the
    active transport after it and after every later send, and every later
    send hands the message to the fallback and never to the primary; and
    whenever the fallback attempt of a send fails, that send reports
    non-delivery and leaves the active transport as it was, which is the
    original primary when the primary was the active transport. *)
Theorem sticky_failover (primary_verify : SendOutcome) (verified : bool)
    (before : list (Net * EmailOptions)) (net : Net) (opts : EmailOptions)
    (later : list (Net * EmailOptions)) :
  let m := (sendEmails DISABLE_EMAILS before
              (startup DISABLE_EMAILS primary_verify verified)).2 in
  let r := sendEmail DISABLE_EMAILS net opts m in
  (delivered_on Fallback r.2 →
   r.1.1 = true ∧ transporter r.1.2 = Fallback
   ∧ transporter (sendEmails DISABLE_EMAILS later r.1.2).2 = Fallback
   ∧ Forall (λ out, attempted_on Fallback out.2
                    ∧ ¬ attempted_on Primary out.2)
            (sendEmails DISABLE_EMAILS later r.1.2).1)
  ∧ (fallback_attempt_failed r.2 →
     r.1.1 = false ∧ transporter r.1.2 = transporter m)
  ∧ (transporter m = Primary → fallback_attempt_failed r.2 →
     r.1.1 = false ∧ transporter r.1.2 = Primary).
Proof.
  intros m r.
  assert (Hm : fallback_is_fallback m).
  { apply sendEmails_fallback, startup_fallback. }
  split; [|split].
  - intros Hd.
    destruct (sendEmail_delivered_on_fallback DISABLE_EMAILS net opts m Hm Hd)
      as [Hok Htx].
    pose proof (delivered_on_enabled DISABLE_EMAILS _ _ _ _ Hd) as Hon.
    split; [done|]. split; [done|].
    destruct (sendEmails_sticky DISABLE_EMAILS later r.1.2
                (sendEmail_fallback DISABLE_EMAILS net opts m Hm) Htx)
      as [Hend Hall].
    split; [done|].
    eapply Forall_impl; [exact Hall|].
    intros out [Hno Hyes]. split; [by apply Hyes|done].
  - apply sendEmail_fallback_failed.
  - intros Hp Hf.
    destruct (sendEmail_fallback_failed DISABLE_EMAILS net opts m Hf)
      as [Hok Htx].
    split; [done|]. unfold r. by rewrite Htx.
Qed.

End DispatcherRuns.

Section DispatcherEvaluated.

Import Scenario.

Lemma sticky_failover_witness :
  let first := sendEmail false primary_down hello initialMailer in
  let second := sendEmail false all_down hello initialMailer in
  (delivered_on Fallback first.2
   ∧ first.1.1 = true ∧ transporter first.1.2 = Fallback
   ∧ Forall (λ out, attempted_on Fallback out.2
                    ∧ ¬ attempted_on Primary out.2)
            (sendEmails false [(primary_down, hello); (online, hello)]
                        first.1.2).1)
  ∧ (fallback_attempt_failed second.2
     ∧ second.1.1 = false ∧ transporter second.1.2 = Primary).
Proof.
  assert (Hd : delivered_on Fallback
                 (sendEmail false primary_down hello initialMailer).2).
  { exists hello. right. vm_compute. repeat constructor. }
  assert (Hf : fallback_attempt_failed
                 (sendEmail false all_down hello initialMailer).2).
  { left. vm_compute. repeat constructor. }
  split.
  - split; [exact Hd|].
    destruct (proj1 (sticky_failover false Delivered true [] primary_down
                       hello [(primary_down, hello); (online, hello)]) Hd)
      as (H1 & H2 & _ & H4).
    split; [exact H1|]. split; [exact H2|exact H4].
  - split; [exact Hf|].
    exact (proj2 (proj2 (sticky_failover false Delivered true [] all_down
                           hello [])) eq_refl Hf).
Defined.

(** C5, as stated, fails after a failover: the first send is delivered on
    the fallback, which becomes the active transport; the fallback attempt
    of the second send fails, the send reports non-delivery, and the active
    transport of the next send is the fallback, not the original primary. *)
Lemma failed_fallback_after_failover :
  let first := sendEmail false primary_down hello initialMailer in
  let second := sendEmail false all_down hello first.1.2 in
  delivered_on Fallback first.2
  ∧ fallback_attempt_failed second.2
  ∧ second.1.1 = false
  ∧ transporter second.1.2 = Fallback
  ∧ transporter second.1.2 ≠ Primary.
Proof.
  split; [exists hello; right; vm_compute; repeat constructor|].
  split; [right; exists Fallback, hello; vm_compute; repeat constructor|].
  split; [vm_compute; reflexivity|].
  split; [vm_compute; reflexivity|]. vm_compute. discriminate.
Qed.

End DispatcherEvaluated.

(** ** Closing a session *)

Section SessionClosed.

Variable DISABLE_EMAILS : bool.


End SessionClosed.

Section SchoolEvaluated.

Import Scenario.

Lemma world4_marks :
  studentAttendances (db world4)
  = [{| sa_student_id := lit "student-1";
        sa_attendance_id := lit "session-1" |}].
Proof. vm_compute. reflexivity. Qed.




End SchoolEvaluated.

(** ** Deleting an identity *)

Section Deletion.

Lemma removeAllStudentCoursesToDb_none id d :
  ¬ has_enrollments id (removeAllStudentCoursesToDb id d).
Proof.
  intros (r & Hin & Hr). unfold removeAllStudentCoursesToDb in Hin.
  cbn [studentCourses with_studentCourses] in Hin.
  apply list_elem_of_In, filter_In in Hin. destruct Hin as [_ Hne].
  apply negb_true_iff in Hne. unfold str_eqb in Hne.
  by apply bool_decide_eq_false in Hne.
Qed.

(** The transaction of [removeStudentFromDb] is all or nothing: when it
    resolves, the Marks, the Enrollment links and the row of the identity
    are gone and nothing else has changed hands; when it rejects, no store
    comes out of it. *)
Lemma removeStudentFromDb_resolves fault id d d' :
  removeStudentFromDb fault id d = Resolve d' →
  ¬ identity_row id d' ∧ ¬ has_marks id d' ∧ ¬ has_enrollments id d'
  ∧ identity_row id d.
Proof.
  unfold removeStudentFromDb, transaction. cbn [run_statements].
  destruct (fault TxDeleteAttendances); [done|].
  unfold deleteManyAttendancesOf.
  destruct (fault TxDeleteCourses); [done|].
  unfold deleteManyCoursesOf.
  destruct (fault TxDeleteStudent); [done|].
  unfold deleteStudentRow.
  cbn [students removeAllStudentCoursesToDb with_studentCourses
       with_studentAttendances].
  destruct (students d !! id) as [r|] eqn:Hr; [|done].
  intros [= <-]. unfold identity_row, has_marks, has_enrollments.
  cbn [students with_students studentAttendances studentCourses
       with_studentAttendances with_studentCourses].
  repeat split.
  - rewrite lookup_delete_eq. by intros [? ?].
  - intros (m & Hin & Hm).
    apply list_elem_of_In, filter_In in Hin. destruct Hin as [_ Hne].
    apply negb_true_iff in Hne. unfold str_eqb in Hne.
    by apply bool_decide_eq_false in Hne.
  - intros (c & Hin & Hc).
    apply list_elem_of_In, filter_In in Hin. destruct Hin as [_ Hne].
    apply negb_true_iff in Hne. unfold str_eqb in Hne.
    by apply bool_decide_eq_false in Hne.
  - by eexists.
Qed.

(** When the storage does not fail, [deleteStudent] removes the three kinds
    of record of an identity that exists. *)
Lemma deleteStudent_removes id w :
  nonempty id = true → identity_row id (db w) →
  ∃ w', deleteStudent (λ _, false) id w
        = (Success 200 (lit "Student deleted successfully") true, w')
        ∧ ¬ identity_row id (db w') ∧ ¬ has_marks id (db w')
        ∧ ¬ has_enrollments id (db w').
Proof.
  intros Hid [r Hr]. unfold deleteStudent, removeAllStudentCoursesStmt.
  rewrite Hid. cbn [negb].
  destruct (removeStudentFromDb _ id _) as [d'|e] eqn:E.
  - eexists. split; [reflexivity|].
    apply removeStudentFromDb_resolves in E. cbn [db with_db]. tauto.
  - exfalso. revert E.
    unfold removeStudentFromDb, transaction. cbn [run_statements].
    unfold deleteManyAttendancesOf, deleteManyCoursesOf, deleteStudentRow.
    cbn [students removeAllStudentCoursesToDb with_studentCourses
         with_studentAttendances].
    by rewrite Hr.
Qed.

End Deletion.

Section DeletionEvaluated.

Import Scenario.

(** C6 at its failing input.  Ann has an Enrollment and a Mark; the storage
    fails the deletion of her identity row.  The transaction is rolled
    back, her row and her Mark are still there, and her Enrollment, which
    [deleteStudent] removes before the transaction, is gone. *)
Lemma deleteStudent_partial_deletion :
  let r := deleteStudent identity_row_fails (lit "student-1") world4 in
  has_enrollments (lit "student-1") (db world4)
  ∧ r.1 = Failure StorageFault
  ∧ identity_row (lit "student-1") (db r.2)
  ∧ has_marks (lit "student-1") (db r.2)
  ∧ ¬ has_enrollments (lit "student-1") (db r.2).
Proof.
  split.
  { exists {| sc_student_id := lit "student-1";
              sc_course_id := lit "course-1" |}.
    split; [vm_compute; repeat constructor|reflexivity]. }
  split; [vm_compute; reflexivity|].
  split; [vm_compute; eexists; reflexivity|].
  split.
  { exists {| sa_student_id := lit "student-1";
              sa_attendance_id := lit "session-1" |}.
    split; [vm_compute; repeat constructor|reflexivity]. }
  intros (c & Hin & Hc). vm_compute in Hin.
  repeat (apply elem_of_cons in Hin; destruct Hin as [Hin|Hin];
          [subst c; vm_compute in Hc; discriminate Hc|]).
  destruct (proj1 (elem_of_nil c) Hin).
Qed.

End DeletionEvaluated.

(** * Properties of the rest of the code *)

(** ** More on the canonicalizer *)

Section CanonicalizerMore.

Local Open Scope nat_scope.
Local Ltac Zify.zify_post_hook ::= Z.to_euclidean_division_equations.

Lemma canonical_body_cons x s :
  canonical_body (x :: s)
  = if isWhiteSpace x then canonical_body s
    else translate_char x :: canonical_body s.
Proof.
  rewrite !canonical_body_strip. unfold stripWhiteSpace, replaceAll.
  cbn [List.filter]. destruct (isWhiteSpace x); cbn [negb]; [done|].
  cbn [map]. f_equal. unfold translate_char.
  destruct (x =? MINUS)%N eqn:E; [done|]. done.
Qed.

Lemma translate_char_comma x :
  (translate_char x =? COMMA)%N = (x =? COMMA)%N.
Proof.
  unfold translate_char.
  destruct (x =? MINUS)%N eqn:E1.
  - apply N.eqb_eq in E1. by subst.
  - destruct (x =? UNDERSCORE)%N eqn:E2; [|done].
    apply N.eqb_eq in E2. by subst.
Qed.

Lemma white_is_not_comma x : isWhiteSpace x = true → (x =? COMMA)%N = false.
Proof. intros H. apply N.eqb_neq. by intros ->. Qed.

Lemma includes_canonical_body s :
  includes COMMA (canonical_body s) = includes COMMA s.
Proof.
  induction s as [|x s IH]; [done|].
  rewrite canonical_body_cons, includes_cons.
  destruct (isWhiteSpace x) eqn:Hw.
  - by rewrite (white_is_not_comma x Hw).
  - by rewrite includes_cons, translate_char_comma, IH.
Qed.

Lemma after_first_canonical_body s :
  canonical_body (after_first COMMA s)
  = after_first COMMA (canonical_body s).
Proof.
  induction s as [|x s IH]; [done|].
  rewrite canonical_body_cons. cbn [after_first].
  destruct (isWhiteSpace x) eqn:Hw.
  - by rewrite (white_is_not_comma x Hw).
  - cbn [after_first]. rewrite translate_char_comma.
    by destruct (x =? COMMA)%N.
Qed.

Lemma before_first_canonical_body s :
  canonical_body (before_first COMMA s)
  = before_first COMMA (canonical_body s).
Proof.
  induction s as [|x s IH]; [done|].
  rewrite canonical_body_cons. cbn [before_first].
  destruct (isWhiteSpace x) eqn:Hw.
  - rewrite (white_is_not_comma x Hw), canonical_body_cons, Hw. done.
  - cbn [before_first]. rewrite translate_char_comma.
    destruct (x =? COMMA)%N; [done|].
    by rewrite canonical_body_cons, Hw, IH.
Qed.

(** The result is a function of the translated, white-space-free input. *)
Lemma normalizeBase64_pad_form s :
  normalizeBase64 (Some s)
  = pad_loop 3
      (if includes COMMA (canonical_body s)
       then before_first COMMA (after_first COMMA (canonical_body s))
       else canonical_body s).
Proof.
  rewrite includes_canonical_body,
    <- after_first_canonical_body, <- before_first_canonical_body.
  destruct (nonempty s) eqn:Hne.
  - rewrite (normalizeBase64_unfold s Hne), includes_trim.
    f_equal.
    destruct (includes COMMA s) eqn:Hin.
    + apply canonical_body_same_strip.
      rewrite <- split_1_spec. by apply segment_trim.
    + apply canonical_body_trim.
  - by destruct s.
Qed.

Lemma canonical_body_length s : length (canonical_body s) ≤ length s.
Proof.
  induction s as [|x s IH]; [done|].
  rewrite canonical_body_cons. destruct (isWhiteSpace x); simpl; lia.
Qed.

Lemma after_first_length c s : length (after_first c s) ≤ length s.
Proof.
  induction s as [|x s IH]; [done|]. simpl.
  destruct (x =? c)%N; simpl; lia.
Qed.

Lemma before_first_length c s : length (before_first c s) ≤ length s.
Proof.
  induction s as [|x s IH]; [done|]. simpl.
  destruct (x =? c)%N; simpl; lia.
Qed.

(** X1.  Whatever the input, the result of [normalizeBase64] holds no white
    space, no comma, no ['-'] and no ['_']. *)
Theorem normalizeBase64_alphabet (x : option jsstring) :
  Forall (λ c, isWhiteSpace c = false ∧ c ≠ COMMA ∧ c ≠ MINUS
               ∧ c ≠ UNDERSCORE)
         (normalizeBase64 x).
Proof. apply normalizeBase64_chars. Qed.

(** X2.  Two inputs that differ only in their white space and in writing
    ['-'] for ['+'] or ['_'] for ['/'] have the same normal form. *)
Theorem normalizeBase64_insensitive (s t : jsstring) :
  translate (stripWhiteSpace s) = translate (stripWhiteSpace t) →
  normalizeBase64 (Some s) = normalizeBase64 (Some t).
Proof.
  intros H. rewrite !normalizeBase64_pad_form.
  unfold translate in H. rewrite <- !canonical_body_strip in H.
  by rewrite H.
Qed.

Lemma normalizeBase64_insensitive_witness :
  translate (stripWhiteSpace (lit " aG-_ Vs bG8 "))
  = translate (stripWhiteSpace (lit "aG+/VsbG8"))
  ∧ normalizeBase64 (Some (lit " aG-_ Vs bG8 "))
    = normalizeBase64 (Some (lit "aG+/VsbG8")).
Proof.
  split; [reflexivity|].
  exact (normalizeBase64_insensitive (lit " aG-_ Vs bG8 ")
           (lit "aG+/VsbG8") eq_refl).
Defined.

(** X3.  The result is never more than three characters longer than the
    input. *)
Theorem normalizeBase64_length_bound (x : option jsstring) :
  length (normalizeBase64 x) ≤ length (default [] x) + 3.
Proof.
  destruct x as [s|]; [|simpl; lia].
  destruct (normalizeBase64_closed_form s) as (k & Hk & ->).
  rewrite length_app, repeat_length.
  change (default [] (Some s)) with s.
  pose proof (canonical_body_length
    (if includes COMMA s then before_first COMMA (after_first COMMA s)
     else s)) as Hb.
  assert (length (if includes COMMA s
                  then before_first COMMA (after_first COMMA s) else s)
          ≤ length s) as Hs.
  { destruct (includes COMMA s); [|done].
    pose proof (before_first_length COMMA (after_first COMMA s)).
    pose proof (after_first_length COMMA s). lia. }
  lia.
Qed.

End CanonicalizerMore.

(** ** The cleaning of the client and the canonicalizer of the server *)

Section CleanBase64.

Lemma startsWith_app p rest : startsWith p (p ++ rest) = true.
Proof.
  induction p as [|a p IH]; [done|]. simpl. by rewrite N.eqb_refl, IH.
Qed.

Lemma startsWith_split p s :
  startsWith p s = true → s = p ++ skipn (length p) s.
Proof.
  revert s. induction p as [|a p IH]; intros [|b s] H; try done.
  simpl in H. apply andb_true_iff in H. destruct H as [Hab Hp].
  apply N.eqb_eq in Hab. subst b. simpl. f_equal. by apply IH.
Qed.

Lemma remove_first_prefix_cases prefixes s :
  remove_first_prefix prefixes s = s
  ∨ ∃ p, p ∈ prefixes ∧ s = p ++ remove_first_prefix prefixes s.
Proof.
  induction prefixes as [|p rest IH]; [by left|]. simpl.
  destruct (startsWith p s) eqn:E.
  - right. exists p. split; [by left|]. by apply startsWith_split.
  - destruct IH as [IH|(q & Hq & IH)]; [by left|].
    right. exists q. split; [by right|done].
Qed.

Lemma data_image_prefix_shape p :
  p ∈ data_image_prefixes →
  ∃ q, p = q ++ [COMMA] ∧ Forall (λ x, x ≠ COMMA) q.
Proof.
  unfold data_image_prefixes. intros H.
  repeat (apply elem_of_cons in H; destruct H as [->|H]);
    [exists (lit "data:image/png;base64")
    |exists (lit "data:image/jpeg;base64")
    |exists (lit "data:image/jpg;base64")
    |by apply elem_of_nil in H];
    (split; [reflexivity|repeat constructor; discriminate]).
Qed.

Lemma normalizeBase64_trim s :
  normalizeBase64 (Some (trim s)) = normalizeBase64 (Some s).
Proof. by rewrite !normalizeBase64_pad_form, canonical_body_trim. Qed.

(** X4.  What [cleanBase64] makes of a fingerprint string has the normal
    form of the string itself, provided that what follows a data-URI prefix
    it removes holds no comma, as no base64 payload does. *)
Theorem cleanBase64_normal_form (s : jsstring) :
  (∀ p payload, p ∈ data_image_prefixes → s = p ++ payload →
                includes COMMA payload = false) →
  normalizeBase64 (Some (cleanBase64 s)) = normalizeBase64 (Some s).
Proof.
  intros Hpayload. unfold cleanBase64.
  destruct (includesString _ s); cbn [negb]; [|apply normalizeBase64_trim].
  rewrite normalizeBase64_trim.
  destruct (remove_first_prefix_cases data_image_prefixes s)
    as [->|(p & Hp & Hs)]; [done|].
  destruct (data_image_prefix_shape p Hp) as (q & -> & Hq).
  pose proof (Hpayload _ _ Hp Hs) as Hfree.
  apply includes_false_Forall in Hfree.
  rewrite Hs at 2. rewrite <- app_assoc. cbn [app].
  symmetry. by apply normalizeBase64_data_uri.
Qed.

Lemma cleanBase64_normal_form_witness :
  cleanBase64 (lit "data:image/png;base64,aGVsbG8= ") = lit "aGVsbG8="
  ∧ normalizeBase64 (Some (cleanBase64 (lit "data:image/png;base64,aGVsbG8= ")))
    = normalizeBase64 (Some (lit "data:image/png;base64,aGVsbG8= ")).
Proof.
  split; [reflexivity|].
  apply cleanBase64_normal_form.
  intros p payload Hp Hs.
  assert (Hstart : startsWith p (lit "data:image/png;base64,aGVsbG8= ") = true)
    by (rewrite Hs; apply startsWith_app).
  unfold data_image_prefixes in Hp.
  repeat (apply elem_of_cons in Hp; destruct Hp as [->|Hp]).
  - apply (app_inv_head (lit "data:image/png;base64,")) in Hs.
    rewrite <- Hs. reflexivity.
  - discriminate Hstart.
  - discriminate Hstart.
  - destruct (proj1 (elem_of_nil p) Hp).
Defined.

End CleanBase64.

(** ** More on the mail service *)

Section MailServiceMore.

Local Open Scope nat_scope.
Variable DISABLE_EMAILS : bool.

Ltac events_of H :=
  cbn [app fst snd] in H;
  repeat (apply elem_of_cons in H; destruct H as [H|H];
          [try discriminate H|]);
  try (by apply elem_of_nil in H).

Ltac paths_of_sendEmail m net :=
  unfold sendEmail, tryCreateFallback;
  destruct m as [tx [[|]|]];
  (destruct DISABLE_EMAILS;
   [|destruct (first_send net) as [|error];
     [|destruct (isConnTimeout error) eqn:?;
       [destruct (fallback_verify net);
        destruct (fallback_send net)|]]]);
  cbn [negb fst snd transporter fallbackTransporter app].

(** X5.  [sendEmail] answers [true] exactly when a transport accepted the
    message during the call. *)
Theorem sendEmail_true_iff_delivered (net : Net) (opts : EmailOptions)
    (m : Mailer) :
  (sendEmail DISABLE_EMAILS net opts m).1.1 = true
  ↔ ∃ tx, delivered_on tx (sendEmail DISABLE_EMAILS net opts m).2.
Proof.
  unfold delivered_on. split.
  - paths_of_sendEmail m net; intros H; try discriminate H;
      eexists _, _;
      first [ left; solve [repeat constructor]
            | right; solve [repeat constructor] ].
  - paths_of_sendEmail m net; intros (tx' & o & [H|H]); events_of H; done.
Qed.

(** X6.  A call of [sendEmail] hands the message to a transport at most
    twice and has at most one fallback verified; with mails disabled it
    does neither. *)
Theorem sendEmail_bounded (net : Net) (opts : EmailOptions) (m : Mailer) :
  let events := (sendEmail DISABLE_EMAILS net opts m).2 in
  length (List.filter is_send events) ≤ 2
  ∧ length (List.filter is_verify events) ≤ 1
  ∧ (DISABLE_EMAILS = true →
     List.filter is_send events = [] ∧ List.filter is_verify events = []).
Proof.
  paths_of_sendEmail m net; cbn; repeat split; try lia; done.
Qed.

(** X7.  The fallback comes into play, and the mailer changes, only in a
    call whose first attempt was rejected with a transient error. *)
Theorem sendEmail_fallback_only_when_transient (net : Net)
    (opts : EmailOptions) (m : Mailer) :
  touches_fallback (sendEmail DISABLE_EMAILS net opts m).2
  ∨ (sendEmail DISABLE_EMAILS net opts m).1.2 ≠ m →
  DISABLE_EMAILS = false
  ∧ ∃ error, first_send net = Rejected error ∧ isConnTimeout error = true.
Proof.
  unfold touches_fallback.
  paths_of_sendEmail m net;
    intros [[(ok & H)|(tx' & o & ok & H)]|H];
    try (by events_of H); try done; split; try done; by eexists.
Qed.

Lemma sendEmail_keeps_fallback net opts m fb :
  fallbackTransporter m = Some fb →
  fallbackTransporter (sendEmail DISABLE_EMAILS net opts m).1.2 = Some fb
  ∧ List.filter is_verify (sendEmail DISABLE_EMAILS net opts m).2 = [].
Proof.
  paths_of_sendEmail m net; intros H; try discriminate H; by split.
Qed.

(** X8.  A fallback that has been verified is kept: from then on no call
    has a fallback verified again, whatever becomes of the messages. *)
Theorem verified_fallback_is_kept (calls : list (Net * EmailOptions))
    (m : Mailer) (fb : Transport) :
  fallbackTransporter m = Some fb →
  fallbackTransporter (sendEmails DISABLE_EMAILS calls m).2 = Some fb
  ∧ Forall (λ out, List.filter is_verify out.2 = [])
           (sendEmails DISABLE_EMAILS calls m).1.
Proof.
  revert m. induction calls as [|[net opts] rest IH]; intros m Hm.
  - by split; [|constructor].
  - cbn [sendEmails fst snd].
    destruct (sendEmail_keeps_fallback net opts m fb Hm) as [Hfb Hno].
    destruct (IH _ Hfb) as [Hend Hall].
    split; [done|]. by constructor.
Qed.

(** X9.  The start-up leaves the fallback as the active transport exactly
    when mails are enabled, the verification of the primary was rejected
    with [ETIMEDOUT], [ECONNECTION] or the command [CONN], and the fallback
    verified; otherwise the primary stays active. *)
Theorem startup_switches_iff (primary_verify : SendOutcome)
    (verified : bool) :
  (transporter (startup DISABLE_EMAILS primary_verify verified) = Fallback
   ↔ DISABLE_EMAILS = false ∧ verified = true
     ∧ ∃ err, primary_verify = Rejected err
              ∧ isConnTimeout_startup err = true)
  ∧ (transporter (startup DISABLE_EMAILS primary_verify verified) = Primary
     ∨ transporter (startup DISABLE_EMAILS primary_verify verified)
       = Fallback).
Proof.
  unfold startup, tryCreateFallback.
  destruct DISABLE_EMAILS.
  { split; [|by left]. split; [done|]. by intros [? _]. }
  destruct primary_verify as [|err].
  { split; [|by left]. split; [done|]. by intros (_ & _ & ? & ? & _). }
  destruct (isConnTimeout_startup err) eqn:E.
  - destruct verified; cbn.
    + split; [|by right]. split; [|done]. intros _. eauto.
    + split; [|by left]. split; [done|]. by intros (_ & ? & _).
  - split; [|by left]. split; [done|].
    intros (_ & _ & err' & [= <-] & E'). congruence.
Qed.

(** X10.  With mails disabled, no call of a run delivers, none reaches the
    network, and the mailer is left as it was. *)
Theorem sendEmails_disabled (calls : list (Net * EmailOptions)) (m : Mailer) :
  sendEmails true calls m
  = (map (λ call, (false, [Requested call.2])) calls, m).
Proof.
  induction calls as [|[net opts] rest IH]; [done|].
  cbn [sendEmails map]. unfold sendEmail. cbn [fst snd].
  rewrite IH. reflexivity.
Qed.

End MailServiceMore.

Section MailServiceEvaluated.

Import Scenario Cases.

Lemma sendEmail_fallback_only_when_transient_witness :
  touches_fallback (sendEmail false primary_down hello initialMailer).2
  ∧ ∃ error,
      first_send primary_down = Rejected error
      ∧ isConnTimeout error = true.
Proof.
  assert (Ht : touches_fallback
                 (sendEmail false primary_down hello initialMailer).2).
  { left. exists true. vm_compute. repeat constructor. }
  split; [exact Ht|].
  exact (proj2 (sendEmail_fallback_only_when_transient false primary_down
                  hello initialMailer (or_introl Ht))).
Defined.

Lemma verified_fallback_is_kept_witness :
  let m := (sendEmail false fallback_rejects hello initialMailer).1.2 in
  transporter m = Primary
  ∧ fallbackTransporter m = Some Fallback
  ∧ Forall (λ out, List.filter is_verify out.2 = [])
           (sendEmails false [(all_down, hello); (primary_down, hello)] m).1.
Proof.
  split; [reflexivity|]. split; [reflexivity|].
  exact (proj2 (verified_fallback_is_kept false
                  [(all_down, hello); (primary_down, hello)]
                  (sendEmail false fallback_rejects hello initialMailer).1.2
                  Fallback eq_refl)).
Defined.

End MailServiceEvaluated.

(** ** More on enrolment *)

Section EnrolmentMore.

Context `{rt : Runtime}.
Variable DISABLE_EMAILS : bool.

Lemma fold_skip_duplicates (rows acc : list StudentCourse) :
  let out := fold_left (λ acc r, if bool_decide (r ∈ acc) then acc
                                 else acc ++ [r]) rows acc in
  (∀ r, r ∈ out ↔ r ∈ acc ∨ r ∈ rows) ∧ (NoDup acc → NoDup out).
Proof.
  revert acc. induction rows as [|x rows IH]; intros acc; cbn [fold_left].
  - split; [|done]. intros r. rewrite elem_of_nil. tauto.
  - specialize (IH (if bool_decide (x ∈ acc) then acc else acc ++ [x])).
    cbv zeta in IH. destruct IH as [Hin Hnd]. split.
    + intros r. rewrite Hin, elem_of_cons.
      case_bool_decide as Hx.
      * split; [tauto|]. intros [?|[->|?]]; tauto.
      * rewrite elem_of_app, list_elem_of_singleton. tauto.
    + intros Hacc. apply Hnd. case_bool_decide as Hx; [done|].
      apply NoDup_app. split; [done|]. split.
      * intros y Hy Hy'. apply list_elem_of_singleton in Hy'. by subst.
      * apply NoDup_singleton.
Qed.


(** The ways [createStudent] ends, each with its condition. *)
Lemma createStudent_shape env body w :
  (createStudent DISABLE_EMAILS env body w
     = (HttpError 400 (lit "No staff ID provided") None, w)
   ∧ in_staff_id body = [])
  ∨ (createStudent DISABLE_EMAILS env body w
       = (HttpError 400 (lit "The matric_no field is required.") None, w)
     ∧ in_matric_no body = [])
  ∨ (createStudent DISABLE_EMAILS env body w = (DuplicateEnrollmentNumber, w)
     ∧ enrolment_number_taken (in_staff_id body) (in_matric_no body) (db w))
  ∨ (createStudent DISABLE_EMAILS env body w = (DuplicateBiometric, w)
     ∧ digest_taken (request_digest body) (db w))
  ∨ (createStudent DISABLE_EMAILS env body w = (Failure UniqueConstraint, w)
     ∧ is_Some (students (db w) !! new_id env))
  ∨ (nonempty (in_staff_id body) = true
     ∧ nonempty (in_matric_no body) = true
     ∧ ¬ enrolment_number_taken (in_staff_id body) (in_matric_no body) (db w)
     ∧ ¬ digest_taken (request_digest body) (db w)
     ∧ students (db w) !! new_id env = None
     ∧ createStudent DISABLE_EMAILS env body w
       = (Success 200 (lit "Student created successfully")
            {| v_id := new_id env;
               v_student := created_row env body;
               v_fingerprint :=
                 Base64.encode (s_fingerprint (created_row env body));
               v_courses :=
                 map snd (getStudentCourses (new_id env)
                            (created_db env body (db w))) |},
          after_mail (sendWelcomeEmail DISABLE_EMAILS (welcome_net env)
                        (created_email body) (in_name body) (mailer w))
                     (with_db (created_db env body (db w)) w))).
Proof.
  unfold createStudent.
  destruct (in_staff_id body) as [|c1 staff] eqn:Hstaff;
    [left; split; reflexivity|].
  destruct (in_matric_no body) as [|c2 matric] eqn:Hmatric;
    [right; left; split; reflexivity|].
  cbn [nonempty negb]. cbv zeta. right. right.
  destruct (checkIfStudentExists _ _ _) eqn:E.
  { left. split; [reflexivity|]. by apply checkIfStudentExists_spec. }
  right.
  assert (HNo : ¬ enrolment_number_taken (c1 :: staff) (c2 :: matric) (db w)).
  { intros Hd. apply checkIfStudentExists_spec in Hd. congruence. }
  case_bool_decide as Hex.
  { left. split; [reflexivity|]. by apply existingByHash_spec. }
  right.
  assert (HBio : ¬ digest_taken (request_digest body) (db w)).
  { intros Hd. by apply Hex, existingByHash_spec. }
  unfold saveStudentToDb. case_bool_decide as Hid.
  { left. split; [reflexivity|done]. }
  right. cbn [s_fingerprint_hash].
  rewrite (hash_held_by_other_free _ _ _ HBio).
  split; [reflexivity|]. split; [reflexivity|]. split; [exact HNo|].
  split; [exact HBio|]. split; [by apply eq_None_not_Some|].
  unfold created_db, created_row, created_email, requested_links,
    request_digest, bufferFromBase64.
  rewrite Hstaff, Hmatric. reflexivity.
Qed.

(** X12.  Every refusal [createStudent] makes itself has status 400 and
    comes before anything is done: the world is left as it was, nothing
    written and no mail requested.  A success has status 200. *)
Theorem createStudent_refusal_keeps_world (env : CreateEnv)
    (body : StudentCreateInput) (w : World) :
  match createStudent DISABLE_EMAILS env body w with
  | (Success status message _, _) =>
      status = 200 ∧ message = lit "Student created successfully"
  | (HttpError status _ _, w') => status = 400 ∧ w' = w
  | (Failure _, _) => True
  end.
Proof.
  destruct (createStudent_shape env body w)
    as [[-> _]|[[-> _]|[[-> _]|[[-> _]|[[-> _]|(_ & _ & _ & _ & _ & ->)]]]]];
    unfold DuplicateEnrollmentNumber, DuplicateBiometric, TypedError;
    repeat split.
Qed.

Local Ltac created H env body w :=
  destruct (createStudent_shape env body w)
    as [[E _]|[[E _]|[[E _]|[[E _]|[[E _]|(Hstaff & Hmatric & HNo & HBio
                                           & Hfresh & E)]]]]];
    rewrite E in H;
    unfold DuplicateEnrollmentNumber, DuplicateBiometric, TypedError in H;
    try discriminate H;
    injection H as <- <- <- <-; clear E.

Lemma elem_of_requested_links r id cs :
  r ∈ requested_links id cs ↔ sc_student_id r = id ∧ sc_course_id r ∈ cs.
Proof.
  unfold requested_links. rewrite !list_elem_of_In, in_map_iff. split.
  - intros (c & <- & Hc). by split.
  - intros [<- Hc]. exists (sc_course_id r). split; [by destruct r|done].
Qed.

(** X13.  What a successful [createStudent] leaves: the identity under the
    key the database gave, which was free; its fields as requested; the
    stored template the bytes of the normalized request, and the stored
    digest the digest of those bytes; the links asked for added to the
    links there were; and no other identity, course, session or Mark
    touched. *)
Theorem createStudent_success (env : CreateEnv) (body : StudentCreateInput)
    (w w' : World) (status : N) (message : jsstring) (view : StudentView) :
  createStudent DISABLE_EMAILS env body w
    = (Success status message view, w') →
  students (db w) !! new_id env = None
  ∧ students (db w') = <[new_id env := v_student view]> (students (db w))
  ∧ v_id view = new_id env
  ∧ s_staff_id (v_student view) = in_staff_id body
  ∧ s_name (v_student view) = in_name body
  ∧ s_matric_no (v_student view) = in_matric_no body
  ∧ s_created_at (v_student view) = now env
  ∧ s_fingerprint (v_student view)
    = bufferFromBase64 (normalizeBase64 (in_fingerprint body))
  ∧ s_fingerprint_hash (v_student view)
    = Some (sha256_hex (s_fingerprint (v_student view)))
  ∧ v_fingerprint view = Base64.encode (s_fingerprint (v_student view))
  ∧ (∀ r, r ∈ studentCourses (db w')
          ↔ r ∈ studentCourses (db w)
            ∨ (sc_student_id r = new_id env
               ∧ sc_course_id r ∈ in_courses body))
  ∧ courses (db w') = courses (db w)
  ∧ attendances (db w') = attendances (db w)
  ∧ studentAttendances (db w') = studentAttendances (db w).
Proof.
  intros H. created H env body w.
  split; [exact Hfresh|].
  repeat (split; [reflexivity|]).
  split; [|repeat split; reflexivity].
  intros r. unfold created_db, after_mail, with_db. cbn [db].
  destruct (fold_skip_duplicates
              (requested_links (new_id env) (in_courses body))
              (studentCourses (db w))) as [Hin _].
  unfold saveStudentCoursesToDb, with_studentCourses, with_students.
  cbn [studentCourses]. rewrite Hin, elem_of_requested_links. reflexivity.
Qed.

Lemma created_db_students env body d :
  students (created_db env body d)
  = <[new_id env := created_row env body]> (students d).
Proof. reflexivity. Qed.

Lemma db_after_mail r d w : db (after_mail r (with_db d w)) = d.
Proof. reflexivity. Qed.

(** X14.  [createStudent] keeps the identities apart: when no two
    identities shared a digest before the call, none do after it, and the
    same for the pair of owner and enrolment number. *)
Theorem createStudent_keeps_unique (env : CreateEnv)
    (body : StudentCreateInput) (w : World) :
  let w' := (createStudent DISABLE_EMAILS env body w).2 in
  (digests_unique (db w) → digests_unique (db w'))
  ∧ (enrolment_numbers_unique (db w) → enrolment_numbers_unique (db w')).
Proof.
  cbv zeta.
  destruct (createStudent_shape env body w)
    as [[-> _]|[[-> _]|[[-> _]|[[-> _]|[[-> _]|(_ & _ & HNo & HBio
                                          & Hfresh & ->)]]]]];
    try (split; intros Hu; exact Hu).
  cbn [snd]. rewrite db_after_mail. unfold digests_unique,
    enrolment_numbers_unique. rewrite created_db_students. split.
  - intros Hu i j ri rj h Hi Hj Hhi Hhj.
    apply lookup_insert_Some in Hi, Hj.
    destruct Hi as [[<- <-]|[Hni Hi]], Hj as [[<- <-]|[Hnj Hj]].
    + reflexivity.
    + cbn [created_row s_fingerprint_hash] in Hhi.
      injection Hhi as <-. destruct HBio. by exists j, rj.
    + cbn [created_row s_fingerprint_hash] in Hhj.
      injection Hhj as <-. destruct HBio. by exists i, ri.
    + by apply (Hu i j ri rj h).
  - intros Hu i j ri rj Hi Hj Hs Hm.
    apply lookup_insert_Some in Hi, Hj.
    destruct Hi as [[<- <-]|[Hni Hi]], Hj as [[<- <-]|[Hnj Hj]].
    + reflexivity.
    + cbn [created_row s_staff_id s_matric_no] in Hs, Hm.
      destruct HNo. by exists j, rj.
    + cbn [created_row s_staff_id s_matric_no] in Hs, Hm.
      destruct HNo. by exists i, ri.
    + by apply (Hu i j ri rj).
Qed.

(** X15.  The address of a created identity is the one the request gave,
    when it gave one that is not empty; an empty one counts as none, and
    the address is made from the enrolment number.  The welcome mail is
    requested for the stored address, in the name of the request. *)
Theorem createStudent_address (env : CreateEnv) (body : StudentCreateInput)
    (w w' : World) (status : N) (message : jsstring) (view : StudentView) :
  createStudent DISABLE_EMAILS env body w
    = (Success status message view, w') →
  s_email (v_student view)
  = match in_email body with
    | Some (c :: address) => c :: address
    | _ => toLowerCase (in_matric_no body) ++ lit "@student.edu"
    end
  ∧ ∃ rest,
      mail_log w'
      = mail_log w
        ++ Requested {| to := s_email (v_student view);
                        subject := lit "Welcome to Bio Attendance System";
                        html := Welcome (in_name body) |} :: rest.
Proof.
  intros H. created H env body w.
  split.
  - cbn [v_student created_row s_email]. unfold created_email.
    by destruct (in_email body) as [[|c address]|].
  - unfold sendWelcomeEmail. cbn [v_student created_row s_email].
    exact (sendEmail_requested DISABLE_EMAILS _ _ _ (with_db _ w)).
Qed.

(** X16.  Once a template is registered it cannot be registered again,
    however it is written: after a successful [createStudent], a request
    whose template normalizes to the same string is refused with one of the
    two conflicts, by any owner and under any enrolment number, and the
    world stays as it is; the same request again is refused for its
    enrolment number. *)
Theorem createStudent_once (env : CreateEnv) (body : StudentCreateInput)
    (w w' : World) (status : N) (message : jsstring) (view : StudentView) :
  createStudent DISABLE_EMAILS env body w
    = (Success status message view, w') →
  (∀ env' body',
     in_staff_id body' ≠ [] → in_matric_no body' ≠ [] →
     normalizeBase64 (in_fingerprint body')
       = normalizeBase64 (in_fingerprint body) →
     createStudent DISABLE_EMAILS env' body' w'
       = (DuplicateEnrollmentNumber, w')
     ∨ createStudent DISABLE_EMAILS env' body' w' = (DuplicateBiometric, w'))
  ∧ ∀ env',
      createStudent DISABLE_EMAILS env' body w'
        = (DuplicateEnrollmentNumber, w').
Proof.
  intros H. created H env body w.
  set (w' := after_mail _ _).
  assert (Hrow : students (db w') !! new_id env
                 = Some (created_row env body)).
  { unfold w'. rewrite db_after_mail, created_db_students.
    apply lookup_insert_eq. }
  split.
  - intros env' body' Hs Hm Hsame.
    assert (Hd : digest_taken (request_digest body') (db w')).
    { exists (new_id env), (created_row env body). split; [exact Hrow|].
      cbn [created_row s_fingerprint_hash]. unfold request_digest.
      by rewrite Hsame. }
    unfold createStudent.
    destruct (in_staff_id body') eqn:?; [done|].
    destruct (in_matric_no body') eqn:?; [done|].
    cbn [nonempty negb]. cbv zeta.
    destruct (checkIfStudentExists _ _ _); [by left|]. right.
    apply existingByHash_spec in Hd.
    unfold request_digest in Hd. by rewrite (bool_decide_eq_true_2 _ Hd).
  - intros env'. unfold createStudent. rewrite Hstaff, Hmatric.
    cbn [negb]. cbv zeta.
    assert (Hd : enrolment_number_taken (in_staff_id body)
                   (in_matric_no body) (db w')).
    { exists (new_id env), (created_row env body). by split. }
    apply checkIfStudentExists_spec in Hd. by rewrite Hd.
Qed.

Lemma findFirst_Some {R} (p : jsstring → R → bool) (t : gmap jsstring R)
    k r :
  findFirst p t = Some (k, r) → t !! k = Some r ∧ p k r = true.
Proof.
  unfold findFirst. intros E. apply find_some in E. destruct E as [Hin Hp].
  split; [|exact Hp]. by apply elem_of_map_to_list, list_elem_of_In.
Qed.

(** X17.  [findStudentByFingerprintHash] answers with an identity that
    holds the digest, giving its key, name and enrolment number; it answers
    [null] only when no identity holds the digest. *)
Theorem findStudentByFingerprintHash_sound (fingerprintHash : jsstring)
    (d : Store) :
  match findStudentByFingerprintHash fingerprintHash d with
  | Some found =>
      ∃ r, students d !! ref_id found = Some r
           ∧ s_fingerprint_hash r = Some fingerprintHash
           ∧ ref_name found = s_name r
           ∧ ref_matric_no found = s_matric_no r
  | None => ¬ digest_taken fingerprintHash d
  end.
Proof.
  unfold findStudentByFingerprintHash.
  destruct (findFirst _ _) as [[k r]|] eqn:E.
  - apply findFirst_Some in E. destruct E as [Hk Hp].
    apply bool_decide_eq_true in Hp. by exists r.
  - intros Hd. apply existingByHash_spec in Hd. rewrite E in Hd.
    by destruct Hd.
Qed.

(** X18.  The identity [createStudent] has made is the one its template
    finds: looked up by the digest of any writing of the template that
    normalizes to the same string, [findStudentByFingerprintHash] gives the
    new key with the name and the enrolment number of the request. *)
Theorem createStudent_then_find (env : CreateEnv) (body : StudentCreateInput)
    (w w' : World) (status : N) (message : jsstring) (view : StudentView)
    (sample : option jsstring) :
  createStudent DISABLE_EMAILS env body w
    = (Success status message view, w') →
  normalizeBase64 sample = normalizeBase64 (in_fingerprint body) →
  findStudentByFingerprintHash
    (fingerprintHashFromBase64 (normalizeBase64 sample)) (db w')
  = Some {| ref_id := v_id view; ref_name := in_name body;
            ref_matric_no := in_matric_no body |}.
Proof.
  intros H Hsame. created H env body w. rewrite Hsame.
  rewrite db_after_mail. unfold findStudentByFingerprintHash.
  fold (request_digest body).
  destruct (findFirst _ _) as [[k r]|] eqn:E.
  - apply findFirst_Some in E. destruct E as [Hk Hp].
    apply bool_decide_eq_true in Hp.
    rewrite created_db_students in Hk. apply lookup_insert_Some in Hk.
    destruct Hk as [[<- <-]|[_ Hk]]; [reflexivity|].
    destruct HBio. by exists k, r.
  - assert (Hd : digest_taken (request_digest body)
                   (created_db env body (db w))).
    { exists (new_id env), (created_row env body).
      rewrite created_db_students. split; [apply lookup_insert_eq|done]. }
    apply existingByHash_spec in Hd. rewrite E in Hd. by destruct Hd.
Qed.

(** X19.  What [createStudent] answers is what [getSingleStudent] then
    gives back for the new key: the same row, the same template in base64,
    and course for course the same names and codes. *)
Theorem createStudent_then_getSingleStudent (env : CreateEnv)
    (body : StudentCreateInput) (w w' : World) (status : N)
    (message : jsstring) (view : StudentView) :
  createStudent DISABLE_EMAILS env body w
    = (Success status message view, w') →
  new_id env ≠ [] →
  ∃ fetched,
    getSingleStudent (v_id view) w'
    = Success 200 (lit "Student fetched successfully") fetched
    ∧ sv_id fetched = v_id view
    ∧ sv_student fetched = v_student view
    ∧ sv_fingerprint fetched = v_fingerprint view
    ∧ map (option_map (λ c, (cr_course_name c, cr_course_code c)))
          (sv_courses fetched)
      = map (option_map (λ c, (c_course_name c, c_course_code c)))
            (v_courses view).
Proof.
  intros H Hid. created H env body w.
  cbn [v_id v_student v_fingerprint v_courses].
  unfold getSingleStudent. rewrite db_after_mail, created_db_students.
  destruct (new_id env) as [|c0 key0] eqn:Hkey; [done|].
  cbn [nonempty negb]. rewrite lookup_insert_eq.
  eexists. split; [reflexivity|].
  cbn [sv_id sv_student sv_fingerprint sv_courses].
  repeat (split; [reflexivity|]).
  unfold getStudentCourses. rewrite !map_map. apply map_ext.
  intros item. cbn [snd]. by destruct (courses _ !! _).
Qed.

End EnrolmentMore.

Section EnrolmentEvaluated.

Import Scenario.

Lemma bob_is_created :
  ∃ view w',
    createStudent (rt := node) false (key "student-2" 20) bob world1
    = (Success 200 (lit "Student created successfully") view, w').
Proof. eexists _, _. vm_compute. reflexivity. Qed.

Lemma createStudent_success_witness :
  ∃ view w',
    createStudent (rt := node) false (key "student-2" 20) bob world1
    = (Success 200 (lit "Student created successfully") view, w')
    ∧ students (db w')
      = <[lit "student-2" := v_student view]> (students (db world1))
    ∧ s_fingerprint (v_student view) = list_byte_of_string "world"
    ∧ s_fingerprint_hash (v_student view)
      = Some (sha256_hex (Runtime := node) (list_byte_of_string "world")).
Proof.
  destruct bob_is_created as (view & w' & E).
  destruct (createStudent_success (rt := node) false _ _ _ _ _ _ _ E)
    as (_ & Hs & _ & _ & _ & _ & _ & Hf & Hh & _).
  exists view, w'. split; [exact E|]. split; [exact Hs|].
  split; [exact Hf|]. rewrite Hh. f_equal. f_equal. exact Hf.
Defined.

Lemma createStudent_address_witness :
  ∃ view w',
    createStudent (rt := node) false (key "student-2" 20) bob world1
    = (Success 200 (lit "Student created successfully") view, w')
    ∧ s_email (v_student view) = lit "bob@uni.edu".
Proof.
  destruct bob_is_created as (view & w' & E).
  exists view, w'. split; [exact E|].
  exact (proj1 (createStudent_address (rt := node) false _ _ _ _ _ _ _ E)).
Defined.

Lemma ann_is_created :
  ∃ view w',
    createStudent (rt := node) false (key "student-1" 10) ann world0
    = (Success 200 (lit "Student created successfully") view, w').
Proof. eexists _, _. vm_compute. reflexivity. Qed.

Lemma createStudent_once_witness :
  ∃ view w',
    createStudent (rt := node) false (key "student-1" 10) ann world0
    = (Success 200 (lit "Student created successfully") view, w')
    ∧ (createStudent (rt := node) false (key "student-3" 30) eve w'
         = (DuplicateEnrollmentNumber, w')
       ∨ createStudent (rt := node) false (key "student-3" 30) eve w'
         = (DuplicateBiometric, w'))
    ∧ createStudent (rt := node) false (key "student-3" 30) ann w'
      = (DuplicateEnrollmentNumber, w').
Proof.
  destruct ann_is_created as (view & w' & E).
  destruct (createStudent_once (rt := node) false _ _ _ _ _ _ _ E)
    as [Hother Hsame].
  exists view, w'. split; [exact E|]. split; [|apply Hsame].
  apply Hother; [discriminate|discriminate|vm_compute; reflexivity].
Defined.

Lemma createStudent_then_find_witness :
  ∃ view w',
    createStudent (rt := node) false (key "student-1" 10) ann world0
    = (Success 200 (lit "Student created successfully") view, w')
    ∧ findStudentByFingerprintHash
        (fingerprintHashFromBase64 (H := node)
           (normalizeBase64 (in_fingerprint eve))) (db w')
      = Some {| ref_id := v_id view; ref_name := lit "Ann";
                ref_matric_no := lit "CSC/2024/001" |}.
Proof.
  destruct ann_is_created as (view & w' & E).
  exists view, w'. split; [exact E|].
  apply (createStudent_then_find (rt := node) false _ _ _ _ _ _ _ _ E).
  vm_compute. reflexivity.
Defined.

Lemma createStudent_then_getSingleStudent_witness :
  ∃ view w' fetched,
    createStudent (rt := node) false (key "student-1" 10) ann world0
    = (Success 200 (lit "Student created successfully") view, w')
    ∧ getSingleStudent (v_id view) w'
      = Success 200 (lit "Student fetched successfully") fetched
    ∧ sv_student fetched = v_student view.
Proof.
  destruct ann_is_created as (view & w' & E).
  destruct (createStudent_then_getSingleStudent (rt := node) false
              _ _ _ _ _ _ _ E) as (fetched & Hget & _ & Hrow & _);
    [discriminate|].
  exists view, w', fetched. split; [exact E|]. split; [exact Hget|exact Hrow].
Defined.

End EnrolmentEvaluated.

(** ** More on the update and the deletion of an identity *)

Section ProfileMore.

Context `{rt : Runtime}.

Lemma elem_of_filter_other {A} (f : A → jsstring) id (l : list A) x :
  x ∈ List.filter (λ r, negb (str_eqb (f r) id)) l ↔ x ∈ l ∧ f x ≠ id.
Proof.
  rewrite !list_elem_of_In, filter_In, negb_true_iff.
  unfold str_eqb. by rewrite bool_decide_eq_false.
Qed.



(** X22.  A successful [deleteStudent] removes the identity, its links and
    its Marks, and nothing more: the identity existed; every other
    identity, every link and every Mark of another identity, the courses
    and the sessions are as before, nothing is mailed; and when every Mark
    referred to a session and an identity that exist, that is still so. *)
Theorem deleteStudent_cascade (fault : DbStmt → bool) (id : jsstring)
    (w w' : World) (status : N) (message : jsstring) (deleted : bool) :
  deleteStudent fault id w = (Success status message deleted, w') →
  identity_row id (db w)
  ∧ students (db w') = delete id (students (db w))
  ∧ (∀ r, r ∈ studentCourses (db w')
          ↔ r ∈ studentCourses (db w) ∧ sc_student_id r ≠ id)
  ∧ (∀ m, m ∈ studentAttendances (db w')
          ↔ m ∈ studentAttendances (db w) ∧ sa_student_id m ≠ id)
  ∧ courses (db w') = courses (db w)
  ∧ attendances (db w') = attendances (db w)
  ∧ mailer w' = mailer w ∧ mail_log w' = mail_log w
  ∧ (marks_reference_rows (db w) → marks_reference_rows (db w')).
Proof.
  unfold deleteStudent, removeAllStudentCoursesStmt.
  destruct (nonempty id); [|discriminate]. cbn [negb].
  destruct (fault DeleteStudentCourses); [discriminate|].
  unfold removeStudentFromDb, transaction. cbn [run_statements].
  destruct (fault TxDeleteAttendances); [discriminate|].
  unfold deleteManyAttendancesOf.
  destruct (fault TxDeleteCourses); [discriminate|].
  unfold deleteManyCoursesOf.
  destruct (fault TxDeleteStudent); [discriminate|].
  unfold deleteStudentRow.
  cbn [students removeAllStudentCoursesToDb with_studentCourses
       with_studentAttendances].
  destruct (students (db w) !! id) as [old|] eqn:Hold; [|discriminate].
  intros [= _ _ _ <-].
  cbn [db with_db students courses attendances studentCourses
       studentAttendances with_students with_studentCourses
       with_studentAttendances mailer mail_log].
  assert (Hmarks : ∀ m,
    m ∈ List.filter (λ r, negb (str_eqb (sa_student_id r) id))
          (studentAttendances (db w))
    ↔ m ∈ studentAttendances (db w) ∧ sa_student_id m ≠ id).
  { intros m. apply elem_of_filter_other. }
  split; [by eexists|]. split; [reflexivity|]. split.
  { intros r. unfold removeAllStudentCoursesToDb, with_studentCourses,
      with_studentAttendances. cbn [studentCourses].
    rewrite !(elem_of_filter_other sc_student_id). tauto. }
  split; [exact Hmarks|]. repeat (split; [reflexivity|]).
  intros Href m Hin. apply Hmarks in Hin. destruct Hin as [Hin Hne].
  destruct (Href m Hin) as [Ha Hs]. split; [exact Ha|].
  unfold removeAllStudentCoursesToDb, with_students, with_studentCourses,
    with_studentAttendances. cbn [students].
  by rewrite lookup_delete_ne.
Qed.

(** X23.  What a [deleteStudent] that does not succeed can lose.  A request
    without a key is refused with status 400 and changes nothing.  When the
    storage rejects, the identities, the Marks, the courses and the
    sessions are as before and nothing is mailed; a link that is left was
    there before, and no link of another identity is lost. *)
Theorem deleteStudent_failure (fault : DbStmt → bool) (id : jsstring)
    (w : World) :
  match deleteStudent fault id w with
  | (Success status _ deleted, _) => status = 200 ∧ deleted = true
  | (HttpError status _ _, w') => status = 400 ∧ id = [] ∧ w' = w
  | (Failure e, w') =>
      students (db w') = students (db w)
      ∧ studentAttendances (db w') = studentAttendances (db w)
      ∧ courses (db w') = courses (db w)
      ∧ attendances (db w') = attendances (db w)
      ∧ mailer w' = mailer w ∧ mail_log w' = mail_log w
      ∧ (∀ r, r ∈ studentCourses (db w') → r ∈ studentCourses (db w))
      ∧ (∀ r, r ∈ studentCourses (db w) → sc_student_id r ≠ id →
              r ∈ studentCourses (db w'))
      ∧ (e = RecordNotFound → ¬ identity_row id (db w))
  end.
Proof.
  unfold deleteStudent, removeAllStudentCoursesStmt.
  destruct id as [|c0 key0]; [by repeat split|]. cbn [nonempty negb].
  destruct (fault DeleteStudentCourses).
  { repeat split; try reflexivity; try tauto; discriminate. }
  unfold removeStudentFromDb, transaction. cbn [run_statements].
  assert (Hlinks :
    (∀ r, r ∈ studentCourses (removeAllStudentCoursesToDb (c0 :: key0) (db w))
          → r ∈ studentCourses (db w))
    ∧ (∀ r, r ∈ studentCourses (db w) → sc_student_id r ≠ c0 :: key0 →
            r ∈ studentCourses
                  (removeAllStudentCoursesToDb (c0 :: key0) (db w)))).
  { unfold removeAllStudentCoursesToDb, with_studentCourses.
    cbn [studentCourses].
    split; intros r; rewrite (elem_of_filter_other sc_student_id); tauto. }
  destruct Hlinks as [Hsub Hkeep].
  destruct (fault TxDeleteAttendances).
  { repeat split; try reflexivity; try assumption; discriminate. }
  unfold deleteManyAttendancesOf.
  destruct (fault TxDeleteCourses).
  { repeat split; try reflexivity; try assumption; discriminate. }
  unfold deleteManyCoursesOf.
  destruct (fault TxDeleteStudent).
  { repeat split; try reflexivity; try assumption; discriminate. }
  unfold deleteStudentRow.
  cbn [students removeAllStudentCoursesToDb with_studentCourses
       with_studentAttendances].
  destruct (students (db w) !! (c0 :: key0)) as [old|] eqn:Hold.
  - split; reflexivity.
  - repeat split; try reflexivity; try assumption.
    intros _ [r Hr]. unfold with_db in Hr. congruence.
Qed.

End ProfileMore.

Section ProfileEvaluated.

Import Scenario Cases.

Lemma ann_courses_updated :
  ∃ view w',
    updateStudent (rt := node) (lit "student-1") new_courses world2
    = (Success 200 (lit "Student updated successfully") view, w').
Proof. eexists _, _. vm_compute. reflexivity. Qed.


Lemma ann_template_updated :
  ∃ view w',
    updateStudent (rt := node) (lit "student-1") new_template world2
    = (Success 200 (lit "Student updated successfully") view, w').
Proof. eexists _, _. vm_compute. reflexivity. Qed.


Lemma ann_deleted :
  ∃ w',
    deleteStudent no_fault (lit "student-1") world4
    = (Success 200 (lit "Student deleted successfully") true, w').
Proof. eexists. vm_compute. reflexivity. Qed.

Lemma deleteStudent_cascade_witness :
  ∃ w',
    deleteStudent no_fault (lit "student-1") world4
    = (Success 200 (lit "Student deleted successfully") true, w')
    ∧ students (db w') = delete (lit "student-1") (students (db world4))
    ∧ ∀ m, m ∈ studentAttendances (db w')
           ↔ m ∈ studentAttendances (db world4)
             ∧ sa_student_id m ≠ lit "student-1".
Proof.
  destruct ann_deleted as (w' & E).
  destruct (deleteStudent_cascade _ _ _ _ _ _ _ E)
    as (_ & Hs & _ & Hm & _).
  exists w'. split; [exact E|]. split; [exact Hs|exact Hm].
Defined.

End ProfileEvaluated.

(** ** More on marking and closing a session *)

Section AttendanceMore.

Context `{rt : Runtime}.
Variable DISABLE_EMAILS : bool.

(** The two ways [addStudentToAttendance] ends. *)
Lemma addStudentToAttendance_shape net body w :
  ((addStudentToAttendance DISABLE_EMAILS net body w).2 = w
   ∧ ∃ status message errorType,
       (addStudentToAttendance DISABLE_EMAILS net body w).1
       = HttpError status message errorType)
  ∨ ∃ attendance student,
      attendances (db w) !! attendance_id body = Some attendance
      ∧ students (db w) !! student_id body = Some student
      ∧ enrolled (student_id body) (a_course_id attendance) (db w)
      ∧ ¬ is_marked (attendance_id body) (student_id body) (db w)
      ∧ nonempty (attendance_id body) = true
      ∧ addStudentToAttendance DISABLE_EMAILS net body w
        = (Success 200 (lit "Attendance marked successfully")
             {| marked := true; verification_bypassed := true |},
           confirm_by_mail DISABLE_EMAILS net body
             (with_db (with_studentAttendances
                         (studentAttendances (db w)
                          ++ [{| sa_student_id := student_id body;
                                 sa_attendance_id := attendance_id body |}])
                         (db w)) w)).
Proof.
  unfold addStudentToAttendance.
  destruct (nonempty (attendance_id body)) eqn:Hid;
    [|left; split; [reflexivity|by eexists _, _, _]].
  destruct (nonempty (student_id body));
    [|left; split; [reflexivity|by eexists _, _, _]].
  cbn [negb orb]. cbv zeta.
  destruct (checkIfStudentIsMarked _ _ _) eqn:Hm;
    [left; split; [reflexivity|by eexists _, _, _]|].
  destruct (attendances (db w) !! attendance_id body) as [attendance|] eqn:Ha;
    [|left; split; [reflexivity|by eexists _, _, _]].
  destruct (students (db w) !! student_id body) as [student|] eqn:Hs;
    [|left; split; [reflexivity|by eexists _, _, _]].
  destruct (isEnrolledIn _ _ _) eqn:He;
    [|left; split; [reflexivity|by eexists _, _, _]].
  cbn [negb]. right. exists attendance, student.
  apply isEnrolledIn_spec in He.
  unfold markStudentAttendance. unfold checkIfStudentIsMarked in Hm.
  rewrite Hm. apply bool_decide_eq_false in Hm. by repeat split.
Qed.

Lemma confirm_by_mail_found net body w attendance student :
  attendances (db w) !! attendance_id body = Some attendance →
  students (db w) !! student_id body = Some student →
  confirm_by_mail DISABLE_EMAILS net body w
  = match courses (db w) !! a_course_id attendance with
    | Some course =>
        after_mail
          (sendAttendanceConfirmationEmail DISABLE_EMAILS net
             (s_email student) (s_name student)
             (c_course_name course) (c_course_code course)
             (a_date attendance) (mailer w)) w
    | None => w
    end.
Proof. intros Ha Hs. unfold confirm_by_mail. by rewrite Ha, Hs. Qed.

Local Ltac marked H net body w :=
  destruct (addStudentToAttendance_shape net body w)
    as [[_ (st0 & msg0 & err0 & E)]
       |(attendance & student & Hatt & Hst & Hen & Hnm & Hid & E)];
    [rewrite (surjective_pairing (addStudentToAttendance _ net body w)) in H;
     rewrite E in H; discriminate H|];
    rewrite E in H; injection H as <- <- <- <-; clear E.

(** X24.  A Mark is written only for a session that exists and an identity
    that exists, is enrolled in the course of the session and has no Mark
    for it yet: a successful [addStudentToAttendance] had all of these, and
    it adds the one Mark of the pair and changes no other table.  The answer
    says that the verification was bypassed. *)
Theorem addStudentToAttendance_only_enrolled (net : Net) (body : MarkInput)
    (w w' : World) (status : N) (message : jsstring) (view : MarkView) :
  addStudentToAttendance DISABLE_EMAILS net body w
    = (Success status message view, w') →
  (∃ attendance,
     attendances (db w) !! attendance_id body = Some attendance
     ∧ enrolled (student_id body) (a_course_id attendance) (db w))
  ∧ is_Some (students (db w) !! student_id body)
  ∧ ¬ is_marked (attendance_id body) (student_id body) (db w)
  ∧ studentAttendances (db w')
    = studentAttendances (db w)
      ++ [{| sa_student_id := student_id body;
             sa_attendance_id := attendance_id body |}]
  ∧ students (db w') = students (db w)
  ∧ courses (db w') = courses (db w)
  ∧ attendances (db w') = attendances (db w)
  ∧ studentCourses (db w') = studentCourses (db w)
  ∧ view = {| marked := true; verification_bypassed := true |}.
Proof.
  intros H. marked H net body w.
  rewrite confirm_by_mail_db.
  split; [by exists attendance|]. split; [by eexists|].
  split; [exact Hnm|]. repeat split.
Qed.

(** X25.  [addStudentToAttendance] keeps the Marks in order, whatever it
    answers: when no Mark was there twice, none is after the call; when
    every Mark referred to a session and an identity that exist, that is
    still so; and when every Mark was for an identity enrolled in the
    course of its session, that is still so. *)
Theorem addStudentToAttendance_keeps (net : Net) (body : MarkInput)
    (w : World) :
  let w' := (addStudentToAttendance DISABLE_EMAILS net body w).2 in
  (NoDup (studentAttendances (db w)) → NoDup (studentAttendances (db w')))
  ∧ (marks_reference_rows (db w) → marks_reference_rows (db w'))
  ∧ (marks_enrolled (db w) → marks_enrolled (db w')).
Proof.
  cbv zeta.
  destruct (addStudentToAttendance_shape net body w)
    as [[-> _]|(attendance & student & Hatt & Hst & Hen & Hnm & _ & ->)];
    [split; [|split]; intros Hkept; exact Hkept|].
  cbn [snd]. unfold marks_reference_rows, marks_enrolled, enrolled.
  rewrite confirm_by_mail_db. cbn [db with_db].
  unfold with_studentAttendances.
  cbn [studentAttendances students attendances studentCourses].
  split; [|split].
  - intros Hnd. apply NoDup_app. split; [exact Hnd|]. split.
    + intros m Hin Hm. apply list_elem_of_singleton in Hm. by subst m.
    + apply NoDup_singleton.
  - intros Href m Hin. apply elem_of_app in Hin.
    destruct Hin as [Hin|Hin]; [by apply Href|].
    apply list_elem_of_singleton in Hin. subst m.
    cbn [sa_attendance_id sa_student_id]. by rewrite Hatt, Hst.
  - intros Href m Hin. apply elem_of_app in Hin.
    destruct Hin as [Hin|Hin]; [by apply Href|].
    apply list_elem_of_singleton in Hin. subst m.
    cbn [sa_attendance_id sa_student_id]. by exists attendance.
Qed.

(** X26.  The mail never decides the answer.  Whether mail is disabled,
    and whatever the network does, [createStudent] and
    [addStudentToAttendance] give the same reply and leave the same
    database. *)
Theorem mail_never_decides (disabled : bool) (net net' : Net)
    (env : CreateEnv)
    (create : StudentCreateInput) (mark : MarkInput) (w : World) :
  (createStudent disabled (with_welcome_net net env) create w).1
  = (createStudent DISABLE_EMAILS env create w).1
  ∧ db (createStudent disabled (with_welcome_net net env) create w).2
    = db (createStudent DISABLE_EMAILS env create w).2
  ∧ (addStudentToAttendance disabled net mark w).1
    = (addStudentToAttendance DISABLE_EMAILS net' mark w).1
  ∧ db (addStudentToAttendance disabled net mark w).2
    = db (addStudentToAttendance DISABLE_EMAILS net' mark w).2.
Proof.
  split; [|split].
  - unfold createStudent. cbn [with_welcome_net new_id now].
    destruct (negb (nonempty _)); [reflexivity|].
    destruct (negb (nonempty _)); [reflexivity|]. cbv zeta.
    destruct (checkIfStudentExists _ _ _); [reflexivity|].
    destruct (bool_decide _); [reflexivity|].
    by destruct (saveStudentToDb _ _ _) as [[[id saved] db1]|e].
  - unfold createStudent. cbn [with_welcome_net new_id now].
    destruct (negb (nonempty _)); [reflexivity|].
    destruct (negb (nonempty _)); [reflexivity|]. cbv zeta.
    destruct (checkIfStudentExists _ _ _); [reflexivity|].
    destruct (bool_decide _); [reflexivity|].
    by destruct (saveStudentToDb _ _ _) as [[[id saved] db1]|e].
  - unfold addStudentToAttendance.
    destruct (negb _ || negb _); [by split|]. cbv zeta.
    destruct (checkIfStudentIsMarked _ _ _); [by split|].
    destruct (attendances _ !! _); [|by split].
    destruct (students _ !! _); [|by split].
    destruct (negb _); [by split|].
    destruct (markStudentAttendance _ _ _); [|by split].
    cbn [fst snd]. by rewrite !confirm_by_mail_db.
Qed.

(** X27.  After a successful mark the confirmation is asked for at the
    address stored for the identity, with the code of the course in its
    subject, when the course of the session is on record; when it is not,
    no mail is asked for. *)
Theorem addStudentToAttendance_confirmation (net : Net) (body : MarkInput)
    (w w' : World) (status : N) (message : jsstring) (view : MarkView) :
  addStudentToAttendance DISABLE_EMAILS net body w
    = (Success status message view, w') →
  ∃ attendance student,
    attendances (db w) !! attendance_id body = Some attendance
    ∧ students (db w) !! student_id body = Some student
    ∧ match courses (db w) !! a_course_id attendance with
      | Some course =>
          ∃ rest,
            mail_log w'
            = mail_log w
              ++ Requested
                   {| to := s_email student;
                      subject := lit "Attendance Recorded for "
                                 ++ c_course_code course;
                      html := AttendanceRecorded (s_name student)
                                (c_course_name course) (c_course_code course)
                                (a_date attendance) |} :: rest
      | None => mail_log w' = mail_log w ∧ mailer w' = mailer w
      end.
Proof.
  intros H. marked H net body w.
  exists attendance, student. split; [exact Hatt|]. split; [exact Hst|].
  rewrite (confirm_by_mail_found net body
             (with_db (with_studentAttendances _ (db w)) w)
             attendance student Hatt Hst).
  cbn [db with_db courses with_studentAttendances].
  destruct (courses (db w) !! a_course_id attendance) as [course|];
    [|by split].
  unfold sendAttendanceConfirmationEmail.
  exact (sendEmail_requested DISABLE_EMAILS _ _ _ (with_db _ w)).
Qed.

Lemma filter_andb {A} (p q : A → bool) (l : list A) :
  List.filter (λ x, p x && q x) l = List.filter q (List.filter p l).
Proof.
  induction l as [|x l IH]; [reflexivity|]. cbn [List.filter].
  destruct (p x); cbn [andb List.filter]; [|exact IH].
  destruct (q x); by rewrite IH.
Qed.

Lemma map_fst_filter {A B} (q : A → bool) (l : list (A * B)) :
  map fst (List.filter (λ x, q x.1) l) = List.filter q (map fst l).
Proof.
  induction l as [|[a b] l IH]; [reflexivity|]. cbn [List.filter map fst].
  destruct (q a); cbn [map fst]; by rewrite IH.
Qed.

Lemma filter_out_one (s : jsstring) (l : list jsstring) :
  NoDup l → s ∈ l →
  S (length (List.filter (λ x, negb (str_eqb x s)) l)) = length l.
Proof.
  induction l as [|x l IH]; intros Hnd Hin.
  - by apply elem_of_nil in Hin.
  - apply NoDup_cons in Hnd. destruct Hnd as [Hx Hnd].
    cbn [List.filter]. unfold str_eqb at 1. case_bool_decide as Hxs.
    + subst x. cbn [negb length]. f_equal.
      clear IH Hin. induction l as [|y l IH]; [reflexivity|].
      apply NoDup_cons in Hnd. destruct Hnd as [_ Hnd].
      cbn [List.filter]. unfold str_eqb at 1.
      rewrite bool_decide_eq_false_2.
      * cbn [negb length]. f_equal. apply IH; [|exact Hnd].
        intros Hin. apply Hx. by apply elem_of_cons; right.
      * intros ->. apply Hx. by apply elem_of_cons; left.
    + cbn [negb length]. f_equal. apply IH; [exact Hnd|].
      apply elem_of_cons in Hin. by destruct Hin as [->|Hin].
Qed.

(** What [endAttendance] answers for a session that exists. *)
Lemma endAttendance_view nets id attendance w :
  nonempty id = true → attendances (db w) !! id = Some attendance →
  ∃ view w',
    endAttendance DISABLE_EMAILS nets id w
    = (Success 200 (lit "End attendance processed") view, w')
    ∧ map studentId (results view)
      = map fst (absentStudents id attendance (db w))
    ∧ absentCount view
      = N.of_nat (length (absentStudents id attendance (db w)))
    ∧ (results view, w')
      = mail_absentees DISABLE_EMAILS nets 0 attendance
          (courses (db w) !! a_course_id attendance)
          (absentStudents id attendance (db w)) w.
Proof.
  intros Hid Hatt. unfold endAttendance. rewrite Hid, Hatt. cbn [negb].
  pose proof (mail_absentees_results DISABLE_EMAILS nets 0 attendance
    (courses (db w) !! a_course_id attendance)
    (absentStudents id attendance (db w)) w) as [Hids _].
  destruct (mail_absentees _ _ _ _ _ _ _) as [res w1].
  eexists _, _. split; [reflexivity|]. by repeat split.
Qed.

(** X28.  Marking and closing agree.  Before a successful mark, closing the
    session lists the identity among the absent; after it, closing the
    session lists the same identities in the same order less that one, and
    counts one fewer; whatever the network does at either closing. *)
Theorem mark_then_close (net : Net) (nets nets' : nat → Net)
    (body : MarkInput) (w w' : World) (status : N) (message : jsstring)
    (view : MarkView) :
  addStudentToAttendance DISABLE_EMAILS net body w
    = (Success status message view, w') →
  ∃ before after w0 w1,
    endAttendance DISABLE_EMAILS nets (attendance_id body) w
    = (Success 200 (lit "End attendance processed") before, w0)
    ∧ endAttendance DISABLE_EMAILS nets' (attendance_id body) w'
      = (Success 200 (lit "End attendance processed") after, w1)
    ∧ student_id body ∈ map studentId (results before)
    ∧ map studentId (results after)
      = List.filter (λ sid, negb (str_eqb sid (student_id body)))
                    (map studentId (results before))
    ∧ absentCount before = absentCount after + 1.
Proof.
  intros H. marked H net body w.
  set (d' := with_studentAttendances _ (db w)).
  set (w' := confirm_by_mail _ _ _ _).
  assert (Hdb : db w' = d').
  { unfold w'. by rewrite confirm_by_mail_db. }
  destruct (endAttendance_view nets (attendance_id body) attendance w Hid Hatt)
    as (before & w0 & Ebefore & Hids & Hcount & _).
  assert (Hatt' : attendances (db w') !! attendance_id body = Some attendance).
  { by rewrite Hdb. }
  destruct (endAttendance_view nets' (attendance_id body) attendance w' Hid
              Hatt') as (after & w1 & Eafter & Hids' & Hcount' & _).
  assert (Habsent :
    absentStudents (attendance_id body) attendance d'
    = List.filter (λ st : jsstring * Student,
                     negb (str_eqb st.1 (student_id body)))
        (absentStudents (attendance_id body) attendance (db w))).
  { unfold absentStudents.
    change (enrolledStudents (a_course_id attendance) d')
      with (enrolledStudents (a_course_id attendance) (db w)).
    rewrite <- filter_andb. apply filter_ext. intros [k r]. cbn [fst].
    unfold str_eqb.
    destruct (decide (k = student_id body)) as [->|Hk].
    - rewrite (bool_decide_eq_true_2 (student_id body = student_id body))
        by reflexivity.
      rewrite andb_false_r. apply negb_false_iff, bool_decide_eq_true.
      apply elem_of_markedIds. unfold is_marked, d', with_studentAttendances.
      cbn [studentAttendances]. apply elem_of_app. right.
      by apply list_elem_of_singleton.
    - rewrite (bool_decide_eq_false_2 (k = student_id body)) by exact Hk.
      cbn [negb]. rewrite andb_true_r. f_equal.
      apply bool_decide_ext. rewrite !elem_of_markedIds.
      unfold is_marked, d', with_studentAttendances.
      cbn [studentAttendances]. rewrite elem_of_app, list_elem_of_singleton.
      split; [|by left]. intros [Hin|Heq]; [exact Hin|].
      injection Heq as Heq. by destruct Hk. }
  assert (Hin : student_id body ∈ map studentId (results before)).
  { rewrite Hids. apply list_elem_of_In, in_map_iff.
    exists (student_id body, student). split; [reflexivity|].
    by apply list_elem_of_In, elem_of_absentStudents. }
  assert (Hafter : map studentId (results after)
    = List.filter (λ sid, negb (str_eqb sid (student_id body)))
                  (map studentId (results before))).
  { rewrite Hids', Hids, Hdb, Habsent.
    apply (map_fst_filter (λ sid, negb (str_eqb sid (student_id body)))). }
  exists before, after, w0, w1.
  split; [exact Ebefore|]. split; [exact Eafter|].
  split; [exact Hin|]. split; [exact Hafter|].
  rewrite Hcount, Hcount'.
  rewrite <- (length_map fst (absentStudents _ _ (db w))).
  rewrite <- (length_map fst (absentStudents _ _ (db w'))).
  rewrite <- Hids, <- Hids', Hafter.
  rewrite <- (filter_out_one (student_id body)
                (map studentId (results before)));
    [lia| |exact Hin].
  rewrite Hids. apply absentStudents_NoDup.
Qed.

Lemma not_emailed_all (absent : list (jsstring * Student)) :
  Forall (λ r, emailed r = false)
    (map (λ student : jsstring * Student,
            {| studentId := student.1; emailed := false |}) absent).
Proof. apply Forall_forall. intros r Hin.
  apply list_elem_of_In, in_map_iff in Hin. by destruct Hin as (x & <- & _).
Qed.

Lemma mail_absentees_no_course nets k attendance absent w :
  mail_absentees DISABLE_EMAILS nets k attendance None absent w
  = (map (λ student : jsstring * Student,
            {| studentId := student.1; emailed := false |}) absent, w).
Proof.
  revert k. induction absent as [|student rest IH]; intros k; [reflexivity|].
  cbn [mail_absentees map]. by rewrite IH.
Qed.

Lemma sendEmail_off net opts m :
  DISABLE_EMAILS = true →
  sendEmail DISABLE_EMAILS net opts m = (false, m, [Requested opts]).
Proof. intros Hoff. unfold sendEmail. by rewrite Hoff. Qed.

Lemma sendEmail_first net opts m :
  DISABLE_EMAILS = false → first_send net = Delivered →
  sendEmail DISABLE_EMAILS net opts m
  = (true, m, [Requested opts; SendActive (transporter m) opts true]).
Proof. intros Hon Hnet. unfold sendEmail. by rewrite Hon, Hnet. Qed.

Lemma mail_absentees_disabled nets k attendance course absent w :
  DISABLE_EMAILS = true →
  Forall (λ r, emailed r = false)
    (mail_absentees DISABLE_EMAILS nets k attendance course absent w).1
  ∧ mailer (mail_absentees DISABLE_EMAILS nets k attendance course absent w).2
    = mailer w.
Proof.
  intros Hoff. destruct course as [c|].
  2:{ rewrite mail_absentees_no_course. split; [apply not_emailed_all|done]. }
  revert k w. induction absent as [|student rest IH]; intros k w.
  - split; [constructor|reflexivity].
  - cbn [mail_absentees].
    unfold sendMissedAttendanceEmail.
    rewrite (sendEmail_off _ _ _ Hoff). cbn [fst snd].
    match goal with
    | |- context [mail_absentees _ _ _ _ _ _ ?w1] =>
        specialize (IH (S k) w1)
    end.
    destruct (mail_absentees _ _ _ _ _ _ _) as [res w2].
    cbn [fst snd] in *. destruct IH as [Hall Hm].
    split; [by constructor|]. by rewrite Hm.
Qed.

Lemma mail_absentees_online nets k attendance c absent w :
  DISABLE_EMAILS = false → (∀ n, first_send (nets n) = Delivered) →
  Forall (λ r, emailed r = true)
    (mail_absentees DISABLE_EMAILS nets k attendance (Some c) absent w).1
  ∧ mailer (mail_absentees DISABLE_EMAILS nets k attendance (Some c)
              absent w).2
    = mailer w.
Proof.
  intros Hon Hnet.
  revert k w. induction absent as [|student rest IH]; intros k w.
  - split; [constructor|reflexivity].
  - cbn [mail_absentees].
    unfold sendMissedAttendanceEmail.
    rewrite (sendEmail_first _ _ _ Hon (Hnet k)). cbn [fst snd].
    match goal with
    | |- context [mail_absentees _ _ _ _ _ _ ?w1] =>
        specialize (IH (S k) w1)
    end.
    destruct (mail_absentees _ _ _ _ _ _ _) as [res w2].
    cbn [fst snd] in *. destruct IH as [Hall Hm].
    split; [by constructor|]. by rewrite Hm.
Qed.

(** X29.  What the results of [endAttendance] say of the mail.  With mail
    disabled every absent student is reported as not mailed and the
    transports are left alone.  With the course of the session missing
    from the records, every one is reported as not mailed and the world
    is left as it was.  With mail enabled, the course on record and every
    first send delivered, every one is reported as mailed and the
    transports are left alone. *)
Theorem endAttendance_emailed (nets : nat → Net) (id : jsstring)
    (w w' : World) (status : N) (message : jsstring) (view : EndView) :
  endAttendance DISABLE_EMAILS nets id w = (Success status message view, w') →
  ∃ attendance,
    attendances (db w) !! id = Some attendance
    ∧ (DISABLE_EMAILS = true →
       Forall (λ r, emailed r = false) (results view)
       ∧ mailer w' = mailer w)
    ∧ (courses (db w) !! a_course_id attendance = None →
       Forall (λ r, emailed r = false) (results view) ∧ w' = w)
    ∧ (DISABLE_EMAILS = false →
       is_Some (courses (db w) !! a_course_id attendance) →
       (∀ n, first_send (nets n) = Delivered) →
       Forall (λ r, emailed r = true) (results view)
       ∧ mailer w' = mailer w).
Proof.
  intros H.
  destruct (nonempty id) eqn:Hid;
    [|unfold endAttendance in H; rewrite Hid in H; discriminate H].
  destruct (attendances (db w) !! id) as [attendance|] eqn:Hatt;
    [|unfold endAttendance in H; rewrite Hid, Hatt in H; discriminate H].
  destruct (endAttendance_view nets id attendance w Hid Hatt)
    as (view0 & w0 & E & _ & _ & Hloop).
  rewrite E in H. injection H as _ _ <- <-.
  exists attendance. split; [reflexivity|].
  split; [|split].
  - intros Hoff.
    pose proof (mail_absentees_disabled nets 0 attendance
      (courses (db w) !! a_course_id attendance)
      (absentStudents id attendance (db w)) w Hoff) as Hd.
    rewrite <- Hloop in Hd. exact Hd.
  - intros Hnone. rewrite Hnone, mail_absentees_no_course in Hloop.
    injection Hloop as -> ->. split; [apply not_emailed_all|reflexivity].
  - intros Hon [c Hc] Hnet. rewrite Hc in Hloop.
    pose proof (mail_absentees_online nets 0 attendance c
      (absentStudents id attendance (db w)) w Hon Hnet) as Hd.
    rewrite <- Hloop in Hd. exact Hd.
Qed.

End AttendanceMore.

Section AttendanceEvaluated.

Import Scenario.

Lemma ann_is_marked :
  ∃ w',
    addStudentToAttendance false online ann_on_monday world3
    = (Success 200 (lit "Attendance marked successfully")
         {| marked := true; verification_bypassed := true |}, w').
Proof. eexists. vm_compute. reflexivity. Qed.

Lemma addStudentToAttendance_only_enrolled_witness :
  ∃ w',
    addStudentToAttendance false online ann_on_monday world3
    = (Success 200 (lit "Attendance marked successfully")
         {| marked := true; verification_bypassed := true |}, w')
    ∧ studentAttendances (db w')
      = studentAttendances (db world3)
        ++ [{| sa_student_id := lit "student-1";
               sa_attendance_id := lit "session-1" |}]
    ∧ ¬ is_marked (lit "session-1") (lit "student-1") (db world3).
Proof.
  destruct ann_is_marked as (w' & E).
  destruct (addStudentToAttendance_only_enrolled _ _ _ _ _ _ _ _ E)
    as (_ & _ & Hnm & Hmarks & _).
  exists w'. split; [exact E|]. split; [exact Hmarks|exact Hnm].
Defined.

Lemma addStudentToAttendance_confirmation_witness :
  ∃ w' attendance student,
    addStudentToAttendance false online ann_on_monday world3
    = (Success 200 (lit "Attendance marked successfully")
         {| marked := true; verification_bypassed := true |}, w')
    ∧ attendances (db world3) !! lit "session-1" = Some attendance
    ∧ students (db world3) !! lit "student-1" = Some student
    ∧ match courses (db world3) !! a_course_id attendance with
      | Some course =>
          ∃ rest,
            mail_log w'
            = mail_log world3
              ++ Requested
                   {| to := s_email student;
                      subject := lit "Attendance Recorded for "
                                 ++ c_course_code course;
                      html := AttendanceRecorded (s_name student)
                                (c_course_name course) (c_course_code course)
                                (a_date attendance) |} :: rest
      | None => mail_log w' = mail_log world3 ∧ mailer w' = mailer world3
      end.
Proof.
  destruct ann_is_marked as (w' & E).
  destruct (addStudentToAttendance_confirmation _ _ _ _ _ _ _ _ E)
    as (attendance & student & Hatt & Hst & Hmail).
  exists w', attendance, student.
  split; [exact E|]. split; [exact Hatt|]. split; [exact Hst|exact Hmail].
Defined.

Lemma mark_then_close_witness :
  ∃ w' before after w0 w1,
    addStudentToAttendance false online ann_on_monday world3
    = (Success 200 (lit "Attendance marked successfully")
         {| marked := true; verification_bypassed := true |}, w')
    ∧ endAttendance false closing_nets (lit "session-1") world3
      = (Success 200 (lit "End attendance processed") before, w0)
    ∧ endAttendance false closing_nets (lit "session-1") w'
      = (Success 200 (lit "End attendance processed") after, w1)
    ∧ lit "student-1" ∈ map studentId (results before)
    ∧ absentCount before = absentCount after + 1.
Proof.
  destruct ann_is_marked as (w' & E).
  destruct (mark_then_close false online closing_nets closing_nets
              _ _ _ _ _ _ E)
    as (before & after & w0 & w1 & Eb & Ea & Hin & _ & Hcount).
  exists w', before, after, w0, w1.
  split; [exact E|]. split; [exact Eb|]. split; [exact Ea|].
  split; [exact Hin|exact Hcount].
Defined.

Lemma monday_is_closed :
  ∃ view w',
    endAttendance false (λ _, online) (lit "session-1") world4
    = (Success 200 (lit "End attendance processed") view, w').
Proof. eexists _, _. vm_compute. reflexivity. Qed.

Lemma endAttendance_emailed_witness :
  ∃ view w',
    endAttendance false (λ _, online) (lit "session-1") world4
    = (Success 200 (lit "End attendance processed") view, w')
    ∧ Forall (λ r, emailed r = true) (results view)
    ∧ mailer w' = mailer world4.
Proof.
  destruct monday_is_closed as (view & w' & E).
  destruct (endAttendance_emailed false _ _ _ _ _ _ _ E)
    as (attendance & Hatt & _ & _ & Hon).
  exists view, w'. split; [exact E|].
  apply Hon; [reflexivity| |reflexivity].
  vm_compute in Hatt. injection Hatt as <-. vm_compute. eexists. reflexivity.
Defined.

End AttendanceEvaluated.

(** ** The script that fills in the digests *)

Section Populate.

Context `{rt : Runtime}.

Lemma populated_row_idem r : populated_row (populated_row r) = populated_row r.
Proof.
  unfold populated_row at 2 3.
  destruct (truthy (s_fingerprint_hash r)) eqn:Hr.
  - unfold populated_row. by rewrite Hr.
  - unfold populated_row.
    destruct (truthy (s_fingerprint_hash (apply_patch _ r))); [reflexivity|].
    by destruct r.
Qed.

Lemma populated_row_hash r :
  (∀ bytes, sha256_hex bytes ≠ []) →
  truthy (s_fingerprint_hash (populated_row r)) = true.
Proof.
  intros Hsha. unfold populated_row.
  destruct (truthy (s_fingerprint_hash r)) eqn:Hr; [exact Hr|].
  cbn [apply_patch hash_patch s_fingerprint_hash u_fingerprint_hash default
       truthy].
  specialize (Hsha (s_fingerprint r)).
  by destruct (sha256_hex (s_fingerprint r)).
Qed.

Lemma populate_rows_skip l n d :
  (∀ s, s ∈ l → truthy (s_fingerprint_hash s.2) = true) →
  populate_rows l n d = (Resolve n, d).
Proof.
  induction l as [|s l IH]; intros Hall; [reflexivity|].
  cbn [populate_rows]. rewrite (Hall s) by (apply elem_of_cons; by left).
  apply IH. intros s' Hin. apply Hall, elem_of_cons. by right.
Qed.

Lemma populate_rows_spec l :
  ∀ n d,
    NoDup (map fst l) →
    (∀ k r, (k, r) ∈ l → students d !! k = Some r) →
    match populate_rows l n d with
    | (Resolve n', d') =>
        (∀ id, students d' !! id
               = if bool_decide (id ∈ map fst l)
                 then populated_row <$> students d !! id
                 else students d !! id)
        ∧ n' = (n + N.of_nat
                      (length (List.filter
                         (λ s : jsstring * Student,
                            negb (truthy (s_fingerprint_hash s.2))) l)))%N
        ∧ courses d' = courses d ∧ attendances d' = attendances d
        ∧ studentCourses d' = studentCourses d
        ∧ studentAttendances d' = studentAttendances d
    | (Reject e, d') =>
        e = UniqueConstraint
        ∧ (∀ id, students d' !! id = students d !! id
                 ∨ students d' !! id = populated_row <$> students d !! id)
        ∧ courses d' = courses d ∧ attendances d' = attendances d
        ∧ studentCourses d' = studentCourses d
        ∧ studentAttendances d' = studentAttendances d
        ∧ digest_collision d
    end.
Proof.
  induction l as [|[k r] rest IH]; intros n d Hnd Hrows.
  { cbn [populate_rows map List.filter length].
    split; [|split; [lia|by repeat split]].
    intros id. rewrite bool_decide_eq_false_2; [reflexivity|].
    apply not_elem_of_nil. }
  cbn [map fst] in Hnd. apply NoDup_cons in Hnd. destruct Hnd as [Hk Hnd].
  assert (Hr : students d !! k = Some r).
  { apply Hrows, elem_of_cons. by left. }
  assert (Hrest : ∀ k' r', (k', r') ∈ rest → students d !! k' = Some r').
  { intros k' r' Hin. apply Hrows, elem_of_cons. by right. }
  assert (Hne : ∀ k' r', (k', r') ∈ rest → k' ≠ k).
  { intros k' r' Hin ->. apply Hk.
    apply list_elem_of_In, in_map_iff. exists (k, r').
    split; [reflexivity|by apply list_elem_of_In]. }
  cbn [populate_rows fst snd List.filter].
  destruct (truthy (s_fingerprint_hash r)) eqn:Htruthy.
  - (* the row has its digest *)
    specialize (IH n d Hnd Hrest).
    destruct (populate_rows rest n d) as [[n'|e] d'].
    + destruct IH as (Hs & Hn & Htables). cbn [negb].
      split; [|split; [exact Hn|exact Htables]].
      intros id. rewrite Hs. cbn [map fst].
      destruct (decide (id = k)) as [->|Hid].
      * rewrite (bool_decide_eq_false_2 (k ∈ map fst rest)) by exact Hk.
        rewrite bool_decide_eq_true_2 by (apply elem_of_cons; by left).
        rewrite Hr. cbn [fmap option_fmap option_map].
        unfold populated_row. by rewrite Htruthy.
      * rewrite (bool_decide_ext (id ∈ map fst rest)
                     (id ∈ k :: map fst rest)); [reflexivity|].
           rewrite elem_of_cons. tauto.
    + exact IH.
  - (* the row is given its digest *)
    cbn [negb length].
    unfold updateStudentInDb. rewrite Hr. cbv zeta.
    set (r1 := apply_patch (hash_patch (sha256_hex (s_fingerprint r))) r).
    assert (Hpop : populated_row r = r1).
    { unfold populated_row. by rewrite Htruthy. }
    assert (Hhash : s_fingerprint_hash r1
                    = Some (sha256_hex (s_fingerprint r))).
    { reflexivity. }
    rewrite Hhash.
    destruct (hash_held_by_other k _ (students d)) eqn:Hheld.
    + (* another row holds the digest *)
      split; [reflexivity|]. split; [by left|].
      repeat (split; [reflexivity|]).
      unfold hash_held_by_other in Hheld.
      apply bool_decide_eq_true, findFirst_is_Some in Hheld.
      destruct Hheld as (k2 & r2 & Hr2 & Hp).
      apply andb_true_iff in Hp. destruct Hp as [Hk2 Hh2].
      apply negb_true_iff in Hk2. unfold str_eqb in Hk2.
      apply bool_decide_eq_false in Hk2. apply bool_decide_eq_true in Hh2.
      exists k, k2, r, r2. split; [by apply not_eq_sym|].
      split; [exact Hr|]. split; [exact Hr2|]. split; [exact Htruthy|].
      by left.
    + set (d1 := with_students (<[k := r1]> (students d)) d).
      assert (Hrest1 : ∀ k' r', (k', r') ∈ rest →
                                students d1 !! k' = Some r').
      { intros k' r' Hin. unfold d1, with_students. cbn [students].
        rewrite lookup_insert_ne by (apply not_eq_sym, (Hne k' r' Hin)).
        by apply Hrest. }
      specialize (IH (n + 1)%N d1 Hnd Hrest1).
      assert (Hd1 : ∀ id, id ≠ k → students d1 !! id = students d !! id).
      { intros id Hid. unfold d1, with_students. cbn [students].
        by rewrite lookup_insert_ne by by apply not_eq_sym. }
      assert (Hd1k : students d1 !! k = Some r1).
      { unfold d1, with_students. cbn [students]. apply lookup_insert_eq. }
      destruct (populate_rows rest (n + 1) d1) as [[n'|e] d'].
      * destruct IH as (Hs & Hn & Htables).
        split; [|split; [lia|exact Htables]].
        intros id. rewrite Hs. cbn [map fst].
        destruct (decide (id = k)) as [->|Hid].
        -- rewrite (bool_decide_eq_false_2 (k ∈ map fst rest)) by exact Hk.
           rewrite bool_decide_eq_true_2 by (apply elem_of_cons; by left).
           by rewrite Hd1k, Hr, <- Hpop.
        -- rewrite (Hd1 id Hid).
           rewrite (bool_decide_ext (id ∈ map fst rest)
                     (id ∈ k :: map fst rest)); [reflexivity|].
           rewrite elem_of_cons. tauto.
      * destruct IH as (He & Hs & Hc & Ha & Hsc & Hsa & Hcoll).
        split; [exact He|]. split.
        { intros id. destruct (decide (id = k)) as [->|Hid].
          - right. rewrite Hr. cbn [fmap option_fmap option_map].
            rewrite Hpop.
            destruct (Hs k) as [E|E]; rewrite E, Hd1k; [reflexivity|].
            cbn [fmap option_fmap option_map].
            by rewrite <- Hpop, populated_row_idem.
          - rewrite <- (Hd1 id Hid). apply Hs. }
        split; [exact Hc|]. split; [exact Ha|]. split; [exact Hsc|].
        split; [exact Hsa|].
        destruct Hcoll as (i & i' & ri & ri' & Hii & Hi & Hi' & Hlack & Hsame).
        assert (Hback : ∀ j rj, students d1 !! j = Some rj →
          ∃ rj0, students d !! j = Some rj0
                 ∧ s_fingerprint rj0 = s_fingerprint rj
                 ∧ (truthy (s_fingerprint_hash rj) = false →
                    truthy (s_fingerprint_hash rj0) = false)
                 ∧ (rj = rj0 ∨ rj = populated_row rj0)).
        { intros j rj Hj. destruct (decide (j = k)) as [->|Hjk].
          - rewrite Hd1k in Hj. injection Hj as <-.
            exists r. split; [exact Hr|]. split; [reflexivity|].
            split; [by intros _|]. right. by rewrite Hpop.
          - rewrite (Hd1 j Hjk) in Hj. exists rj.
            split; [exact Hj|]. split; [reflexivity|].
            split; [by intros ?|by left]. }
        destruct (Hback i ri Hi) as (ri0 & Hi0 & Hfp & Hl0 & _).
        destruct (Hback i' ri' Hi') as (ri0' & Hi0' & _ & _ & Hor).
        exists i, i', ri0, ri0'. split; [exact Hii|].
        split; [exact Hi0|]. split; [exact Hi0'|].
        split; [by apply Hl0|]. rewrite Hfp.
        destruct Hor as [->| ->]; [exact Hsame|].
        right. rewrite populated_row_idem in Hsame. by destruct Hsame.
Qed.

Lemma filter_true {A} (l : list A) : List.filter (λ _, true) l = l.
Proof. induction l as [|x l IH]; [reflexivity|]. cbn. by rewrite IH. Qed.


End Populate.

Section PopulateEvaluated.

Import Scenario Cases.

(** The script on two old rows with different templates: both are given
    their digest. *)
Lemma populate_legacy :
  ∃ d',
    populateFingerprintHash (H := node) legacy = (Resolve 2, d')
    ∧ s_fingerprint_hash <$> students d' !! lit "student-7"
      = Some (Some (sha256_hex (Runtime := node)
                      (list_byte_of_string "left")))
    ∧ populateFingerprintHash (H := node) d' = (Resolve 0, d').
Proof.
  eexists. split; [vm_compute; reflexivity|].
  split; vm_compute; reflexivity.
Qed.

(** The script on two old rows with one template: the first row it visits
    is written, the second is refused by the unique index, and the script
    ends there. *)
Lemma populate_twins :
  ∃ d',
    populateFingerprintHash (H := node) twins = (Reject UniqueConstraint, d')
    ∧ length (findMany (λ _ r, truthy (s_fingerprint_hash r)) (students d'))
      = 1%nat.
Proof. eexists. split; vm_compute; reflexivity. Qed.

End PopulateEvaluated.
